(** * route_xdcdb-fos: reconciliation of the field-of-science table

    A shallow embedding of [bin/route_xdcdb-fos.py] (class [HandleLoad]):
    [Retrieve_Source] builds the source snapshot from the rows of a cursor,
    [Store_Destination] loads the destination table, compares MD5 digests of
    the printed, key-sorted records and upserts / deletes accordingly.

    Python values are the ones the FOS columns carry (None, bool, int, str);
    a [str] is a Rocq [string] whose characters are the code points
    U+0000..U+00FF; a [dict] is an insertion-ordered association list. *)

From Stdlib Require Import ZArith List Bool Lia.
From Stdlib.Strings Require Import Ascii String Byte.
From Stdlib Require Import DecimalString.
From Stdlib Require OrderedTypeEx.
Import ListNotations.
Local Open Scope string_scope.
Local Open Scope Z_scope.

Set Implicit Arguments.

(** ** Python values *)

Inductive pyval : Type :=
| PyNone
| PyBool (b : bool)
| PyInt (z : Z)
| PyStr (s : string).

Definition pyval_eq_dec (a b : pyval) : {a = b} + {a <> b}.
Proof. decide equality; [apply bool_dec | apply Z.eq_dec | apply string_dec]. Defined.

(** A dict key up to Python's [==]/[hash]: [True == 1] and [False == 0], so a
    bool and the int it equals are one key; None, ints and strs are distinct. *)
Inductive pykey : Type :=
| KNone
| KInt (z : Z)
| KStr (s : string).

Definition key_of (v : pyval) : pykey :=
  match v with
  | PyNone => KNone
  | PyBool b => KInt (if b then 1 else 0)
  | PyInt z => KInt z
  | PyStr s => KStr s
  end.

Definition pykey_eq_dec (a b : pykey) : {a = b} + {a <> b}.
Proof. decide equality; [apply Z.eq_dec | apply string_dec]. Defined.

Definition pykey_eqb (a b : pykey) : bool :=
  if pykey_eq_dec a b then true else false.

(** ** Text: [str()], [repr()], [lower()], [encode('UTF-8')] *)

Module PyText.

Definition code (c : ascii) : Z := Z.of_N (N_of_ascii c).
Definition chr (z : Z) : ascii := ascii_of_N (Z.to_N z).

Definition string_of_Z (z : Z) : string := NilZero.string_of_int (Z.to_int z).

(** [str(v)] *)
Definition py_str (v : pyval) : string :=
  match v with
  | PyNone => "None"
  | PyBool true => "True"
  | PyBool false => "False"
  | PyInt z => string_of_Z z
  | PyStr s => s
  end.

(** [c.lower()] for one code point below U+0100: A-Z and the Latin-1
    capitals (all of U+00C0..U+00DE but the multiplication sign). *)
Definition lower_char (c : ascii) : ascii :=
  let n := code c in
  if ((65 <=? n) && (n <=? 90)) || ((192 <=? n) && (n <=? 222) && negb (n =? 215))
  then chr (n + 32) else c.

Fixpoint lower (s : string) : string :=
  match s with
  | EmptyString => EmptyString
  | String c s' => String (lower_char c) (lower s')
  end.

Fixpoint contains (c : ascii) (s : string) : bool :=
  match s with
  | EmptyString => false
  | String d s' => Ascii.eqb c d || contains c s'
  end.

Definition hex_digit (n : Z) : ascii :=
  if n <? 10 then chr (48 + n) else chr (87 + n).

(** [str.isprintable] on a code point in U+0080..U+00FF: the C1 controls,
    the no-break space and the soft hyphen are not printable. *)
Definition printable_high (n : Z) : bool :=
  negb ((n <=? 160) || (n =? 173)).

Definition squote : ascii := chr 39.
Definition dquote : ascii := chr 34.
Definition backslash : ascii := chr 92.

Definition repr_char (quote : ascii) (c : ascii) : string :=
  let n := code c in
  if Ascii.eqb c quote || (n =? 92) then String backslash (String c EmptyString)
  else if n =? 9 then String backslash "t"
  else if n =? 10 then String backslash "n"
  else if n =? 13 then String backslash "r"
  else if (n <? 32) || (n =? 127) || ((127 <? n) && negb (printable_high n))
  then String backslash (String "x" (String (hex_digit (n / 16))
                                 (String (hex_digit (n mod 16)) EmptyString)))
  else String c EmptyString.

Fixpoint repr_body (quote : ascii) (s : string) : string :=
  match s with
  | EmptyString => EmptyString
  | String c s' => repr_char quote c ++ repr_body quote s'
  end.

(** [repr(s)]: single quotes, unless the text has a single quote and no
    double quote. *)
Definition repr_str (s : string) : string :=
  let quote := if contains squote s && negb (contains dquote s) then dquote else squote in
  String quote (repr_body quote s ++ String quote EmptyString).

(** [repr(v)] *)
Definition py_repr (v : pyval) : string :=
  match v with
  | PyStr s => repr_str s
  | _ => py_str v
  end.

(** [s.encode('UTF-8')] *)
Definition byte_of_Z (z : Z) : byte :=
  match Byte.of_N (Z.to_N z) with Some b => b | None => x00 end.

Fixpoint encode_utf8 (s : string) : list byte :=
  match s with
  | EmptyString => []
  | String c s' =>
      let n := code c in
      if n <? 128 then byte_of_Z n :: encode_utf8 s'
      else byte_of_Z (Z.lor 192 (Z.shiftr n 6))
             :: byte_of_Z (Z.lor 128 (Z.land n 63)) :: encode_utf8 s'
  end.

End PyText.
Import PyText.

(** ** [hashlib.md5(b).digest()] (RFC 1321) *)

Module MD5.

Definition w32 (x : Z) : Z := x mod 4294967296.

Definition rotl32 (x c : Z) : Z :=
  w32 (Z.lor (Z.shiftl x c) (Z.shiftr x (32 - c))).

Definition not32 (x : Z) : Z := Z.lxor x 4294967295.

Definition K : list Z :=
  [ 3614090360; 3905402710; 606105819; 3250441966; 4118548399; 1200080426;
    2821735955; 4249261313; 1770035416; 2336552879; 4294925233; 2304563134;
    1804603682; 4254626195; 2792965006; 1236535329; 4129170786; 3225465664;
    643717713; 3921069994; 3593408605; 38016083; 3634488961; 3889429448;
    568446438; 3275163606; 4107603335; 1163531501; 2850285829; 4243563512;
    1735328473; 2368359562; 4294588738; 2272392833; 1839030562; 4259657740;
    2763975236; 1272893353; 4139469664; 3200236656; 681279174; 3936430074;
    3572445317; 76029189; 3654602809; 3873151461; 530742520; 3299628645;
    4096336452; 1126891415; 2878612391; 4237533241; 1700485571; 2399980690;
    4293915773; 2240044497; 1873313359; 4264355552; 2734768916; 1309151649;
    4149444226; 3174756917; 718787259; 3951481745 ].

Definition S : list Z :=
  [ 7; 12; 17; 22; 7; 12; 17; 22; 7; 12; 17; 22; 7; 12; 17; 22;
    5; 9; 14; 20; 5; 9; 14; 20; 5; 9; 14; 20; 5; 9; 14; 20;
    4; 11; 16; 23; 4; 11; 16; 23; 4; 11; 16; 23; 4; 11; 16; 23;
    6; 10; 15; 21; 6; 10; 15; 21; 6; 10; 15; 21; 6; 10; 15; 21 ].

Record regs : Type := Regs { rA : Z; rB : Z; rC : Z; rD : Z }.

Definition init : regs := Regs 1732584193 4023233417 2562383102 271733878.

(** One of the 64 operations on the block [M] of sixteen words. *)
Definition round (M : list Z) (r : regs) (i : nat) : regs :=
  let '(Regs a b c d) := r in
  let iz := Z.of_nat i in
  let '(f, g) :=
    if iz <? 16 then (Z.lor (Z.land b c) (Z.land (not32 b) d), iz)
    else if iz <? 32 then (Z.lor (Z.land d b) (Z.land (not32 d) c), (5 * iz + 1) mod 16)
    else if iz <? 48 then (Z.lxor b (Z.lxor c d), (3 * iz + 5) mod 16)
    else (Z.lxor c (Z.lor b (not32 d)), (7 * iz) mod 16) in
  let f' := w32 (f + a + nth i K 0 + nth (Z.to_nat g) M 0) in
  Regs d (w32 (b + rotl32 f' (nth i S 0))) b c.

Definition block (r : regs) (M : list Z) : regs :=
  let r' := fold_left (round M) (seq 0 64) r in
  Regs (w32 (rA r + rA r')) (w32 (rB r + rB r'))
       (w32 (rC r + rC r')) (w32 (rD r + rD r')).

Definition le_bytes (n : nat) (x : Z) : list Z :=
  map (fun i => Z.shiftr x (8 * Z.of_nat i) mod 256) (seq 0 n).

(** The message, a one bit, zero bits up to 56 modulo 64 bytes, and the
    bit length on 64 bits, least significant byte first. *)
Definition pad (msg : list Z) : list Z :=
  let len := Z.of_nat (List.length msg) in
  let zeros := Z.to_nat ((55 - len) mod 64) in
  msg ++ 128 :: repeat 0 zeros ++ le_bytes 8 ((8 * len) mod 18446744073709551616).

Fixpoint words (bs : list Z) : list Z :=
  match bs with
  | b0 :: b1 :: b2 :: b3 :: rest =>
      (b0 + 256 * b1 + 65536 * b2 + 16777216 * b3) :: words rest
  | _ => []
  end.

Fixpoint blocks (fuel : nat) (r : regs) (ws : list Z) : regs :=
  match fuel, ws with
  | Datatypes.S fuel', _ :: _ => blocks fuel' (block r (firstn 16 ws)) (skipn 16 ws)
  | _, _ => r
  end.

Definition md5 (msg : list byte) : list byte :=
  let ws := words (pad (map (fun b => Z.of_N (Byte.to_N b)) msg)) in
  let r := blocks (List.length ws) init ws in
  map byte_of_Z (le_bytes 4 (rA r) ++ le_bytes 4 (rB r)
                   ++ le_bytes 4 (rC r) ++ le_bytes 4 (rD r)).

End MD5.

(** ** Python dicts: insertion-ordered, one entry per key *)

Section Dict.
Variables (K V : Type) (eqb : K -> K -> bool).

Definition dict : Type := list (K * V).

(** [d.get(k)] *)
Fixpoint dict_get (d : dict) (k : K) : option V :=
  match d with
  | [] => None
  | (k', v) :: d' => if eqb k k' then Some v else dict_get d' k
  end.

(** [k in d] *)
Definition dict_has (d : dict) (k : K) : bool :=
  match dict_get d k with Some _ => true | None => false end.

(** [d[k] = v]: an existing key keeps its place, a new key goes last. *)
Fixpoint dict_set (d : dict) (k : K) (v : V) : dict :=
  match d with
  | [] => [(k, v)]
  | (k', v') :: d' => if eqb k k' then (k', v) :: d' else (k', v') :: dict_set d' k v
  end.

(** [dict(pairs)] and the dict comprehension [{k: v for k, v in pairs}] *)
Definition dict_of (pairs : list (K * V)) : dict :=
  fold_left (fun d kv => dict_set d (fst kv) (snd kv)) pairs [].

Definition keys (d : dict) : list K := map fst d.
End Dict.

Arguments dict_get {K V} eqb d k.
Arguments dict_has {K V} eqb d k.
Arguments dict_set {K V} eqb d k v.
Arguments dict_of {K V} eqb pairs.
Arguments keys {K V} d.

(** A row as a dict from column name to value, and a snapshot of rows by id. *)
Definition record : Type := dict string pyval.
Definition snapshot : Type := dict pykey record.

Definition rget (r : record) (f : string) : option pyval := dict_get String.eqb r f.
Definition rset (r : record) (f : string) (v : pyval) : record := dict_set String.eqb r f v.

(** ** Exceptions, results, the logger *)

Inductive exn : Type :=
| KeyError (k : string)
| SystemExit (status : Z).

Inductive result (A : Type) : Type :=
| Return (a : A)
| Raise (e : exn).
Arguments Return {A} a.
Arguments Raise {A} e.

Inductive level : Type := DEBUG | INFO | ERROR | CRITICAL.

Definition logrecord : Type := (level * string)%type.

(** [isinstance(v, str) and v.lower() == 'none'] *)
Definition is_none_text (v : pyval) : bool :=
  match v with
  | PyStr s => String.eqb (lower s) "none"
  | _ => false
  end.

(** ** The fingerprint: sort the items, print the dict, encode, hash *)

Fixpoint insert_item (x : string * pyval) (l : list (string * pyval)) : list (string * pyval) :=
  match l with
  | [] => [x]
  | y :: l' => if String.leb (fst x) (fst y) then x :: l else y :: insert_item x l'
  end.

(** [sorted(d.items())]: the keys of a dict are distinct, so the order of the
    pairs is the order of their names. *)
Definition sorted (items : list (string * pyval)) : list (string * pyval) :=
  fold_right insert_item [] items.

Definition str_item (kv : string * pyval) : string :=
  repr_str (fst kv) ++ ": " ++ py_repr (snd kv).

(** [str(d)] *)
Definition str_dict (d : record) : string :=
  "{" ++ String.concat ", " (map str_item d) ++ "}".

(** [sdict = {k:v for k,v in sorted(d.items())}; strdict = str(sdict).encode('UTF-8')] *)
Definition strdict (d : record) : list byte :=
  encode_utf8 (str_dict (dict_of String.eqb (sorted d))).

Definition digest (d : record) : list byte := MD5.md5 (strdict d).

Definition bytes_eqb (a b : list byte) : bool :=
  if list_eq_dec Byte.byte_eq_dec a b then true else false.

(** ** Retrieve_Source *)

(** What [cursor.execute(sql)] does: raise a [psycopg2.Error] with [pgcode] and
    [pgerror], or make the column names and the rows available. *)
Inductive query_result : Type :=
| QueryError (pgcode pgerror : pyval)
| QueryRows (description : list string) (rows : list (list pyval)).

Definition cursor : Type := string -> query_result.

(** The body of the loop over [cursor.fetchall()]. *)
Definition source_row (COLS : list string) (DATA : snapshot) (row : list pyval)
  : result snapshot :=
  let rowdict := dict_of String.eqb (combine COLS row) in
  match rget rowdict "field_of_science_id" with
  | None => Raise (KeyError "field_of_science_id")
  | Some idv =>
      let key := key_of idv in
      let DATA := dict_set pykey_eqb DATA key rowdict in
      match rget rowdict "fos_nsf_abbrev" with
      | None => Raise (KeyError "fos_nsf_abbrev")
      | Some na =>
          if is_none_text na
          then Return (dict_set pykey_eqb DATA key (rset rowdict "fos_nsf_abbrev" PyNone))
          else Return DATA
      end
  end.

Fixpoint source_rows (COLS : list string) (DATA : snapshot) (rows : list (list pyval))
  : result snapshot :=
  match rows with
  | [] => Return DATA
  | row :: rows' =>
      match source_row COLS DATA row with
      | Return DATA' => source_rows COLS DATA' rows'
      | Raise e => Raise e
      end
  end.

Definition sql : string := "SELECT * from info_services.fos".

(** ["Failed '{}' with {}: {}".format(sql, e.pgcode, e.pgerror)] *)
Definition query_failed (sql : string) (pgcode pgerror : pyval) : string :=
  "Failed '" ++ sql ++ "' with " ++ py_str pgcode ++ ": " ++ py_str pgerror.

Definition Retrieve_Source (cur : cursor) (log : list logrecord)
  : result snapshot * list logrecord :=
  match cur sql with
  | QueryError pgcode pgerror =>
      (Raise (SystemExit 1),
       (log ++ [(ERROR, query_failed sql pgcode pgerror)])%list)
  | QueryRows COLS rows => (source_rows COLS [] rows, log)
  end.

(** ** The destination table *)

(** Modelled from the spec: the destination collaborator.  The Django model
    [xdcdb.models.XSEDEFos] and its manager are not part of this repository;
    the spec (section 6) gives it as a record store with enumerate-all,
    upsert-by-id on the fixed field set, delete-by-id, and data and integrity
    failures as distinguishable error kinds.  A row holds the values it was
    given, [field_of_science_id] is the primary key, and [model_to_dict] lists
    the six fields in the order [update_or_create] names them. *)
Record XSEDEFos : Type := mkFos {
  field_of_science_id : pyval;
  parent_field_of_science_id : pyval;
  field_of_science_desc : pyval;
  fos_nsf_id : pyval;
  fos_nsf_abbrev : pyval;
  is_active : pyval
}.

Definition model_to_dict (item : XSEDEFos) : record :=
  [ ("field_of_science_id", field_of_science_id item);
    ("parent_field_of_science_id", parent_field_of_science_id item);
    ("field_of_science_desc", field_of_science_desc item);
    ("fos_nsf_id", fos_nsf_id item);
    ("fos_nsf_abbrev", fos_nsf_abbrev item);
    ("is_active", is_active item) ].

Definition pk (item : XSEDEFos) : pykey := key_of (field_of_science_id item).

Definition table : Type := list XSEDEFos.

Fixpoint tbl_find (t : table) (k : pykey) : option XSEDEFos :=
  match t with
  | [] => None
  | item :: t' => if pykey_eqb k (pk item) then Some item else tbl_find t' k
  end.

Fixpoint tbl_put (t : table) (row : XSEDEFos) : table :=
  match t with
  | [] => [row]
  | item :: t' => if pykey_eqb (pk row) (pk item) then row :: t' else item :: tbl_put t' row
  end.

Definition tbl_del (t : table) (k : pykey) : table :=
  filter (fun item => negb (pykey_eqb k (pk item))) t.

(** [django.db.DataError] and [django.db.IntegrityError], with [str(e)]. *)
Inductive errkind : Type := DataError | IntegrityError.

Record db_error : Type := mkErr { err_kind : errkind; err_text : string }.

(** [type(e).__name__] *)
Definition type_name (k : errkind) : string :=
  match k with
  | DataError => "DataError"
  | IntegrityError => "IntegrityError"
  end.

(** The writes the destination has accepted, oldest first. *)
Inductive dbop : Type :=
| Saved (row : XSEDEFos)
| Deleted (row : XSEDEFos).

(** The table, and the part of [self] that [Store_Destination] reads or writes:
    the three counters ([run] sets them to zero before the call) and the
    logger.  [self.new] and [self.curstring] are written and never read. *)
Record state : Type := mkState {
  objects : table;
  journal : list dbop;
  MyUpdateStat : Z;
  MyDeleteStat : Z;
  MySkipStat : Z;
  logger : list logrecord
}.

Definition log (lv : level) (msg : string) (st : state) : state :=
  mkState (objects st) (journal st) (MyUpdateStat st) (MyDeleteStat st) (MySkipStat st)
          (logger st ++ [(lv, msg)]).

Definition MyName : string := "FOS".

(** ** Store_Destination *)

(** [self.cur] and [self.curdigest] *)
Record loaded : Type := mkLoaded {
  cur : dict pykey XSEDEFos;
  curdigest : dict pykey (list byte)
}.

(** The loop over [xdict] that turns each text "none" into None. *)
Definition normalize (xdict : record) : record :=
  fold_left (fun d i => match rget d i with
                        | Some v => if is_none_text v then rset d i PyNone else d
                        | None => d
                        end) (keys xdict) xdict.

Definition load_item (ld : loaded) (item : XSEDEFos) : loaded :=
  let id := pk item in
  mkLoaded (dict_set pykey_eqb (cur ld) id item)
           (dict_set pykey_eqb (curdigest ld) id (digest (normalize (model_to_dict item)))).

Definition load_objects (t : table) : loaded :=
  fold_left load_item t (mkLoaded [] []).

(** [hashlib.md5(strdict).digest() == self.curdigest.get(new_id, '')]: the
    default is a str, which no bytes value equals. *)
Definition digest_matches (d : list byte) (stored : option (list byte)) : bool :=
  match stored with
  | Some d' => bytes_eqb d d'
  | None => false
  end.

Definition item_of (nitem : record) (f : string) : result pyval :=
  match rget nitem f with
  | Some v => Return v
  | None => Raise (KeyError f)
  end.

Definition bind {A B : Type} (r : result A) (k : A -> result B) : result B :=
  match r with
  | Return a => k a
  | Raise e => Raise e
  end.

Notation "x <- r ;; k" := (bind r (fun x => k))
  (at level 61, r at next level, right associativity).

(** The arguments of [update_or_create], evaluated left to right. *)
Definition upsert_args (nitem : record) : result XSEDEFos :=
  id <- item_of nitem "field_of_science_id" ;;
  parent <- item_of nitem "parent_field_of_science_id" ;;
  desc <- item_of nitem "field_of_science_desc" ;;
  nsf_id <- item_of nitem "fos_nsf_id" ;;
  abbrev <- item_of nitem "fos_nsf_abbrev" ;;
  active <- item_of nitem "is_active" ;;
  Return (mkFos id parent (PyStr (py_str desc)) nsf_id
                (PyStr (py_str abbrev)) (PyStr (py_str active))).

(** The row [update_or_create] is about to save: the row found under the key
    with the defaults set on it, or a new row. *)
Definition updated_or_created (t : table) (args : XSEDEFos) : XSEDEFos :=
  match tbl_find t (pk args) with
  | Some item =>
      mkFos (field_of_science_id item) (parent_field_of_science_id args)
            (field_of_science_desc args) (fos_nsf_id args) (fos_nsf_abbrev args)
            (is_active args)
  | None => args
  end.

(** ['{} saving ID={}: {}'.format(type(e).__name__, nitem['field_of_science_id'], str(e))] *)
Definition saving_msg (e : db_error) (id : pyval) : string :=
  type_name (err_kind e) ++ " saving ID=" ++ py_str id ++ ": " ++ err_text e.

Definition deleting_msg (e : db_error) (id : pyval) : string :=
  type_name (err_kind e) ++ " deleting ID=" ++ py_str id ++ ": " ++ err_text e.

Definition save_msg (id : pyval) : string :=
  "FOS save field_of_science_id=" ++ py_str id.

Definition delete_msg (id : pyval) : string :=
  MyName ++ " delete field_of_science_id=" ++ py_str id.

Inductive flow : Type :=
| Continue (st : state)
| Stop (r : result (bool * string)) (st : state).

Section Destination.

(** What the destination rejects: the error a save or a delete of a row
    raises, if any. *)
Variable save_error : XSEDEFos -> option db_error.
Variable delete_error : XSEDEFos -> option db_error.

(** [model.save()], also the save inside [update_or_create]. *)
Definition save (model : XSEDEFos) (st : state) : option db_error * state :=
  match save_error model with
  | Some e => (Some e, st)
  | None =>
      (None, mkState (tbl_put (objects st) model) (journal st ++ [Saved model])
                     (MyUpdateStat st) (MyDeleteStat st) (MySkipStat st) (logger st))
  end.

(** [item.delete()] *)
Definition delete (item : XSEDEFos) (st : state) : option db_error * state :=
  match delete_error item with
  | Some e => (Some e, st)
  | None =>
      (None, mkState (tbl_del (objects st) (pk item)) (journal st ++ [Deleted item])
                     (MyUpdateStat st) (MyDeleteStat st) (MySkipStat st) (logger st))
  end.

Definition save_failed (e : db_error) (id : pyval) (st : state) : flow :=
  let msg := saving_msg e id in
  Stop (Return (false, msg)) (log ERROR msg st).

(** The body of the loop over [new_items]. *)
Definition upsert_item (ld : loaded) (st : state) (new_id : pykey) (nitem : record) : flow :=
  if digest_matches (digest nitem) (dict_get pykey_eqb (curdigest ld) new_id)
  then Continue (mkState (objects st) (journal st) (MyUpdateStat st) (MyDeleteStat st)
                         (MySkipStat st + 1) (logger st))
  else
    match upsert_args nitem with
    | Raise e => Stop (Raise e) st
    | Return args =>
        let id := field_of_science_id args in
        let model := updated_or_created (objects st) args in
        match save model st with
        | (Some e, st1) => save_failed e id st1
        | (None, st1) =>
            match save model st1 with
            | (Some e, st2) => save_failed e id st2
            | (None, st2) =>
                let st3 := log DEBUG (save_msg id) st2 in
                Continue (mkState (objects st3) (journal st3) (MyUpdateStat st3 + 1)
                                  (MyDeleteStat st3) (MySkipStat st3) (logger st3))
            end
        end
    end.

Fixpoint upsert_loop (ld : loaded) (st : state) (new_items : snapshot) : flow :=
  match new_items with
  | [] => Continue st
  | (new_id, nitem) :: rest =>
      match upsert_item ld st new_id nitem with
      | Continue st' => upsert_loop ld st' rest
      | Stop r st' => Stop r st'
      end
  end.

(** The instance once [delete()] has returned: Django sets the primary key
    of a deleted instance to None.  When [delete()] raises, the instance is
    as it was. *)
Definition deleted_instance (item : XSEDEFos) : XSEDEFos :=
  mkFos PyNone (parent_field_of_science_id item) (field_of_science_desc item)
        (fos_nsf_id item) (fos_nsf_abbrev item) (is_active item).

(** The body of the loop over [self.cur].  The INFO record is written after
    the deletion and reads the id from the instance then. *)
Definition delete_item (new_items : snapshot) (st : state) (cur_id : pykey)
           (item : XSEDEFos) : state :=
  if dict_has pykey_eqb new_items cur_id then st
  else
    match delete item st with
    | (None, st1) =>
        log INFO (delete_msg (field_of_science_id (deleted_instance item)))
            (mkState (objects st1) (journal st1) (MyUpdateStat st1) (MyDeleteStat st1 + 1)
                     (MySkipStat st1) (logger st1))
    | (Some e, st1) => log ERROR (deleting_msg e (field_of_science_id item)) st1
    end.

Definition delete_loop (new_items : snapshot) (c : dict pykey XSEDEFos) (st : state) : state :=
  fold_left (fun st' ki => delete_item new_items st' (fst ki) (snd ki)) c st.

Definition Store_Destination (new_items : snapshot) (st : state)
  : result (bool * string) * state :=
  let ld := load_objects (objects st) in
  match upsert_loop ld st new_items with
  | Stop r st' => (r, st')
  | Continue st' => (Return (true, ""), delete_loop new_items (cur ld) st')
  end.

End Destination.

Local Open Scope list_scope.

(** * Vocabulary of the statements *)

(** [dict(zip(COLS, row))], the id it is filed under, and the record
    [Retrieve_Source] keeps for it. *)
Definition row_dict (COLS : list string) (row : list pyval) : record :=
  dict_of String.eqb (combine COLS row).

Definition row_id (COLS : list string) (row : list pyval) : option pykey :=
  option_map key_of (rget (row_dict COLS row) "field_of_science_id").

Definition source_record (COLS : list string) (row : list pyval) : record :=
  let d := row_dict COLS row in
  match rget d "fos_nsf_abbrev" with
  | Some na => if is_none_text na then rset d "fos_nsf_abbrev" PyNone else d
  | None => d
  end.

Definition option_key_dec (a b : option pykey) : {a = b} + {a <> b}.
Proof. decide equality. apply pykey_eq_dec. Defined.

(** The last row filed under [k], if any. *)
Fixpoint last_row (COLS : list string) (k : pykey) (rows : list (list pyval))
  : option (list pyval) :=
  match rows with
  | [] => None
  | row :: rows' =>
      match last_row COLS k rows' with
      | Some r => Some r
      | None => if option_key_dec (row_id COLS row) (Some k) then Some row else None
      end
  end.

(** The order of [sorted] on names: code point by code point. *)
Definition slt (a b : string) : Prop := String.compare a b = Lt.

(** The names go up strictly along the list. *)
Inductive sorted_by_name : list (string * pyval) -> Prop :=
| sorted_nil : sorted_by_name []
| sorted_cons kv l :
    Forall (fun x => slt (fst kv) (fst x)) l -> sorted_by_name l ->
    sorted_by_name (kv :: l).

(** The fingerprint [Store_Destination] keeps for a destination row. *)
Definition fingerprint (item : XSEDEFos) : list byte :=
  digest (normalize (model_to_dict item)).

(** What the loop over [xdict] makes of one value. *)
Definition norm (v : pyval) : pyval := if is_none_text v then PyNone else v.

Definition norm_item (kv : string * pyval) : string * pyval := (fst kv, norm (snd kv)).

(** The test that makes [Store_Destination] skip a record. *)
Definition skipped (ld : loaded) (new_id : pykey) (nitem : record) : bool :=
  digest_matches (digest nitem) (dict_get pykey_eqb (curdigest ld) new_id).

Definition skipped_entry (ld : loaded) (e : pykey * record) : bool :=
  skipped ld (fst e) (snd e).

(** The row [row] holds what [Store_Destination] writes for the record
    [nitem]: its id, its parent and NSF ids, and the [str()] of its
    description, abbreviation and active flag. *)
Definition carries (nitem : record) (row : XSEDEFos) : Prop :=
  exists id parent desc nsf_id abbrev active,
    rget nitem "field_of_science_id" = Some id
    /\ rget nitem "parent_field_of_science_id" = Some parent
    /\ rget nitem "field_of_science_desc" = Some desc
    /\ rget nitem "fos_nsf_id" = Some nsf_id
    /\ rget nitem "fos_nsf_abbrev" = Some abbrev
    /\ rget nitem "is_active" = Some active
    /\ pk row = key_of id
    /\ parent_field_of_science_id row = parent
    /\ field_of_science_desc row = PyStr (py_str desc)
    /\ fos_nsf_id row = nsf_id
    /\ fos_nsf_abbrev row = PyStr (py_str abbrev)
    /\ is_active row = PyStr (py_str active).

(** Each record is filed under its own id. *)
Definition filed_under_id (new_items : snapshot) : Prop :=
  forall k r, In (k, r) new_items ->
              option_map key_of (rget r "field_of_science_id") = Some k.

Definition is_bool (v : pyval) : bool :=
  match v with PyBool _ => true | _ => false end.

(** A record that comes back as it is from the destination: written with
    [update_or_create] and read with [model_to_dict] and the normalisation, it
    is the same mapping. *)
Definition stable (r : record) : Prop :=
  NoDup (keys r)
  /\ exists args, upsert_args r = Return args
                  /\ is_bool (field_of_science_id args) = false
                  /\ forall f, rget r f = rget (normalize (model_to_dict args)) f.

(** The rows of the table that [Store_Destination] deletes: those whose id is
    not in the snapshot and whose deletion the destination accepts. *)
Definition deletable (delete_error : XSEDEFos -> option db_error) (new_items : snapshot)
           (item : XSEDEFos) : bool :=
  negb (dict_has pykey_eqb new_items (pk item))
  && match delete_error item with None => true | Some _ => false end.

(** What the loop over [self.cur] logs for one row. *)
Definition delete_log (delete_error : XSEDEFos -> option db_error) (new_items : snapshot)
           (item : XSEDEFos) : list logrecord :=
  if dict_has pykey_eqb new_items (pk item) then []
  else match delete_error item with
       | None => [(INFO, delete_msg PyNone)]
       | Some e => [(ERROR, deleting_msg e (field_of_science_id item))]
       end.

Definition flow_state (f : flow) : state :=
  match f with
  | Continue st => st
  | Stop _ st => st
  end.

(** The state after a skip, and after the two saves of an upsert. *)
Definition skip_state (st : state) : state :=
  mkState (objects st) (journal st) (MyUpdateStat st) (MyDeleteStat st)
          (MySkipStat st + 1) (logger st).

Definition saved_state (model : XSEDEFos) (id : pyval) (st : state) : state :=
  mkState (tbl_put (objects st) model) (journal st ++ [Saved model; Saved model])
          (MyUpdateStat st + 1) (MyDeleteStat st) (MySkipStat st)
          (logger st ++ [(DEBUG, save_msg id)]).

(** The table without the rows [items]. *)
Definition del_rows (tb : table) (items : list XSEDEFos) : table :=
  fold_left (fun tb item => tbl_del tb (pk item)) items tb.

(** A value that [str()] and the normalisation give back: null, or a text
    other than "none". *)
Definition text_or_null (v : pyval) : Prop :=
  match v with
  | PyNone => True
  | PyStr s => is_none_text (PyStr s) = false
  | _ => False
  end.

(** ** Sample data *)

Module Sample.

(** A source record with the six columns of the model. *)
Definition fos (id : Z) (desc abbrev active : pyval) : record :=
  [ ("field_of_science_id", PyInt id);
    ("parent_field_of_science_id", PyNone);
    ("field_of_science_desc", desc);
    ("fos_nsf_id", PyNone);
    ("fos_nsf_abbrev", abbrev);
    ("is_active", active) ].

(** The row [Store_Destination] writes for [fos id (PyStr desc) ...]. *)
Definition row (id : Z) (desc abbrev active : string) : XSEDEFos :=
  mkFos (PyInt id) PyNone (PyStr desc) PyNone (PyStr abbrev) (PyStr active).

Definition physics : record := fos 1 (PyStr "Physics") PyNone (PyStr "1").
Definition chemistry : record := fos 2 (PyStr "Chemistry") (PyStr "CHE") (PyStr "1").
Definition biology : record := fos 3 (PyStr "Biology") (PyStr "BIO") (PyBool true).

(** A record whose description is the text None. *)
Definition unnamed : record := fos 1 (PyStr "None") PyNone (PyStr "1").

Definition physics_row : XSEDEFos := row 1 "Physics" "None" "1".
Definition chemistry_row : XSEDEFos := row 2 "Chemistry" "CHE" "1".
Definition biology_row : XSEDEFos := row 3 "Biology" "BIO" "True".

(** A destination that accepts every write, one that rejects the saves of
    the row with id 2, and one that rejects its deletion. *)
Definition accept (item : XSEDEFos) : option db_error := None.

Definition too_long : db_error := mkErr DataError "value too long".
Definition referenced : db_error := mkErr IntegrityError "row is referenced".

Definition reject_save_2 (item : XSEDEFos) : option db_error :=
  if pykey_eqb (pk item) (KInt 2) then Some too_long else None.

Definition reject_delete_2 (item : XSEDEFos) : option db_error :=
  if pykey_eqb (pk item) (KInt 2) then Some referenced else None.

(** The state as [run] sets it before the call, on a given table. *)
Definition start (t : table) : state := mkState t [] 0 0 0 [].

Definition one_item : snapshot := [(KInt 1, physics)].
Definition three_items : snapshot :=
  [(KInt 1, physics); (KInt 2, chemistry); (KInt 3, biology)].
Definition three_rows_table : table := [physics_row; chemistry_row; biology_row].

(** The state when the save of the second of the three records is
    rejected, and the arguments of that save. *)
Definition after_physics : state :=
  Eval vm_compute in
    flow_state (upsert_loop reject_save_2 (load_objects []) (start []) one_item).

(** A row whose id no source record carries. *)
Definition obsolete_row : XSEDEFos := row 9 "Alchemy" "ALC" "0".

(** Runs: the save of the second record rejected; the deletion of row 2
    rejected; twice the record whose description is the text None. *)
Definition failed_run : result (bool * string) * state :=
  Store_Destination reject_save_2 accept three_items (start [obsolete_row]).

Definition run_with_failed_delete : result (bool * string) * state :=
  Store_Destination accept reject_delete_2 one_item (start three_rows_table).

Definition first_unnamed : result (bool * string) * state :=
  Store_Destination accept accept [(KInt 1, unnamed)] (start []).

Definition second_unnamed : result (bool * string) * state :=
  Store_Destination accept accept [(KInt 1, unnamed)]
                    (start (objects (snd first_unnamed))).

Definition first_physics : result (bool * string) * state :=
  Store_Destination accept accept one_item (start [chemistry_row]).

(** A cursor on three rows, two of them with the id 1. *)
Definition COLS : list string := ["field_of_science_id"; "fos_nsf_abbrev"].

Definition rows : list (list pyval) :=
  [ [PyInt 1; PyStr "NoNe"]; [PyInt 2; PyStr "a"]; [PyInt 1; PyStr "b"] ].

Definition three_rows : cursor := fun _ => QueryRows COLS rows.

Definition three_rows_snapshot : snapshot :=
  [ (KInt 1, [("field_of_science_id", PyInt 1); ("fos_nsf_abbrev", PyStr "b")]);
    (KInt 2, [("field_of_science_id", PyInt 2); ("fos_nsf_abbrev", PyStr "a")]) ].

(** A cursor on one row of the six columns whose description and
    abbreviation are the text None. *)
Definition COLS6 : list string :=
  [ "field_of_science_id"; "parent_field_of_science_id"; "field_of_science_desc";
    "fos_nsf_id"; "fos_nsf_abbrev"; "is_active" ].

Definition unnamed_row : cursor :=
  fun _ => QueryRows COLS6 [[PyInt 1; PyNone; PyStr "None"; PyNone; PyStr "NONE"; PyStr "1"]].

End Sample.

(** * More vocabulary *)

(** The fields [Store_Destination] reads from a record, in the order in which
    the call of [update_or_create] reads them, and the first of them that a
    record lacks. *)
Definition upsert_fields : list string :=
  [ "field_of_science_id"; "parent_field_of_science_id"; "field_of_science_desc";
    "fos_nsf_id"; "fos_nsf_abbrev"; "is_active" ].

Definition first_missing (nitem : record) : option string :=
  find (fun f => match rget nitem f with None => true | Some _ => false end) upsert_fields.

(** The column of a row that [Retrieve_Source] looks up and does not find. *)
Definition row_fault (COLS : list string) (row : list pyval) : option string :=
  match rget (row_dict COLS row) "field_of_science_id" with
  | None => Some "field_of_science_id"
  | Some _ =>
      match rget (row_dict COLS row) "fos_nsf_abbrev" with
      | None => Some "fos_nsf_abbrev"
      | Some _ => None
      end
  end.

(** The keys of a list, each at its first occurrence. *)
Fixpoint first_seen (l : list pykey) : list pykey :=
  match l with
  | [] => []
  | k :: l' => k :: filter (fun k' => negb (pykey_eqb k' k)) (first_seen l')
  end.

(** * The rest of the script *)

(** ** [str.find] and slices *)

(** [s.find(c)] for a text [c] of one character: the index of its first
    occurrence, or -1. *)
Fixpoint find_char (c : ascii) (s : string) : Z :=
  match s with
  | EmptyString => -1
  | String d s' =>
      if Ascii.eqb d c then 0
      else let i := find_char c s' in if i <? 0 then -1 else i + 1
  end.

(** An index of a slice brought into [0 .. len], as Python does. *)
Definition clamp (len i : Z) : Z :=
  if i <? 0 then Z.max 0 (len + i) else Z.min i len.

(** [s[lo:hi]], and [s[lo:]] when [hi] is [None]. *)
Definition slice (lo : Z) (hi : option Z) (s : string) : string :=
  let len := Z.of_nat (String.length s) in
  let a := clamp len lo in
  let b := match hi with Some h => clamp len h | None => len end in
  substring (Z.to_nat a) (Z.to_nat (b - a)) s.

(** [x in l] for a list of texts. *)
Definition mem (x : string) (l : list string) : bool := existsb (String.eqb x) l.

(** The truth value of a Python value. *)
Definition py_truth (v : pyval) : bool :=
  match v with
  | PyNone => false
  | PyBool b => b
  | PyInt z => negb (z =? 0)
  | PyStr s => negb (String.eqb s "")
  end.

(** ** Exceptions and the monad of the methods *)

(** What the methods below raise: the exceptions of [exn], a [TypeError]
    (None sliced or measured), an [AttributeError] (a value that is no str
    asked for [find]) and the error of [psycopg2.connect]. *)
Inductive pyexc : Type :=
| Base (e : exn)
| TypeError
| AttributeError
| OperationalError (text : string).

Inductive outcome (A : Type) : Type :=
| Ok (a : A)
| Err (e : pyexc).
Arguments Ok {A} a.
Arguments Err {A} e.

(** A method on a part [S] of the program's state: it returns or raises,
    and leaves a state in both cases. *)
Definition M (S A : Type) : Type := S -> outcome A * S.

Definition ret {S A : Type} (a : A) : M S A := fun s => (Ok a, s).

Definition raise {S A : Type} (e : pyexc) : M S A := fun s => (Err e, s).

Definition bindM {S A B : Type} (m : M S A) (k : A -> M S B) : M S B :=
  fun s => match m s with
           | (Ok a, s') => k a s'
           | (Err e, s') => (Err e, s')
           end.

Notation "x <-- m ;; k" := (bindM m (fun x => k))
  (at level 61, m at next level, right associativity).
Notation "m ;;; k" := (bindM m (fun _ => k))
  (at level 61, right associativity).

(** [sys.exit(status)] *)
Definition sys_exit {S A : Type} (status : Z) : M S A := raise (Base (SystemExit status)).

(** A method of a part of the state, run on the whole. *)
Definition zoom {S T A : Type} (get : T -> S) (set : S -> T -> T) (m : M S A) : M T A :=
  fun t => let (r, s') := m (get t) in (r, set s' t).

Definition of_result {A : Type} (r : result A) : outcome A :=
  match r with
  | Return a => Ok a
  | Raise e => Err (Base e)
  end.

(** [self.logger.error(msg)] and [self.logger.info(msg)] *)
Definition logger_error (msg : string) : M (list logrecord) unit :=
  fun lg => (Ok tt, lg ++ [(ERROR, msg)]).

Definition logger_info (msg : string) : M (list logrecord) unit :=
  fun lg => (Ok tt, lg ++ [(INFO, msg)]).

(** [v.find(...)] is there for a str only. *)
Definition as_str {S : Type} (v : pyval) : M S string :=
  match v with
  | PyStr s => ret s
  | _ => raise AttributeError
  end.

(** [p[0:2]] and [len(p)] raise [TypeError] when [p] is None. *)
Definition not_None {S : Type} (p : option string) : M S string :=
  match p with
  | Some s => ret s
  | None => raise TypeError
  end.

(** ** The source and destination arguments of [__init__] *)

(** The configuration file, a JSON object: its keys and values (None, a
    bool, an int or a str). *)
Definition config_t : Type := dict string pyval.

(** [self.src] and [self.dest]: three entries, each None or a str. *)
Record endpoint : Type := mkEndpoint {
  uri : option string;
  scheme : option string;
  path : option string
}.

(** [self.args.<name>] after the two statements that default it: the
    argument of the command line unless it is None or empty, then the value
    of the configuration if it has the key, then the default if what is
    there is still false. *)
Definition defaulted (arg : option string) (config : config_t) (key default : string)
  : pyval :=
  let a := match arg with Some s => PyStr s | None => PyNone end in
  let a := if py_truth a then a
           else match dict_get String.eqb config key with
                | Some v => v
                | None => a
                end in
  if py_truth a then a else PyStr default.

(** The text before the first colon and the text after it, when there is a
    colon beyond the first character. *)
Definition split_scheme (s : string) : string * option string :=
  let idx := find_char ":" s in
  if 0 <? idx then (slice 0 (Some idx) s, Some (slice (idx + 1) None s))
  else (s, None).

Definition not_followed : string :=
  "Source URL not followed by " ++ String dquote ("//" ++ String dquote "").

(** Lines 96 to 118 of [__init__]: [self.src]. *)
Definition init_src (arg : option string) (config : config_t)
  : M (list logrecord) endpoint :=
  s <-- as_str (defaulted arg config "SOURCE_URL" "postgresql://localhost:5432/") ;;
  let sp := split_scheme s in
  (if mem (fst sp) ["file"; "http"; "https"; "postgresql"] then ret tt
   else logger_error "Source not {file, http, https}" ;;; sys_exit 1) ;;;
  p <-- (if mem (fst sp) ["http"; "https"; "postgresql"]
         then p <-- not_None (snd sp) ;;
              (if String.eqb (slice 0 (Some 2) p) "//" then ret tt
               else logger_error not_followed ;;; sys_exit 1) ;;;
              ret (Some (slice 2 None p))
         else ret (snd sp)) ;;
  p <-- not_None p ;;
  (if Z.of_nat (String.length p) <? 1
   then logger_error "Source is missing a database name" ;;; sys_exit 1
   else ret tt) ;;;
  ret (mkEndpoint (Some s) (Some (fst sp)) (Some p)).

(** Lines 120 to 134 of [__init__]: [self.dest]. *)
Definition init_dest (arg : option string) (config : config_t)
  : M (list logrecord) endpoint :=
  s <-- as_str (defaulted arg config "DESTINATION" "analyze") ;;
  let sp := split_scheme s in
  (if mem (fst sp) ["file"; "analyze"; "warehouse"] then ret tt
   else logger_error "Destination not {file, analyze, warehouse}" ;;; sys_exit 1) ;;;
  ret (mkEndpoint (Some s) (Some (fst sp)) (snd sp)).

Definition is_file (e : endpoint) : bool :=
  match scheme e with
  | Some s => mem s ["file"]
  | None => false
  end.

(** Lines 89 to 139 of [__init__]: [self.src] and [self.dest], from the
    arguments [-s] and [-d] of the command line and the configuration. *)
Definition init_endpoints (src dest : option string) (config : config_t)
  : M (list logrecord) (endpoint * endpoint) :=
  s <-- init_src src config ;;
  d <-- init_dest dest config ;;
  (if is_file s && is_file d
   then logger_error "Source and Destination can not both be a {file}" ;;; sys_exit 1
   else ret tt) ;;;
  ret (s, d).

(** ** Connect_Source and Disconnect_Source *)

(** [psycopg2.connect(conn_string)] followed by [conn.cursor()]: a cursor, or
    the text of the error raised. *)
Definition connect_t : Type := string -> cursor + string.

Definition not_valid {A : Type} : M (list logrecord) A :=
  logger_error "Retrieve URL is not valid" ;;; sys_exit 1.

(** [self.config[key]] *)
Definition config_item {S : Type} (config : config_t) (key : string) : M S pyval :=
  match dict_get String.eqb config key with
  | Some v => ret v
  | None => raise (Base (KeyError key))
  end.

Definition conn_string (host port dbname : string) (user password : pyval) : string :=
  "host='" ++ host ++ "' port='" ++ port ++ "' dbname='" ++ dbname
  ++ "' user='" ++ py_str user ++ "' password='" ++ py_str password ++ "'".

Definition connected_msg (dbname : string) (user : pyval) : string :=
  "Connected to PostgreSQL database " ++ dbname ++ " as " ++ py_str user.

Definition Connect_Source (config : config_t) (connect : connect_t) (url : string)
  : M (list logrecord) cursor :=
  let idx := find_char ":" url in
  (if idx <=? 0 then not_valid else ret tt) ;;;
  let type_ := slice 0 (Some idx) url in
  let obj := slice (idx + 1) None url in
  (if mem type_ ["postgresql"] then ret tt else not_valid) ;;;
  (if String.eqb (slice 0 (Some 2) obj) "//" then ret tt else not_valid) ;;;
  let obj := slice 2 None obj in
  let idx := find_char "/" obj in
  (if idx <=? 0 then not_valid else ret tt) ;;;
  let host := slice 0 (Some idx) obj in
  let path := slice (idx + 1) None obj in
  let idx := find_char ":" host in
  let port := if 0 <? idx then slice (idx + 1) None host else "5432" in
  let host := if 0 <? idx then slice 0 (Some idx) host else host in
  user <-- config_item config "SOURCE_DBUSER" ;;
  password <-- config_item config "SOURCE_DBPASS" ;;
  cur <-- match connect (conn_string host port path user password) with
          | inl cur => ret cur
          | inr text => raise (OperationalError text)
          end ;;
  user <-- config_item config "SOURCE_DBUSER" ;;
  logger_info (connected_msg path user) ;;;
  ret cur.

(** ** run and the main program *)

(** Modelled from the spec: the run-tracking collaborator.  The class
    [ProcessingActivity] is not part of this repository; the spec (section 6)
    gives it as accepting a run identifier and topic, and a final pair of a
    success flag and a summary message.  The calls are kept in their order. *)
Inductive pa_call : Type :=
| ProcessingActivity (application function id topic about : string)
| FinishActivity (rc : bool) (msg : string).

(** What [run] asks the operating system: the name of the file of the
    script, the process id, the effective user id and the name of that
    user. *)
Record process : Type := mkProcess {
  program : string;
  pid : Z;
  euid : Z;
  pw_name : string
}.

(** All that [run] reads or writes: [self] with the destination, the lines
    the program prints on standard error with [eprint], the calls of the run
    tracker and the cursors closed. *)
Record world : Type := mkWorld {
  self : state;
  stderr : list string;
  activity : list pa_call;
  closed : list cursor
}.

Definition set_logger (lg : list logrecord) (st : state) : state :=
  mkState (objects st) (journal st) (MyUpdateStat st) (MyDeleteStat st) (MySkipStat st) lg.

Definition set_self (st : state) (w : world) : world :=
  mkWorld st (stderr w) (activity w) (closed w).

(** A method that uses the logger only, and one that uses [self]. *)
Definition on_logger {A : Type} (m : M (list logrecord) A) : M world A :=
  zoom self set_self (zoom logger set_logger m).

Definition on_self {A : Type} (m : M state A) : M world A := zoom self set_self m.

Definition eprint (line : string) : M world unit :=
  fun w => (Ok tt, mkWorld (self w) (stderr w ++ [line]) (activity w) (closed w)).

Definition pa (c : pa_call) : M world unit :=
  fun w => (Ok tt, mkWorld (self w) (stderr w) (activity w ++ [c]) (closed w)).

Definition Disconnect_Source (cur : cursor) : M world unit :=
  fun w => (Ok tt, mkWorld (self w) (stderr w) (activity w) (closed w ++ [cur])).

(** The three counters set to zero. *)
Definition reset_stats (st : state) : state :=
  mkState (objects st) (journal st) 0 0 0 (logger st).

Definition starting_msg (pr : process) : string :=
  "Starting program=" ++ program pr ++ " pid=" ++ string_of_Z (pid pr)
  ++ ", uid=" ++ string_of_Z (euid pr) ++ "(" ++ pw_name pr ++ ")".

(** The summary; [seconds] is the text of the elapsed seconds with three
    decimals. *)
Definition summary_msg (seconds : string) (st : state) : string :=
  "Processed " ++ MyName ++ " in " ++ seconds ++ "/seconds: "
  ++ string_of_Z (MyUpdateStat st) ++ "/updates, "
  ++ string_of_Z (MyDeleteStat st) ++ "/deletes, "
  ++ string_of_Z (MySkipStat st) ++ "/skipped".

(** [self.logger.critical(msg)] *)
Definition logger_critical (msg : string) : M (list logrecord) unit :=
  fun lg => (Ok tt, lg ++ [(CRITICAL, msg)]).

Definition caught_msg (signum : Z) : string :=
  "Caught signal=" ++ string_of_Z signum ++ ", exiting...".

(** [exit_signal], the handler [run] installs for SIGINT and SIGTERM. *)
Definition exit_signal (signum : Z) : M world unit :=
  on_logger (logger_critical (caught_msg signum)) ;;; sys_exit 0.

(** A signal that the handler catches, at some point after [run] has
    installed it: the number of the signal and the world the handler finds.
    The handler is called between two instructions of the interpreter,
    inside any of the methods, so the world it finds is whatever the run has
    made of it by then: it is given with the signal and not computed. *)
Record interrupt : Type := mkInterrupt {
  signum : Z;
  found : world
}.

(** What the first part of [__init__], lines 29 to 87, comes to.  It is
    the work of the argument parser, of the file system, of the JSON and
    logging libraries, and is given here by its outcome: [parse_args] exits
    (with status 2 on a command line it does not take, with status 0 after
    the help); an exception goes up that nothing catches (the configuration
    file cannot be read, the log level is no level, the configuration has no
    LOG_FILE, the log file cannot be opened); the configuration is no JSON,
    a line is printed and the program exits with status 1; or the arguments
    [-s] and [-d], the configuration and the logger are there.  The
    debugger of [--pdb] is left out. *)
Inductive startup : Type :=
| ParserExit (status : Z)
| StartupError
| NotJson (line : string)
| Started (src dest : option string) (config : config_t).

Section Run.

Variable pr : process.
Variable connect : connect_t.
Variable save_error : XSEDEFos -> option db_error.
Variable delete_error : XSEDEFos -> option db_error.
(** What the clock makes of [(self.end_ts - self.start_ts).total_seconds()]
    under the format [{:.3f}]. *)
Variable seconds : string.

(** The body of [run] when no signal is caught; the loop has one pass. *)
Definition run_through (config : config_t) (src : endpoint) : M world unit :=
  on_logger (logger_info (starting_msg pr)) ;;;
  (if match scheme src with
      | Some s => String.eqb s "postgresql"
      | None => false
      end
   then ret tt
   else eprint ("Source must be " ++ String dquote ("postgresql" ++ String dquote ""))
        ;;; sys_exit 1) ;;;
  pa (ProcessingActivity (program pr) "Store_Destination" "xdcdb-fos" "FOS" "xsede.org") ;;;
  on_self (fun st => (Ok tt, reset_stats st)) ;;;
  url <-- match uri src with
          | Some u => ret u
          | None => raise AttributeError
          end ;;
  CURSOR <-- on_logger (Connect_Source config connect url) ;;
  INPUT <-- on_logger (fun lg => let (r, lg') := Retrieve_Source CURSOR lg in
                                 (of_result r, lg')) ;;
  r <-- on_self (fun st => let (r, st') := Store_Destination save_error delete_error INPUT st in
                           (of_result r, st')) ;;
  Disconnect_Source CURSOR ;;;
  msg <-- (fun w => (Ok (summary_msg seconds (self w)), w)) ;;
  on_logger (logger_info msg) ;;;
  pa (FinishActivity (fst r) msg).

(** [run], on [self.src]: it installs [exit_signal] for SIGINT and SIGTERM
    and goes through its body, unless a signal is caught on the way, and
    then the handler logs it and exits with status 0 from where the run
    is. *)
Definition run (config : config_t) (sig : option interrupt) (src : endpoint)
  : M world unit :=
  match sig with
  | None => run_through config src
  | Some i => fun _ => exit_signal (signum i) (found i)
  end.

(** The main program: [HandleLoad()], [run] and [sys.exit(0)].  The result
    is the exit status of the process: that of [sys.exit], and 1 for an
    exception that nothing catches.  A signal is caught only once [run] has
    installed the handler, so [sig] counts when [run] is reached; a signal
    that arrives before is not the program's to handle. *)
Definition main (s : startup) (sig : option interrupt) (w : world) : Z * world :=
  match s with
  | ParserExit status => (status, w)
  | StartupError => (1, w)
  | NotJson line => (1, mkWorld (self w) (stderr w ++ [line]) (activity w) (closed w))
  | Started src dest config =>
      match (ends <-- on_logger (init_endpoints src dest config) ;;
             run config sig (fst ends)) w with
      | (Ok _, w') => (0, w')
      | (Err (Base (SystemExit status)), w') => (status, w')
      | (Err _, w') => (1, w')
      end
  end.

End Run.

(** ** Vocabulary of the statements on the script *)

(** The messages [__init__] logs before it exits. *)
Definition init_messages : list string :=
  [ "Source not {file, http, https}";
    not_followed;
    "Source is missing a database name";
    "Destination not {file, analyze, warehouse}";
    "Source and Destination can not both be a {file}" ].

(** A URL of the form [postgresql://<host and port>/<dbname>], the host and
    port not empty and without a slash. *)
Definition valid_url (url : string) : Prop :=
  exists hostport dbname,
    url = ("postgresql://" ++ hostport ++ "/" ++ dbname)%string
    /\ hostport <> ""%string
    /\ contains "/" hostport = false.

(** The exit of [Connect_Source] on a URL it does not take. *)
Definition url_rejected (lg : list logrecord) : outcome cursor * list logrecord :=
  (Err (Base (SystemExit 1)), lg ++ [(ERROR, "Retrieve URL is not valid")]).

(** [self] when [run] calls [Connect_Source]: the start is logged and the
    three counters are zero. *)
Definition self_at_start (pr : process) (st : state) : state :=
  mkState (objects st) (journal st) 0 0 0 (logger st ++ [(INFO, starting_msg pr)]).

(** The call that opens the activity of a run. *)
Definition tracked (pr : process) : pa_call :=
  ProcessingActivity (program pr) "Store_Destination" "xdcdb-fos" "FOS" "xsede.org".

Definition must_be_postgresql : string :=
  "Source must be " ++ String dquote ("postgresql" ++ String dquote "").


(** The world with another [self]. *)
Definition at_self (st : state) (w : world) (act : list pa_call) : world :=
  mkWorld st (stderr w) (activity w ++ act) (closed w).

(** ** More sample inputs *)

Module MoreSamples.
Import Sample.

(** A record that has no description. *)
Definition no_desc : record :=
  [ ("field_of_science_id", PyInt 2);
    ("parent_field_of_science_id", PyNone);
    ("fos_nsf_id", PyNone);
    ("fos_nsf_abbrev", PyStr "CHE");
    ("is_active", PyStr "1") ].

Definition items_with_no_desc : snapshot :=
  [(KInt 1, physics); (KInt 2, no_desc); (KInt 3, biology)].

(** The state of a run on the table of one obsolete row once the record of
    physics is saved. *)
Definition physics_saved : state :=
  Eval vm_compute in
    flow_state (upsert_loop accept (load_objects [obsolete_row]) (start [obsolete_row])
                            one_item).

(** A process, a configuration with the user and the password, a database
    server that knows one connection string, a cursor whose query fails and
    a world with a given table and nothing else. *)
Definition this_process : process := mkProcess "route_xdcdb-fos.py" 4242 1000 "xsede".

Definition settings : config_t :=
  [("SOURCE_DBUSER", PyStr "info"); ("SOURCE_DBPASS", PyStr "secret")].

Definition one_database (cur : cursor) : connect_t :=
  fun cs =>
    if String.eqb cs
         "host='db.example.org' port='5432' dbname='xdcdb' user='info' password='secret'"
    then inl cur else inr "could not connect"%string.

Definition broken : cursor :=
  fun _ => QueryError (PyStr "42P01") (PyStr "relation does not exist").

Definition world_of (t : table) : world := mkWorld (start t) [] [] [].

Definition xdcdb_url : string := "postgresql://db.example.org/xdcdb".

End MoreSamples.

(** * Facts about dicts *)

Section DictFacts.
Variables (K V : Type) (eqb : K -> K -> bool).
Hypothesis eqb_eq : forall a b, eqb a b = true <-> a = b.

Lemma eqb_same (a : K) : eqb a a = true.
Proof. now apply eqb_eq. Qed.

Lemma eqb_diff (a b : K) : a <> b -> eqb a b = false.
Proof.
  intros N. destruct (eqb a b) eqn:E; [|reflexivity].
  apply eqb_eq in E. contradiction.
Qed.

Lemma dict_get_set_same (d : dict K V) k v :
  dict_get eqb (dict_set eqb d k v) k = Some v.
Proof.
  induction d as [|[k' v'] d IH]; simpl.
  - now rewrite eqb_same.
  - destruct (eqb k k') eqn:E; simpl; rewrite E; auto.
Qed.

Lemma dict_get_set_other (d : dict K V) k v k' :
  k' <> k -> dict_get eqb (dict_set eqb d k v) k' = dict_get eqb d k'.
Proof.
  intros N. induction d as [|[k0 v0] d IH]; simpl.
  - now rewrite (eqb_diff N).
  - destruct (eqb k k0) eqn:E; simpl.
    + apply eqb_eq in E; subst k0. now rewrite (eqb_diff N).
    + now rewrite IH.
Qed.

Lemma dict_get_in (d : dict K V) k v :
  dict_get eqb d k = Some v -> In (k, v) d.
Proof.
  induction d as [|[k' v'] d IH]; simpl; [discriminate|].
  destruct (eqb k k') eqn:E.
  - apply eqb_eq in E; subst. intros [= ->]. now left.
  - intros H. right. auto.
Qed.

Lemma dict_get_none (d : dict K V) k :
  dict_get eqb d k = None <-> ~ In k (keys d).
Proof.
  induction d as [|[k' v'] d IH]; simpl.
  - tauto.
  - destruct (eqb k k') eqn:E.
    + apply eqb_eq in E; subst. split; [discriminate | intros H; exfalso; apply H; now left].
    + rewrite IH. split.
      * intros H [H1|H1]; [subst; rewrite eqb_same in E; discriminate | auto].
      * intros H H1. apply H. now right.
Qed.

Lemma dict_has_in (d : dict K V) k :
  dict_has eqb d k = true <-> In k (keys d).
Proof.
  unfold dict_has. destruct (dict_get eqb d k) eqn:E.
  - split; [intros _ | reflexivity].
    apply dict_get_in in E. apply (in_map fst) in E. exact E.
  - split; [discriminate|]. intros H. apply dict_get_none in E. contradiction.
Qed.

Lemma in_dict_get (d : dict K V) k v :
  NoDup (keys d) -> In (k, v) d -> dict_get eqb d k = Some v.
Proof.
  induction d as [|[k' v'] d IH]; simpl; [tauto|].
  intros ND [H|H].
  - injection H as -> ->. now rewrite eqb_same.
  - inversion ND as [|? ? Hn ND']; subst.
    destruct (eqb k k') eqn:E.
    + apply eqb_eq in E; subst. exfalso. apply Hn.
      apply (in_map fst) in H. exact H.
    + auto.
Qed.

Lemma keys_dict_set (d : dict K V) k v :
  keys (dict_set eqb d k v) = if dict_has eqb d k then keys d else (keys d ++ [k])%list.
Proof.
  unfold dict_has. induction d as [|[k' v'] d IH]; simpl; [reflexivity|].
  destruct (eqb k k') eqn:E; simpl; [reflexivity|].
  rewrite IH. now destruct (dict_get eqb d k).
Qed.

Lemma in_keys_dict_set (d : dict K V) k v k' :
  In k' (keys (dict_set eqb d k v)) <-> k' = k \/ In k' (keys d).
Proof.
  rewrite keys_dict_set. destruct (dict_has eqb d k) eqn:E.
  - apply dict_has_in in E. split; [tauto|]. intros [->|H]; auto.
  - rewrite in_app_iff. simpl. intuition.
Qed.

Lemma NoDup_keys_dict_set (d : dict K V) k v :
  NoDup (keys d) -> NoDup (keys (dict_set eqb d k v)).
Proof.
  intros ND. rewrite keys_dict_set. destruct (dict_has eqb d k) eqn:E; [exact ND|].
  assert (Hn : ~ In k (keys d)).
  { intros H. apply dict_has_in in H. congruence. }
  clear E. induction (keys d) as [|a l IH]; simpl.
  - constructor; [tauto | constructor].
  - inversion ND; subst. constructor.
    + rewrite in_app_iff. simpl. intros [H|[H|[]]]; [contradiction|].
      subst. apply Hn. now left.
    + apply IH; [assumption|]. intros H. apply Hn. now right.
Qed.

Lemma dict_set_fresh (d : dict K V) k v :
  ~ In k (keys d) -> dict_set eqb d k v = (d ++ [(k, v)])%list.
Proof.
  induction d as [|[k' v'] d IH]; simpl; [reflexivity|].
  intros H. rewrite eqb_diff by (intros ->; apply H; now left).
  rewrite IH; [reflexivity|]. intros H1. apply H. now right.
Qed.

Lemma fold_dict_set_fresh (pairs acc : list (K * V)) :
  NoDup (keys (acc ++ pairs)) ->
  fold_left (fun d kv => dict_set eqb d (fst kv) (snd kv)) pairs acc = (acc ++ pairs)%list.
Proof.
  revert acc. induction pairs as [|[k v] pairs IH]; intros acc ND; simpl.
  - now rewrite app_nil_r.
  - assert (E : (acc ++ (k, v) :: pairs = (acc ++ [(k, v)]) ++ pairs)%list)
      by now rewrite <- app_assoc.
    rewrite dict_set_fresh.
    + rewrite IH; [now rewrite <- app_assoc|]. now rewrite <- E.
    + unfold keys in ND. rewrite map_app in ND. simpl in ND.
      apply NoDup_remove_2 in ND. intros H. apply ND.
      apply in_or_app. now left.
Qed.

(** A dict built from pairs whose keys are distinct is those pairs. *)
Lemma dict_of_NoDup (pairs : list (K * V)) :
  NoDup (keys pairs) -> dict_of eqb pairs = pairs.
Proof. intros ND. unfold dict_of. now rewrite fold_dict_set_fresh. Qed.

Lemma fold_dict_set_NoDup (pairs acc : list (K * V)) :
  NoDup (keys acc) ->
  NoDup (keys (fold_left (fun d kv => dict_set eqb d (fst kv) (snd kv)) pairs acc)).
Proof.
  revert acc. induction pairs as [|[k v] pairs IH]; intros acc ND; simpl; [exact ND|].
  apply IH. now apply NoDup_keys_dict_set.
Qed.

Lemma dict_of_keys_NoDup (pairs : list (K * V)) : NoDup (keys (dict_of eqb pairs)).
Proof. apply fold_dict_set_NoDup. constructor. Qed.

End DictFacts.

Lemma pykey_eqb_eq (a b : pykey) : pykey_eqb a b = true <-> a = b.
Proof. unfold pykey_eqb. destruct (pykey_eq_dec a b); split; congruence. Qed.

Lemma pykey_eqb_refl (a : pykey) : pykey_eqb a a = true.
Proof. now apply pykey_eqb_eq. Qed.

Lemma pykey_eqb_neq (a b : pykey) : a <> b -> pykey_eqb a b = false.
Proof. unfold pykey_eqb. destruct (pykey_eq_dec a b); congruence. Qed.

(** * Retrieve_Source: the snapshot is keyed by field_of_science_id *)

Lemma dict_set_twice (K V : Type) (eqb : K -> K -> bool)
      (eqb_eq : forall a b, eqb a b = true <-> a = b) (d : dict K V) k v v' :
  dict_set eqb (dict_set eqb d k v) k v' = dict_set eqb d k v'.
Proof.
  induction d as [|[k0 v0] d IH]; simpl.
  - now rewrite (eqb_same eqb eqb_eq).
  - destruct (eqb k k0) eqn:E; simpl; rewrite E; [reflexivity | now rewrite IH].
Qed.

Lemma source_row_spec COLS DATA row DATA' :
  source_row COLS DATA row = Return DATA' ->
  exists k, row_id COLS row = Some k
            /\ DATA' = dict_set pykey_eqb DATA k (source_record COLS row).
Proof.
  unfold source_row, row_id, source_record. fold (row_dict COLS row). cbv zeta.
  destruct (rget (row_dict COLS row) "field_of_science_id") as [idv|]; [|discriminate].
  destruct (rget (row_dict COLS row) "fos_nsf_abbrev") as [na|]; [|discriminate].
  destruct (is_none_text na); intros H; inversion H; subst;
    exists (key_of idv); split; try reflexivity.
  apply dict_set_twice. exact pykey_eqb_eq.
Qed.

Lemma last_row_app_none COLS k pre post :
  last_row COLS k (pre ++ post) =
  match last_row COLS k post with
  | Some r => Some r
  | None => last_row COLS k pre
  end.
Proof.
  induction pre as [|row pre IH]; simpl.
  - now destruct (last_row COLS k post).
  - rewrite IH. now destruct (last_row COLS k post).
Qed.

Lemma last_row_none COLS k rows :
  last_row COLS k rows = None <-> (forall r, In r rows -> row_id COLS r <> Some k).
Proof.
  induction rows as [|row rows IH]; simpl.
  - split; [intros _ r [] | reflexivity].
  - destruct (last_row COLS k rows) eqn:E.
    + split; [discriminate|]. intros H. exfalso.
      destruct IH as [_ IH]. discriminate IH.
      intros r Hr. apply H. now right.
    + destruct (option_key_dec (row_id COLS row) (Some k)) as [Y|N].
      * split; [discriminate|]. intros H. exfalso. apply (H row); auto.
      * split; [|reflexivity]. intros _ r [<-|Hr]; [exact N|].
        destruct IH as [IH _]. now apply IH.
Qed.

Lemma last_row_some COLS k rows row :
  last_row COLS k rows = Some row <->
  exists pre post, rows = pre ++ row :: post /\ row_id COLS row = Some k
                   /\ forall r, In r post -> row_id COLS r <> Some k.
Proof.
  split.
  - revert row. induction rows as [|r0 rows IH]; simpl; [discriminate|].
    intros row. destruct (last_row COLS k rows) eqn:E.
    + intros [= <-]. destruct (IH _ eq_refl) as (pre & post & -> & Hk & Hp).
      exists (r0 :: pre), post. auto.
    + destruct (option_key_dec (row_id COLS r0) (Some k)) as [Y|N]; [|discriminate].
      intros [= <-]. exists [], rows. repeat split; auto.
      now apply last_row_none.
  - intros (pre & post & -> & Hk & Hp).
    rewrite last_row_app_none. simpl.
    apply last_row_none in Hp. rewrite Hp.
    destruct (option_key_dec (row_id COLS row) (Some k)); [reflexivity | contradiction].
Qed.

Lemma source_rows_spec COLS rows : forall DATA DATA',
  source_rows COLS DATA rows = Return DATA' ->
  (forall k, dict_get pykey_eqb DATA' k =
             match last_row COLS k rows with
             | Some row => Some (source_record COLS row)
             | None => dict_get pykey_eqb DATA k
             end)
  /\ (forall k, In k (keys DATA') <->
                In k (keys DATA) \/ In (Some k) (map (row_id COLS) rows))
  /\ (NoDup (keys DATA) -> NoDup (keys DATA')).
Proof.
  induction rows as [|row rows IH]; simpl; intros DATA DATA' H.
  - injection H as <-. split; [|split]; auto.
    intros k. split; auto. intros [?|[]]; auto.
  - destruct (source_row COLS DATA row) as [D1|] eqn:E; [|discriminate].
    apply source_row_spec in E. destruct E as (k0 & Hid & ->).
    destruct (IH _ _ H) as (G & I & N). split; [|split].
    + intros k. rewrite G. destruct (last_row COLS k rows); [reflexivity|].
      rewrite Hid. destruct (option_key_dec (Some k0) (Some k)) as [Y|Y].
      * injection Y as ->. apply dict_get_set_same. exact pykey_eqb_eq.
      * apply dict_get_set_other; [exact pykey_eqb_eq | congruence].
    + intros k. rewrite I, (in_keys_dict_set pykey_eqb pykey_eqb_eq), Hid. split.
      * intros [[->|?]|?]; auto.
      * intros [?|[[= ->]|?]]; auto.
    + intros ND. apply N. apply NoDup_keys_dict_set; [exact pykey_eqb_eq | exact ND].
Qed.

Lemma NoDup_map_Some (A : Type) (l : list A) : NoDup l -> NoDup (map Some l).
Proof.
  induction 1 as [|a l Hn _ IH]; simpl; constructor; auto.
  rewrite in_map_iff. intros (b & [= ->] & Hb). contradiction.
Qed.

Lemma NoDup_same_length (A : Type) (l l' : list A) :
  NoDup l -> NoDup l' -> (forall x, In x l <-> In x l') -> List.length l = List.length l'.
Proof.
  intros N N' H. apply Nat.le_antisymm; apply NoDup_incl_length; auto;
    intros x Hx; now apply H.
Qed.

(** C10.  [Retrieve_Source] keys the snapshot by [field_of_science_id]: when it
    returns a snapshot, the record filed under an id is the one of the last
    row carrying that id (a row is in the snapshot only if no later row has its
    id), the ids of the snapshot are the ids of the rows, each once, and the
    size of the snapshot is the number of distinct ids, whatever the number of
    rows. *)
Theorem Retrieve_Source_last_row_wins (c : cursor) (lg lg' : list logrecord)
        (COLS : list string) (rows : list (list pyval)) (DATA : snapshot) :
  c sql = QueryRows COLS rows ->
  Retrieve_Source c lg = (Return DATA, lg') ->
  (forall pre row post,
      rows = pre ++ row :: post ->
      (forall r, In r post -> row_id COLS r <> row_id COLS row) ->
      exists k, row_id COLS row = Some k
                /\ dict_get pykey_eqb DATA k = Some (source_record COLS row))
  /\ (forall k rec,
         dict_get pykey_eqb DATA k = Some rec ->
         exists pre row post,
           rows = pre ++ row :: post /\ row_id COLS row = Some k
           /\ (forall r, In r post -> row_id COLS r <> Some k)
           /\ rec = source_record COLS row)
  /\ NoDup (keys DATA)
  /\ (forall k, In k (keys DATA) <-> In (Some k) (map (row_id COLS) rows))
  /\ List.length DATA = List.length (nodup option_key_dec (map (row_id COLS) rows)).
Proof.
  intros Hq H. unfold Retrieve_Source in H. rewrite Hq in H.
  injection H as H _. pose proof (source_rows_spec _ _ _ H) as (G & I & N).
  assert (ND : NoDup (keys DATA)) by (apply N; constructor).
  assert (Hall : forall r, In r rows -> exists k, row_id COLS r = Some k).
  { clear G I N ND Hq. revert H. generalize (@nil (pykey * record)).
    induction rows as [|row rows' IH]; simpl; intros D0 H r Hr; [destruct Hr|].
    destruct (source_row COLS D0 row) as [D1|] eqn:E; [|discriminate].
    destruct Hr as [<-|Hr].
    - apply source_row_spec in E. destruct E as (k & Hk & _). exists k. exact Hk.
    - apply (IH D1 H r Hr). }
  assert (I' : forall k, In k (keys DATA) <-> In (Some k) (map (row_id COLS) rows)).
  { intros k. rewrite I. simpl. tauto. }
  split; [|split; [|split; [|split]]]; auto.
  - intros pre row post -> Hpost.
    destruct (Hall row) as (k & Hk); [apply in_elt|].
    exists k. split; [exact Hk|]. rewrite G.
    assert (L : last_row COLS k (pre ++ row :: post) = Some row).
    { apply last_row_some. exists pre, post. repeat split; auto.
      intros r Hr. rewrite <- Hk. now apply Hpost. }
    now rewrite L.
  - intros k rec Hrec. rewrite G in Hrec.
    destruct (last_row COLS k rows) as [row|] eqn:L; [|discriminate].
    injection Hrec as <-. apply last_row_some in L.
    destruct L as (pre & post & -> & Hk & Hp). exists pre, row, post. auto.
  - unfold keys in *. rewrite <- (length_map fst DATA), <- (length_map Some (map fst DATA)).
    apply NoDup_same_length.
    + apply NoDup_map_Some. exact ND.
    + apply NoDup_nodup.
    + intros x. rewrite nodup_In, in_map_iff. split.
      * intros (k & <- & Hk). now apply I'.
      * intros Hx. apply in_map_iff in Hx. destruct Hx as (r & Hr & Hin).
        destruct (Hall r Hin) as (k & Hk). exists k. split; [congruence|].
        apply I'. rewrite <- Hk. now apply in_map.
Qed.

(** * The fingerprint does not depend on the order of the fields *)

Lemma slt_trans (a b c : string) : slt a b -> slt b c -> slt a c.
Proof.
  unfold slt. intros H1 H2.
  apply OrderedTypeEx.String_as_OT.cmp_lt in H1.
  apply OrderedTypeEx.String_as_OT.cmp_lt in H2.
  apply OrderedTypeEx.String_as_OT.cmp_lt.
  eapply OrderedTypeEx.String_as_OT.lt_trans; eauto.
Qed.

Lemma slt_irrefl (a : string) : ~ slt a a.
Proof.
  unfold slt. intros H. pose proof (String.compare_antisym a a) as A.
  rewrite H in A. discriminate A.
Qed.

Lemma leb_false_slt (a b : string) : String.leb a b = false -> slt b a.
Proof.
  unfold String.leb, slt. rewrite (String.compare_antisym b a).
  destruct (String.compare a b); simpl; congruence.
Qed.

Lemma leb_true_slt (a b : string) : String.leb a b = true -> a <> b -> slt a b.
Proof.
  unfold String.leb, slt. destruct (String.compare a b) eqn:E; try congruence.
  apply String.compare_eq_iff in E. congruence.
Qed.

Lemma string_eqb_eq (a b : string) : String.eqb a b = true <-> a = b.
Proof. apply String.eqb_eq. Qed.

Lemma in_insert_item x y l : In y (insert_item x l) <-> y = x \/ In y l.
Proof.
  induction l as [|z l IH]; simpl.
  - intuition.
  - destruct (String.leb (fst x) (fst z)); simpl; [intuition|].
    rewrite IH. intuition.
Qed.

Lemma insert_item_sorted x l :
  sorted_by_name l -> ~ In (fst x) (keys l) -> sorted_by_name (insert_item x l).
Proof.
  induction 1 as [|kv l Hall Hs IH]; simpl; intros Hn.
  - constructor; constructor.
  - destruct (String.leb (fst x) (fst kv)) eqn:E.
    + assert (L : slt (fst x) (fst kv)).
      { apply leb_true_slt; [exact E|]. intros Heq. apply Hn. now left. }
      constructor; [|now constructor].
      constructor; [exact L|].
      eapply Forall_impl; [|exact Hall]. intros a Ha. eapply slt_trans; eauto.
    + apply leb_false_slt in E. constructor.
      * apply Forall_forall. intros y Hy. apply in_insert_item in Hy.
        destruct Hy as [->|Hy]; [exact E|].
        rewrite Forall_forall in Hall. now apply Hall.
      * apply IH. intros H. apply Hn. now right.
Qed.

Lemma keys_insert_item x l k :
  In k (keys (insert_item x l)) <-> k = fst x \/ In k (keys l).
Proof.
  unfold keys. rewrite !in_map_iff. split.
  - intros (y & <- & Hy). apply in_insert_item in Hy.
    destruct Hy as [->|Hy]; [now left | right; exists y; auto].
  - intros [->|(y & <- & Hy)].
    + exists x. split; [reflexivity|]. apply in_insert_item. now left.
    + exists y. split; [reflexivity|]. apply in_insert_item. now right.
Qed.

Lemma keys_sorted l k : In k (keys (sorted l)) <-> In k (keys l).
Proof.
  induction l as [|x l IH]; simpl; [tauto|].
  rewrite keys_insert_item, IH. intuition.
Qed.

Lemma sorted_sorted_by_name l : NoDup (keys l) -> sorted_by_name (sorted l).
Proof.
  induction l as [|x l IH]; simpl; intros ND.
  - constructor.
  - inversion ND; subst. apply insert_item_sorted; [auto|].
    now rewrite keys_sorted.
Qed.

Lemma rget_insert_item x l f :
  ~ In (fst x) (keys l) -> rget (insert_item x l) f = rget (x :: l) f.
Proof.
  unfold rget. induction l as [|[k v] l IH]; simpl; intros Hn; [reflexivity|].
  destruct x as [kx vx]. simpl in *.
  destruct (String.leb kx k); simpl; [reflexivity|].
  rewrite IH by tauto. simpl.
  destruct (String.eqb f kx) eqn:E1; destruct (String.eqb f k) eqn:E2; try reflexivity.
  apply String.eqb_eq in E1, E2. subst. exfalso. apply Hn. now left.
Qed.

Lemma rget_sorted l f : NoDup (keys l) -> rget (sorted l) f = rget l f.
Proof.
  induction l as [|[k v] l IH]; simpl; intros ND; [reflexivity|].
  inversion ND; subst.
  rewrite (@rget_insert_item (k, v) (sorted l) f) by (simpl; now rewrite keys_sorted).
  unfold rget in *. simpl. now rewrite IH.
Qed.

Lemma sorted_by_name_NoDup l : sorted_by_name l -> NoDup (keys l).
Proof.
  induction 1 as [|kv l Hall Hs IH]; simpl; constructor; auto.
  intros H. unfold keys in H. apply in_map_iff in H. destruct H as (y & Hy & Hin).
  rewrite Forall_forall in Hall. specialize (Hall y Hin).
  rewrite Hy in Hall. now apply slt_irrefl in Hall.
Qed.

Lemma sorted_head_absent (kv : string * pyval) (l : record) (f : string) :
  Forall (fun x => slt (fst kv) (fst x)) l -> slt f (fst kv) \/ f = fst kv ->
  rget l f = None.
Proof.
  intros Hall Hf. apply (dict_get_none String.eqb string_eqb_eq).
  intros H. unfold keys in H. apply in_map_iff in H. destruct H as (y & Hy & Hin).
  rewrite Forall_forall in Hall. specialize (Hall y Hin). rewrite Hy in Hall.
  destruct Hf as [Hf| ->].
  - apply (slt_irrefl (a:=f)). eapply slt_trans; eauto.
  - now apply slt_irrefl in Hall.
Qed.

(** Two lists sorted by name that hold the same mapping are the same list. *)
Lemma sorted_by_name_unique l1 : forall l2,
  sorted_by_name l1 -> sorted_by_name l2 ->
  (forall f, rget l1 f = rget l2 f) -> l1 = l2.
Proof.
  induction l1 as [|[k1 v1] l1 IH]; intros l2 S1 S2 H.
  - destruct l2 as [|[k2 v2] l2]; [reflexivity|].
    specialize (H k2). unfold rget in H. simpl in H.
    rewrite String.eqb_refl in H. discriminate H.
  - destruct l2 as [|[k2 v2] l2].
    + specialize (H k1). unfold rget in H. simpl in H.
      rewrite String.eqb_refl in H. discriminate H.
    + inversion S1 as [|? ? A1 T1]; subst. inversion S2 as [|? ? A2 T2]; subst.
      simpl in A1, A2.
      assert (Hk : k1 = k2).
      { destruct (string_dec k1 k2) as [|N]; [assumption|exfalso].
        destruct (String.leb k1 k2) eqn:E.
        - apply leb_true_slt in E; [|exact N].
          specialize (H k1). unfold rget in H. simpl in H.
          rewrite String.eqb_refl in H.
          rewrite (proj2 (String.eqb_neq k1 k2) N) in H.
          fold (rget l2 k1) in H.
          rewrite (@sorted_head_absent (k2, v2) l2 k1) in H; [discriminate H|exact A2|now left].
        - apply leb_false_slt in E.
          specialize (H k2). unfold rget in H. simpl in H.
          rewrite String.eqb_refl in H.
          assert (N' : k2 <> k1) by congruence.
          rewrite (proj2 (String.eqb_neq k2 k1) N') in H.
          fold (rget l1 k2) in H.
          rewrite (@sorted_head_absent (k1, v1) l1 k2) in H; [discriminate H|exact A1|now left]. }
      subst k2.
      assert (Hv : v1 = v2).
      { specialize (H k1). unfold rget in H. simpl in H.
        rewrite String.eqb_refl in H. congruence. }
      subst v2. f_equal. apply IH; auto.
      intros f. destruct (string_dec f k1) as [->|N].
      * rewrite (@sorted_head_absent (k1, v1) l1 k1), (@sorted_head_absent (k1, v1) l2 k1);
          auto.
      * specialize (H f). unfold rget in H. simpl in H.
        rewrite (proj2 (String.eqb_neq f k1) N) in H. exact H.
Qed.

(** The dict that is printed: the pairs of the record, sorted by name. *)
Lemma sdict_sorted (r : record) :
  NoDup (keys r) -> dict_of String.eqb (sorted r) = sorted r.
Proof.
  intros ND. apply (dict_of_NoDup String.eqb string_eqb_eq).
  apply sorted_by_name_NoDup. now apply sorted_sorted_by_name.
Qed.

Lemma sorted_ext (r1 r2 : record) :
  NoDup (keys r1) -> NoDup (keys r2) ->
  (forall f, rget r1 f = rget r2 f) -> sorted r1 = sorted r2.
Proof.
  intros N1 N2 H.
  apply sorted_by_name_unique; try now apply sorted_sorted_by_name.
  intros f. now rewrite !rget_sorted.
Qed.

Lemma digest_ext (r1 r2 : record) :
  NoDup (keys r1) -> NoDup (keys r2) ->
  (forall f, rget r1 f = rget r2 f) -> digest r1 = digest r2.
Proof.
  intros N1 N2 H. unfold digest, strdict. now rewrite (@sorted_ext r1 r2 N1 N2 H).
Qed.

(** C5.  The fingerprint is a function of the mapping alone: two records (the
    dicts that are printed and hashed, after any normalisation) that give every
    field name the same value have the same printed bytes and the same digest,
    in whatever order their fields come; the dict that is printed holds the
    fields of the record, in the strict order of their names. *)
Theorem digest_independent_of_field_order (r1 r2 : record) :
  NoDup (keys r1) -> NoDup (keys r2) ->
  (forall f, rget r1 f = rget r2 f) ->
  digest r1 = digest r2
  /\ strdict r1 = strdict r2
  /\ sorted_by_name (dict_of String.eqb (sorted r1))
  /\ (forall f, rget (dict_of String.eqb (sorted r1)) f = rget r1 f).
Proof.
  intros N1 N2 H.
  assert (E : sorted r1 = sorted r2) by now apply sorted_ext.
  unfold digest, strdict. rewrite E. repeat split.
  - rewrite <- E, sdict_sorted by assumption. now apply sorted_sorted_by_name.
  - intros f. rewrite <- E, sdict_sorted by assumption. now apply rget_sorted.
Qed.

(** * The destination table *)

Lemma tbl_find_pk t k item : tbl_find t k = Some item -> pk item = k.
Proof.
  induction t as [|x t IH]; simpl; [discriminate|].
  destruct (pykey_eqb k (pk x)) eqn:E; [|exact IH].
  intros [= <-]. symmetry. now apply pykey_eqb_eq.
Qed.

Lemma tbl_find_in t k item : tbl_find t k = Some item -> In item t.
Proof.
  induction t as [|x t IH]; simpl; [discriminate|].
  destruct (pykey_eqb k (pk x)); [intros [= <-]; now left | auto].
Qed.

Lemma tbl_find_none t k : tbl_find t k = None <-> ~ In k (map pk t).
Proof.
  induction t as [|x t IH]; simpl; [tauto|].
  destruct (pykey_eqb k (pk x)) eqn:E.
  - apply pykey_eqb_eq in E. split; [discriminate | intros H; exfalso; apply H; auto].
  - rewrite IH. split; [|tauto].
    intros H [H1|H1]; [|tauto]. rewrite H1, pykey_eqb_refl in E. discriminate E.
Qed.

Lemma in_tbl_find t item : NoDup (map pk t) -> In item t -> tbl_find t (pk item) = Some item.
Proof.
  induction t as [|x t IH]; simpl; [tauto|].
  intros ND [->|H].
  - now rewrite pykey_eqb_refl.
  - inversion ND as [|? ? Hn ND']; subst.
    destruct (pykey_eqb (pk item) (pk x)) eqn:E; [|auto].
    apply pykey_eqb_eq in E. exfalso. apply Hn. rewrite <- E. now apply in_map.
Qed.

Lemma tbl_find_put t row k :
  tbl_find (tbl_put t row) k = if pykey_eqb k (pk row) then Some row else tbl_find t k.
Proof.
  induction t as [|x t IH]; simpl.
  - reflexivity.
  - destruct (pykey_eqb (pk row) (pk x)) eqn:E; simpl.
    + apply pykey_eqb_eq in E. rewrite <- E. now destruct (pykey_eqb k (pk row)).
    + rewrite IH. destruct (pykey_eqb k (pk x)) eqn:E1; [|reflexivity].
      apply pykey_eqb_eq in E1. subst k.
      rewrite pykey_eqb_neq; [reflexivity|].
      intros H. rewrite H, pykey_eqb_refl in E. discriminate E.
Qed.

Lemma tbl_put_twice t row : tbl_put (tbl_put t row) row = tbl_put t row.
Proof.
  induction t as [|x t IH]; simpl.
  - now rewrite pykey_eqb_refl.
  - destruct (pykey_eqb (pk row) (pk x)) eqn:E; simpl.
    + now rewrite pykey_eqb_refl.
    + now rewrite E, IH.
Qed.

Lemma in_pk_tbl_put t row k :
  In k (map pk (tbl_put t row)) <-> k = pk row \/ In k (map pk t).
Proof.
  induction t as [|x t IH]; simpl.
  - intuition.
  - destruct (pykey_eqb (pk row) (pk x)) eqn:E; simpl.
    + apply pykey_eqb_eq in E. rewrite <- E. intuition.
    + rewrite IH. intuition.
Qed.

Lemma NoDup_tbl_put t row : NoDup (map pk t) -> NoDup (map pk (tbl_put t row)).
Proof.
  induction t as [|x t IH]; simpl; intros ND.
  - constructor; [tauto | constructor].
  - inversion ND as [|? ? Hn ND']; subst.
    destruct (pykey_eqb (pk row) (pk x)) eqn:E; simpl.
    + apply pykey_eqb_eq in E. rewrite E. now constructor.
    + constructor; [|auto]. rewrite in_pk_tbl_put. intros [H|H]; [|contradiction].
      rewrite H, pykey_eqb_refl in E. discriminate E.
Qed.

Lemma tbl_find_del t k k' :
  tbl_find (tbl_del t k) k' = if pykey_eqb k' k then None else tbl_find t k'.
Proof.
  unfold tbl_del. induction t as [|x t IH]; simpl.
  - now destruct (pykey_eqb k' k).
  - destruct (pykey_eqb k (pk x)) eqn:E; simpl.
    + apply pykey_eqb_eq in E. rewrite IH, <- E.
      now destruct (pykey_eqb k' k).
    + rewrite IH. destruct (pykey_eqb k' (pk x)) eqn:E1; [|reflexivity].
      apply pykey_eqb_eq in E1. subst k'.
      rewrite pykey_eqb_neq; [reflexivity|].
      intros H. rewrite H, pykey_eqb_refl in E. discriminate E.
Qed.

Lemma in_tbl_del t k item : In item (tbl_del t k) <-> In item t /\ pk item <> k.
Proof.
  unfold tbl_del. rewrite filter_In. split; intros [H1 H2]; split; auto.
  - intros H. rewrite H, pykey_eqb_refl in H2. discriminate H2.
  - rewrite pykey_eqb_neq; [reflexivity | congruence].
Qed.

Lemma NoDup_tbl_del t k : NoDup (map pk t) -> NoDup (map pk (tbl_del t k)).
Proof.
  unfold tbl_del. induction t as [|x t IH]; simpl; intros ND; [constructor|].
  inversion ND as [|? ? Hn ND']; subst.
  destruct (negb (pykey_eqb k (pk x))); simpl; [|auto].
  constructor; [|auto]. intros H. apply Hn.
  apply in_map_iff in H. destruct H as (y & Hy & Hin).
  apply filter_In in Hin. rewrite <- Hy. apply in_map. tauto.
Qed.

Lemma load_objects_spec t :
  NoDup (map pk t) ->
  cur (load_objects t) = map (fun item => (pk item, item)) t
  /\ curdigest (load_objects t) = map (fun item => (pk item, fingerprint item)) t.
Proof.
  unfold load_objects. intros ND.
  assert (G : forall pre post,
             NoDup (map pk (pre ++ post)) ->
             fold_left load_item post
                       (mkLoaded (map (fun item => (pk item, item)) pre)
                                 (map (fun item => (pk item, fingerprint item)) pre))
             = mkLoaded (map (fun item => (pk item, item)) (pre ++ post))
                        (map (fun item => (pk item, fingerprint item)) (pre ++ post))).
  { intros pre post. revert pre. induction post as [|x post IH]; intros pre H; simpl.
    - now rewrite app_nil_r.
    - assert (E : pre ++ x :: post = (pre ++ [x]) ++ post) by now rewrite <- app_assoc.
      rewrite E in H |- *. rewrite <- (IH _ H). f_equal.
      assert (Hn : ~ In (pk x) (map pk pre)).
      { rewrite map_app in H. apply NoDup_app_remove_r in H.
        rewrite map_app in H. simpl in H. apply NoDup_remove_2 in H.
        now rewrite app_nil_r in H. }
      unfold load_item. simpl. fold (fingerprint x).
      rewrite !(dict_set_fresh pykey_eqb pykey_eqb_eq), !map_app; [reflexivity| |];
        unfold keys; rewrite map_map; simpl; exact Hn. }
  specialize (G [] t ND). simpl in G. rewrite G. simpl. auto.
Qed.

Lemma dict_get_map_pk (V : Type) (f : XSEDEFos -> V) t k :
  dict_get pykey_eqb (map (fun item => (pk item, f item)) t) k
  = option_map f (tbl_find t k).
Proof.
  induction t as [|x t IH]; simpl; [reflexivity|].
  destruct (pykey_eqb k (pk x)); [reflexivity | exact IH].
Qed.

(** * Normalisation of a destination row *)

Lemma rget_app_out (pre post : record) f :
  ~ In f (keys pre) -> rget (pre ++ post) f = rget post f.
Proof.
  unfold rget. induction pre as [|[k v] pre IH]; simpl; intros Hn; [reflexivity|].
  destruct (String.eqb f k) eqn:E.
  - apply String.eqb_eq in E. exfalso. apply Hn. now left.
  - apply IH. tauto.
Qed.

Lemma rset_app_out (pre post : record) f v :
  ~ In f (keys pre) -> rset (pre ++ post) f v = pre ++ rset post f v.
Proof.
  unfold rset. induction pre as [|[k w] pre IH]; simpl; intros Hn; [reflexivity|].
  destruct (String.eqb f k) eqn:E.
  - apply String.eqb_eq in E. exfalso. apply Hn. now left.
  - rewrite IH; tauto.
Qed.

Lemma keys_map_norm (d : record) : keys (map norm_item d) = keys d.
Proof. unfold keys. rewrite map_map. reflexivity. Qed.

(** On a dict the loop is a map over the values. *)
Lemma normalize_map (d : record) : NoDup (keys d) -> normalize d = map norm_item d.
Proof.
  unfold normalize. intros ND.
  set (step := fun (d : record) (i : string) =>
                 match rget d i with
                 | Some v => if is_none_text v then rset d i PyNone else d
                 | None => d
                 end).
  assert (G : forall post pre,
             NoDup (keys (pre ++ post)) ->
             fold_left step (keys post) (map norm_item pre ++ post)
             = map norm_item (pre ++ post)).
  { induction post as [|[k v] post IH]; intros pre H; simpl.
    - now rewrite !app_nil_r.
    - assert (E : pre ++ (k, v) :: post = (pre ++ [(k, v)]) ++ post)
        by now rewrite <- app_assoc.
      assert (Hn : ~ In k (keys (map norm_item pre))).
      { rewrite keys_map_norm. unfold keys in *. rewrite map_app in H. simpl in H.
        apply NoDup_remove_2 in H. intros Hin. apply H. apply in_or_app. now left. }
      rewrite E in H |- *. rewrite <- (IH _ H). f_equal.
      unfold step. rewrite rget_app_out by exact Hn.
      unfold rget at 1. simpl. rewrite String.eqb_refl.
      rewrite map_app, <- app_assoc. simpl.
      change (norm_item (k, v)) with (k, norm v). unfold norm.
      destruct (is_none_text v); [|reflexivity].
      rewrite rset_app_out by exact Hn. unfold rset. simpl.
      now rewrite String.eqb_refl. }
  apply (G d [] ND).
Qed.

Lemma model_to_dict_NoDup (item : XSEDEFos) : NoDup (keys (model_to_dict item)).
Proof.
  unfold model_to_dict, keys. simpl.
  repeat (constructor; [simpl; intuition discriminate|]). constructor.
Qed.

Lemma rget_map_norm (d : record) f :
  rget (map norm_item d) f = option_map norm (rget d f).
Proof.
  unfold rget. induction d as [|[k v] d IH]; simpl; [reflexivity|].
  destruct (String.eqb f k); [reflexivity | exact IH].
Qed.

Lemma normalize_model_to_dict (item : XSEDEFos) :
  normalize (model_to_dict item) = map norm_item (model_to_dict item).
Proof. apply normalize_map, model_to_dict_NoDup. Qed.

(** * Store_Destination: one record, then the two loops *)

Section StoreFacts.

Variable save_error : XSEDEFos -> option db_error.
Variable delete_error : XSEDEFos -> option db_error.

Lemma upsert_item_skip ld st k r :
  skipped ld k r = true -> upsert_item save_error ld st k r = Continue (skip_state st).
Proof. unfold upsert_item, skipped. now intros ->. Qed.

Lemma upsert_item_raise ld st k r e :
  skipped ld k r = false -> upsert_args r = Raise e ->
  upsert_item save_error ld st k r = Stop (Raise e) st.
Proof. unfold upsert_item, skipped. now intros -> ->. Qed.

Lemma upsert_item_fail ld st k r args e :
  skipped ld k r = false -> upsert_args r = Return args ->
  save_error (updated_or_created (objects st) args) = Some e ->
  upsert_item save_error ld st k r
  = Stop (Return (false, saving_msg e (field_of_science_id args)))
         (log ERROR (saving_msg e (field_of_science_id args)) st).
Proof.
  unfold upsert_item, skipped, save, save_failed. intros -> -> H. cbv zeta.
  now rewrite H.
Qed.

Lemma upsert_item_save ld st k r args :
  skipped ld k r = false -> upsert_args r = Return args ->
  save_error (updated_or_created (objects st) args) = None ->
  upsert_item save_error ld st k r
  = Continue (saved_state (updated_or_created (objects st) args)
                          (field_of_science_id args) st).
Proof.
  unfold upsert_item, skipped, save, save_failed, saved_state, log.
  intros -> -> H. cbv zeta. rewrite H. cbv iota beta.
  cbn [objects journal MyUpdateStat MyDeleteStat MySkipStat logger].
  now rewrite tbl_put_twice, <- app_assoc.
Qed.

(** The four ways the body of the first loop can go. *)
Lemma upsert_item_inv ld st k r :
  (skipped ld k r = true
   /\ upsert_item save_error ld st k r = Continue (skip_state st))
  \/ (skipped ld k r = false
      /\ exists e, upsert_args r = Raise e
                   /\ upsert_item save_error ld st k r = Stop (Raise e) st)
  \/ (skipped ld k r = false
      /\ exists args e,
          upsert_args r = Return args
          /\ save_error (updated_or_created (objects st) args) = Some e
          /\ upsert_item save_error ld st k r
             = Stop (Return (false, saving_msg e (field_of_science_id args)))
                    (log ERROR (saving_msg e (field_of_science_id args)) st))
  \/ (skipped ld k r = false
      /\ exists args,
          upsert_args r = Return args
          /\ save_error (updated_or_created (objects st) args) = None
          /\ upsert_item save_error ld st k r
             = Continue (saved_state (updated_or_created (objects st) args)
                                     (field_of_science_id args) st)).
Proof.
  destruct (skipped ld k r) eqn:Sk.
  - left. split; [reflexivity|]. now apply upsert_item_skip.
  - right. destruct (upsert_args r) as [args|e] eqn:A.
    + destruct (save_error (updated_or_created (objects st) args)) as [e|] eqn:S.
      * right. left. split; [reflexivity|]. exists args, e.
        repeat split; auto. now apply upsert_item_fail.
      * right. right. split; [reflexivity|]. exists args.
        repeat split; auto. now apply upsert_item_save.
    + left. split; [reflexivity|]. exists e. split; [reflexivity|].
      now apply upsert_item_raise.
Qed.

Lemma upsert_loop_app ld st pre post :
  upsert_loop save_error ld st (pre ++ post)
  = match upsert_loop save_error ld st pre with
    | Continue st1 => upsert_loop save_error ld st1 post
    | Stop r st1 => Stop r st1
    end.
Proof.
  revert st. induction pre as [|[k r] pre IH]; intros st; simpl; [reflexivity|].
  destruct (upsert_item save_error ld st k r); [apply IH | reflexivity].
Qed.

(** A loop that stops has stopped on one record, after a prefix that went
    through. *)
Lemma upsert_loop_stop ld ni : forall st res st',
  upsert_loop save_error ld st ni = Stop res st' ->
  exists pre k r post st1,
    ni = pre ++ (k, r) :: post
    /\ upsert_loop save_error ld st pre = Continue st1
    /\ upsert_item save_error ld st1 k r = Stop res st'.
Proof.
  induction ni as [|[k r] ni IH]; intros st res st' H; simpl in H; [discriminate|].
  destruct (upsert_item save_error ld st k r) as [st0|res0 st0] eqn:E.
  - destruct (IH _ _ _ H) as (pre & k1 & r1 & post & st1 & -> & H1 & H2).
    exists ((k, r) :: pre), k1, r1, post, st1. simpl. rewrite E. auto.
  - injection H as <- <-. exists [], k, r, ni, st. auto.
Qed.

(** A property of the state that every outcome of the body keeps holds when
    the loop ends, however it ends. *)
Lemma upsert_loop_inv ld (P : state -> Prop) ni :
  (forall st k r, In (k, r) ni -> P st ->
                  P (flow_state (upsert_item save_error ld st k r))) ->
  forall st, P st -> P (flow_state (upsert_loop save_error ld st ni)).
Proof.
  induction ni as [|[k r] ni IH]; intros HP st H; simpl; [exact H|].
  assert (H0 : P (flow_state (upsert_item save_error ld st k r)))
    by (apply HP; [now left | exact H]).
  destruct (upsert_item save_error ld st k r) as [st0|res0 st0]; simpl in *;
    [|exact H0].
  apply IH; [|exact H0]. intros st1 k1 r1 Hin. apply HP. now right.
Qed.

Lemma item_of_some nitem f v : item_of nitem f = Return v -> rget nitem f = Some v.
Proof. unfold item_of. destruct (rget nitem f); congruence. Qed.

(** What [upsert_args] returns, field by field. *)
Lemma upsert_args_fields nitem args :
  upsert_args nitem = Return args ->
  exists id parent desc nsf_id abbrev active,
    rget nitem "field_of_science_id" = Some id
    /\ rget nitem "parent_field_of_science_id" = Some parent
    /\ rget nitem "field_of_science_desc" = Some desc
    /\ rget nitem "fos_nsf_id" = Some nsf_id
    /\ rget nitem "fos_nsf_abbrev" = Some abbrev
    /\ rget nitem "is_active" = Some active
    /\ args = mkFos id parent (PyStr (py_str desc)) nsf_id
                    (PyStr (py_str abbrev)) (PyStr (py_str active)).
Proof.
  unfold upsert_args, bind.
  destruct (item_of nitem "field_of_science_id") as [id|] eqn:E1; [|discriminate].
  destruct (item_of nitem "parent_field_of_science_id") as [parent|] eqn:E2; [|discriminate].
  destruct (item_of nitem "field_of_science_desc") as [desc|] eqn:E3; [|discriminate].
  destruct (item_of nitem "fos_nsf_id") as [nsf_id|] eqn:E4; [|discriminate].
  destruct (item_of nitem "fos_nsf_abbrev") as [abbrev|] eqn:E5; [|discriminate].
  destruct (item_of nitem "is_active") as [active|] eqn:E6; [|discriminate].
  intros H. inversion H; subst. exists id, parent, desc, nsf_id, abbrev, active.
  repeat split; auto using item_of_some.
Qed.

Lemma upsert_args_id nitem args :
  upsert_args nitem = Return args ->
  rget nitem "field_of_science_id" = Some (field_of_science_id args).
Proof.
  intros H. destruct (upsert_args_fields _ H)
    as (id & parent & desc & nsf_id & abbrev & active & H1 & _ & _ & _ & _ & _ & ->).
  exact H1.
Qed.

Lemma pk_updated_or_created t args : pk (updated_or_created t args) = pk args.
Proof.
  unfold updated_or_created. destruct (tbl_find t (pk args)) as [item|] eqn:E; [|reflexivity].
  apply tbl_find_pk in E. exact E.
Qed.

Lemma upsert_args_carries nitem args t :
  upsert_args nitem = Return args -> carries nitem (updated_or_created t args).
Proof.
  intros H. pose proof (pk_updated_or_created t args) as Hpk.
  destruct (upsert_args_fields _ H)
    as (id & parent & desc & nsf_id & abbrev & active & H1 & H2 & H3 & H4 & H5 & H6 & ->).
  exists id, parent, desc, nsf_id, abbrev, active.
  repeat split; auto; unfold updated_or_created;
    destruct (tbl_find t _); reflexivity.
Qed.

(** C6.  When the upsert of a record fails with a data or integrity error
    (the records before it went through, it is not skipped, its fields are
    there and the destination rejects the save), [Store_Destination] does not
    raise: it returns False with the message that names the kind of error,
    the id of the record and the text of the error, and that message is the
    last record of the log, at level ERROR. *)
Theorem upsert_failure_is_caught_and_reported
        (new_items pre post : snapshot) (new_id : pykey) (nitem : record)
        (st st1 : state) (args : XSEDEFos) (e : db_error) :
  new_items = pre ++ (new_id, nitem) :: post ->
  upsert_loop save_error (load_objects (objects st)) st pre = Continue st1 ->
  skipped (load_objects (objects st)) new_id nitem = false ->
  upsert_args nitem = Return args ->
  save_error (updated_or_created (objects st1) args) = Some e ->
  exists id st',
    rget nitem "field_of_science_id" = Some id
    /\ Store_Destination save_error delete_error new_items st
       = (Return (false, saving_msg e id), st')
    /\ logger st' = logger st1 ++ [(ERROR, saving_msg e id)]
    /\ saving_msg e id
       = (type_name (err_kind e) ++ " saving ID=" ++ py_str id ++ ": " ++ err_text e)%string.
Proof.
  intros -> Hpre Hsk Hargs Herr.
  exists (field_of_science_id args),
         (log ERROR (saving_msg e (field_of_science_id args)) st1).
  split; [now apply upsert_args_id|]. split; [|split; reflexivity].
  unfold Store_Destination. cbv zeta. rewrite upsert_loop_app, Hpre. simpl.
  now rewrite (@upsert_item_fail _ st1 new_id nitem args e Hsk Hargs Herr).
Qed.

(** ** The loop over [self.cur] *)

Lemma delete_loop_rows ni t : forall st,
  delete_loop delete_error ni (map (fun item => (pk item, item)) t) st
  = mkState (del_rows (objects st) (filter (deletable delete_error ni) t))
            (journal st ++ map Deleted (filter (deletable delete_error ni) t))
            (MyUpdateStat st)
            (MyDeleteStat st
             + Z.of_nat (List.length (filter (deletable delete_error ni) t)))
            (MySkipStat st)
            (logger st ++ flat_map (delete_log delete_error ni) t).
Proof.
  unfold delete_loop, del_rows.
  induction t as [|x t IH]; intros st; simpl.
  - destruct st; simpl. f_equal; try (now rewrite app_nil_r); lia.
  - rewrite IH. unfold delete_item, deletable, delete_log, delete, log. simpl.
    destruct (dict_has pykey_eqb ni (pk x)); simpl; [reflexivity|].
    destruct (delete_error x) as [e|]; simpl.
    + f_equal. now rewrite <- app_assoc.
    + f_equal; try (now rewrite <- app_assoc). lia.
Qed.

Lemma tbl_find_del_rows items : forall tb k,
  tbl_find (del_rows tb items) k
  = if existsb (fun item => pykey_eqb k (pk item)) items then None else tbl_find tb k.
Proof.
  unfold del_rows. induction items as [|x items IH]; intros tb k; simpl; [reflexivity|].
  rewrite IH, tbl_find_del.
  destruct (pykey_eqb k (pk x)); simpl; [|reflexivity].
  now destruct (existsb _ items).
Qed.

Lemma NoDup_del_rows items : forall tb,
  NoDup (map pk tb) -> NoDup (map pk (del_rows tb items)).
Proof.
  unfold del_rows. induction items as [|x items IH]; intros tb H; simpl; [exact H|].
  apply IH. now apply NoDup_tbl_del.
Qed.

(** What a run that gets past the first loop returns. *)
Lemma Store_Destination_true ni st st1 :
  NoDup (map pk (objects st)) ->
  upsert_loop save_error (load_objects (objects st)) st ni = Continue st1 ->
  Store_Destination save_error delete_error ni st
  = (Return (true, ""),
     mkState (del_rows (objects st1) (filter (deletable delete_error ni) (objects st)))
             (journal st1 ++ map Deleted (filter (deletable delete_error ni) (objects st)))
             (MyUpdateStat st1)
             (MyDeleteStat st1
              + Z.of_nat (List.length (filter (deletable delete_error ni) (objects st))))
             (MySkipStat st1)
             (logger st1 ++ flat_map (delete_log delete_error ni) (objects st))).
Proof.
  intros ND H. unfold Store_Destination. cbv zeta. rewrite H.
  destruct (@load_objects_spec (objects st) ND) as [-> _]. now rewrite delete_loop_rows.
Qed.

(** The three ways a run ends. *)
Lemma Store_Destination_inv ni st :
  (exists st1, upsert_loop save_error (load_objects (objects st)) st ni = Continue st1
               /\ fst (Store_Destination save_error delete_error ni st) = Return (true, ""))
  \/ exists pre k r post st1,
      ni = pre ++ (k, r) :: post
      /\ upsert_loop save_error (load_objects (objects st)) st pre = Continue st1
      /\ skipped (load_objects (objects st)) k r = false
      /\ ((exists e, upsert_args r = Raise e
                     /\ Store_Destination save_error delete_error ni st = (Raise e, st1))
          \/ (exists args e,
                 upsert_args r = Return args
                 /\ save_error (updated_or_created (objects st1) args) = Some e
                 /\ Store_Destination save_error delete_error ni st
                    = (Return (false, saving_msg e (field_of_science_id args)),
                       log ERROR (saving_msg e (field_of_science_id args)) st1))).
Proof.
  unfold Store_Destination. cbv zeta.
  destruct (upsert_loop save_error (load_objects (objects st)) st ni) as [st1|res st'] eqn:E.
  - left. exists st1. auto.
  - right. destruct (upsert_loop_stop _ _ _ E) as (pre & k & r & post & st1 & -> & H1 & H2).
    exists pre, k, r, post, st1. split; [reflexivity|]. split; [exact H1|].
    destruct (upsert_item_inv (load_objects (objects st)) st1 k r)
      as [[_ H]|[[Sk (e & A & H)]|[[Sk (args & e & A & S & H)]|[_ (args & _ & _ & H)]]]];
      rewrite H in H2; try discriminate H2; inversion H2; subst; split; auto.
    + left. exists e. auto.
    + right. exists args, e. auto.
Qed.

(** ** What the first loop leaves alone *)

Lemma upsert_loop_keeps ld ni st0 :
  let s := flow_state (upsert_loop save_error ld st0 ni) in
  MyDeleteStat s = MyDeleteStat st0
  /\ (exists rows, journal s = journal st0 ++ map Saved rows)
  /\ (forall k, tbl_find (objects st0) k <> None -> tbl_find (objects s) k <> None)
  /\ (NoDup (map pk (objects st0)) -> NoDup (map pk (objects s))).
Proof.
  cbv zeta.
  apply (@upsert_loop_inv ld
           (fun s => MyDeleteStat s = MyDeleteStat st0
                     /\ (exists rows, journal s = journal st0 ++ map Saved rows)
                     /\ (forall k, tbl_find (objects st0) k <> None ->
                                   tbl_find (objects s) k <> None)
                     /\ (NoDup (map pk (objects st0)) -> NoDup (map pk (objects s))))).
  - intros st k r _ (H1 & (rows & H2) & H3 & H4).
    destruct (upsert_item_inv ld st k r)
      as [[_ H]|[[_ (e & _ & H)]|[[_ (args & e & _ & _ & H)]|[_ (args & _ & _ & H)]]]];
      rewrite H; simpl; try (split; [exact H1|split; [exists rows; exact H2|split; assumption]]).
    split; [exact H1|]. split; [|split].
    + exists (rows ++ [updated_or_created (objects st) args;
                       updated_or_created (objects st) args]).
      rewrite H2, map_app, <- app_assoc. reflexivity.
    + intros k0 Hk. rewrite tbl_find_put.
      destruct (pykey_eqb k0 _); [discriminate | now apply H3].
    + intros ND. apply NoDup_tbl_put. now apply H4.
  - split; [reflexivity|]. split; [exists []; simpl; now rewrite app_nil_r|].
    split; auto.
Qed.

Lemma upsert_loop_untouched ld ni st0 k :
  (forall k' r, In (k', r) ni ->
                option_map key_of (rget r "field_of_science_id") <> Some k) ->
  tbl_find (objects (flow_state (upsert_loop save_error ld st0 ni))) k
  = tbl_find (objects st0) k.
Proof.
  intros Hk.
  apply (@upsert_loop_inv ld
           (fun s => tbl_find (objects s) k = tbl_find (objects st0) k)); [|reflexivity].
  intros st k' r Hin H.
  destruct (upsert_item_inv ld st k' r)
    as [[_ E]|[[_ (e & _ & E)]|[[_ (args & e & _ & _ & E)]|[_ (args & A & _ & E)]]]];
    rewrite E; simpl; try exact H.
  rewrite tbl_find_put, pk_updated_or_created.
  rewrite pykey_eqb_neq; [exact H|].
  intros ->. apply (Hk _ _ Hin). unfold pk.
  now rewrite (@upsert_args_id r args A).
Qed.

(** C8.  [Store_Destination] is fail-fast: a run that returns False has
    stopped on one record, on the save that failed; the records after it are
    not looked at (whatever they are, the run ends the same), no row is
    deleted (the count of deletes is unchanged, the destination accepted only
    saves), so every id of the destination is still there, and a row whose id
    no source record carries is still there unchanged. *)
Theorem failed_run_stops_at_first_failure
        (new_items : snapshot) (st st' : state) (msg : string) :
  Store_Destination save_error delete_error new_items st = (Return (false, msg), st') ->
  exists pre new_id nitem post st1,
    new_items = pre ++ (new_id, nitem) :: post
    /\ upsert_loop save_error (load_objects (objects st)) st pre = Continue st1
    /\ objects st' = objects st1 /\ journal st' = journal st1
    /\ (forall post',
           Store_Destination save_error delete_error (pre ++ (new_id, nitem) :: post') st
           = (Return (false, msg), st'))
    /\ MyDeleteStat st' = MyDeleteStat st
    /\ (exists rows, journal st' = journal st ++ map Saved rows)
    /\ (forall item, In item (objects st) -> tbl_find (objects st') (pk item) <> None)
    /\ (NoDup (map pk (objects st)) ->
        forall item,
          In item (objects st) ->
          (forall k r, In (k, r) new_items ->
                       option_map key_of (rget r "field_of_science_id") <> Some (pk item)) ->
          In item (objects st')).
Proof.
  intros H.
  destruct (Store_Destination_inv new_items st)
    as [(st1 & _ & E)|(pre & k & r & post & st1 & -> & Hpre & Sk
                       & [(e & _ & E)|(args & e & A & S & E)])];
    rewrite H in E; try discriminate E.
  inversion E; subst. clear E.
  exists pre, k, r, post, st1.
  pose proof (upsert_loop_keeps (load_objects (objects st)) pre st) as K.
  cbv zeta in K. rewrite Hpre in K. simpl in K. destruct K as (K1 & K2 & K3 & K4).
  split; [reflexivity|]. split; [exact Hpre|]. split; [reflexivity|].
  split; [reflexivity|]. split; [|split; [exact K1|split; [exact K2|split]]].
  - intros post'. unfold Store_Destination. cbv zeta.
    rewrite upsert_loop_app, Hpre. simpl.
    now rewrite (@upsert_item_fail _ st1 k r args e Sk A S).
  - intros item Hin. simpl. apply K3. intros Hn.
    apply tbl_find_none in Hn. apply Hn. now apply in_map.
  - intros ND item Hin Hk. simpl.
    apply tbl_find_in with (k := pk item).
    pose proof (@upsert_loop_untouched (load_objects (objects st)) pre st (pk item)) as U.
    rewrite Hpre in U. simpl in U. rewrite U; [now apply in_tbl_find|].
    intros k' r' Hin'. apply (Hk k' r'). apply in_or_app. now left.
Qed.

(** ** Runs that get past the first loop *)

Lemma same_pk_same_row t x y :
  NoDup (map pk t) -> In x t -> In y t -> pk x = pk y -> x = y.
Proof.
  intros ND Hx Hy E. pose proof (in_tbl_find _ _ ND Hx) as Fx.
  pose proof (in_tbl_find _ _ ND Hy) as Fy. rewrite E in Fx. congruence.
Qed.

Lemma deletable_true ni item :
  deletable delete_error ni item = true <->
  dict_has pykey_eqb ni (pk item) = false /\ delete_error item = None.
Proof.
  unfold deletable. destruct (dict_has pykey_eqb ni (pk item)); simpl;
    destruct (delete_error item); intuition congruence.
Qed.

(** C7.  A deletion that fails is logged and nothing more: in a run that
    returns True, every row of the destination whose id is not in the
    snapshot has its deletion attempted, whatever happened to the others;
    when the destination rejects it, an ERROR record with the kind of error,
    the id and the text is in the log and the row stays; when it accepts it,
    the row is gone, the destination has the delete and an INFO record is in
    the log, which names None for the id: the id is read from the instance
    after the deletion; the count of deletes is the number of accepted
    deletions; and the value returned does not depend on which deletions
    fail. *)
Theorem delete_failure_is_logged_and_not_fatal
        (new_items : snapshot) (st st' : state) (m : string) :
  NoDup (map pk (objects st)) ->
  Store_Destination save_error delete_error new_items st = (Return (true, m), st') ->
  (forall delete_error' : XSEDEFos -> option db_error,
      fst (Store_Destination save_error delete_error' new_items st) = Return (true, m))
  /\ (forall item,
         In item (objects st) ->
         dict_has pykey_eqb new_items (pk item) = false ->
         match delete_error item with
         | Some e =>
             In (ERROR, deleting_msg e (field_of_science_id item)) (logger st')
             /\ tbl_find (objects st') (pk item) <> None
         | None =>
             In (INFO, delete_msg PyNone) (logger st')
             /\ tbl_find (objects st') (pk item) = None
             /\ In (Deleted item) (journal st')
         end)
  /\ MyDeleteStat st'
     = MyDeleteStat st
       + Z.of_nat (List.length (filter (deletable delete_error new_items) (objects st))).
Proof.
  intros ND H.
  destruct (Store_Destination_inv new_items st)
    as [(st1 & Hloop & _)|(pre & k & r & post & st1 & -> & Hpre & Sk
                           & [(e & _ & E)|(args & e & A & S & E)])];
    [|rewrite H in E; discriminate E|rewrite H in E; discriminate E].
  pose proof (upsert_loop_keeps (load_objects (objects st)) new_items st) as K.
  cbv zeta in K. rewrite Hloop in K. simpl in K. destruct K as (K1 & K2 & K3 & K4).
  rewrite (@Store_Destination_true new_items st st1 ND Hloop) in H.
  inversion H; subst. clear H. simpl. split; [|split].
  - intros de'. unfold Store_Destination. cbv zeta. now rewrite Hloop.
  - intros item Hin Hnot. destruct (delete_error item) as [e|] eqn:De.
    + split.
      * apply in_or_app. right. apply in_flat_map. exists item. split; [exact Hin|].
        unfold delete_log. rewrite Hnot, De. now left.
      * rewrite tbl_find_del_rows.
        destruct (existsb _ _) eqn:Ex.
        -- apply existsb_exists in Ex. destruct Ex as (x & Hx & Hpk).
           apply filter_In in Hx. destruct Hx as [Hx Hd].
           apply pykey_eqb_eq in Hpk.
           assert (x = item) by (apply (same_pk_same_row (objects st)); auto).
           subst x. apply deletable_true in Hd. destruct Hd as [_ Hd]. congruence.
        -- apply K3. intros Hn. apply tbl_find_none in Hn. apply Hn. now apply in_map.
    + assert (Hd : In item (filter (deletable delete_error new_items) (objects st))).
      { apply filter_In. split; [exact Hin|]. now apply deletable_true. }
      split; [|split].
      * apply in_or_app. right. apply in_flat_map. exists item. split; [exact Hin|].
        unfold delete_log. rewrite Hnot, De. now left.
      * rewrite tbl_find_del_rows.
        destruct (existsb _ _) eqn:Ex; [reflexivity|].
        exfalso. apply Bool.not_true_iff_false in Ex. apply Ex.
        apply existsb_exists. exists item. split; [exact Hd | apply pykey_eqb_refl].
      * apply in_or_app. right. now apply in_map.
  - now rewrite K1.
Qed.

(** ** What is written *)

Lemma in_tbl_put t row x : In x (tbl_put t row) -> x = row \/ In x t.
Proof.
  induction t as [|y t IH]; simpl.
  - intros [<-|[]]. now left.
  - destruct (pykey_eqb (pk row) (pk y)); simpl.
    + intros [<-|H]; auto.
    + intros [<-|H]; auto. destruct (IH H); auto.
Qed.

Lemma delete_loop_journal ni c : forall st,
  (forall x, In x (objects (delete_loop delete_error ni c st)) -> In x (objects st))
  /\ exists items,
      journal (delete_loop delete_error ni c st) = journal st ++ map Deleted items.
Proof.
  unfold delete_loop.
  induction c as [|[k x] c IH]; intros st; simpl.
  - split; [auto|]. exists []. simpl. now rewrite app_nil_r.
  - destruct (IH (delete_item delete_error ni st k x)) as (O & items & J).
    rewrite J. clear J IH. revert O. unfold delete_item, delete, log. simpl.
    destruct (dict_has pykey_eqb ni k) eqn:Hk; simpl.
    + intros O. split; [exact O|]. now exists items.
    + destruct (delete_error x) as [e|]; simpl; intros O.
      * split; [exact O | now exists items].
      * split.
        -- intros y Hy. apply O in Hy. simpl in Hy. apply in_tbl_del in Hy. tauto.
        -- exists (x :: items). simpl. now rewrite <- app_assoc.
Qed.

Lemma in_del_rows items : forall tb x, In x (del_rows tb items) -> In x tb.
Proof.
  unfold del_rows. induction items as [|y items IH]; intros tb x; simpl; [auto|].
  intros H. apply IH in H. apply in_tbl_del in H. tauto.
Qed.

(** Every row a run saves, and every row it leaves in a table that had none
    of its own, carries a record of the snapshot. *)
Lemma saved_rows_carry ni st :
  let st' := snd (Store_Destination save_error delete_error ni st) in
  (exists ops,
      journal st' = journal st ++ ops
      /\ forall row, In (Saved row) ops ->
                     exists new_id nitem, In (new_id, nitem) ni /\ carries nitem row)
  /\ forall row, In row (objects st') ->
                 In row (objects st)
                 \/ exists new_id nitem, In (new_id, nitem) ni /\ carries nitem row.
Proof.
  cbv zeta.
  set (P := fun s : state =>
              (exists ops,
                  journal s = journal st ++ ops
                  /\ forall row, In (Saved row) ops ->
                                 exists new_id nitem, In (new_id, nitem) ni /\ carries nitem row)
              /\ forall row, In row (objects s) ->
                             In row (objects st)
                             \/ exists new_id nitem, In (new_id, nitem) ni /\ carries nitem row).
  assert (L : P (flow_state (upsert_loop save_error (load_objects (objects st)) st ni))).
  { apply upsert_loop_inv.
    - intros s k r Hin ((ops & J & G) & T). unfold P.
      destruct (upsert_item_inv (load_objects (objects st)) s k r)
        as [[_ E]|[[_ (e & _ & E)]|[[_ (args & e & _ & _ & E)]|[_ (args & A & _ & E)]]]];
        rewrite E; simpl; try (split; [exists ops; auto | exact T]).
      split.
      + exists (ops ++ [Saved (updated_or_created (objects s) args);
                        Saved (updated_or_created (objects s) args)]).
        split; [rewrite J; now rewrite <- app_assoc|].
        intros row Hrow. apply in_app_or in Hrow. destruct Hrow as [Hrow|Hrow]; [auto|].
        assert (row = updated_or_created (objects s) args)
          by (simpl in Hrow; intuition congruence).
        subst row. exists k, r. split; [exact Hin|]. now apply upsert_args_carries.
      + intros row Hrow. apply in_tbl_put in Hrow. destruct Hrow as [->|Hrow]; [|auto].
        right. exists k, r. split; [exact Hin|]. now apply upsert_args_carries.
    - unfold P. split; [|auto].
      exists []. split; [now rewrite app_nil_r | intros ? []]. }
  unfold P in L. clear P. unfold Store_Destination. cbv zeta.
  destruct (upsert_loop save_error (load_objects (objects st)) st ni) as [st1|res st1];
    simpl in *; [|exact L].
  destruct L as ((ops & J & G) & T).
  destruct (delete_loop_journal ni (cur (load_objects (objects st))) st1) as (O & items & J').
  split.
  - exists (ops ++ map Deleted items). split; [rewrite J', J; now rewrite app_assoc|].
    intros row Hrow. apply in_app_or in Hrow. destruct Hrow as [Hrow|Hrow]; [auto|].
    apply in_map_iff in Hrow. destruct Hrow as (x & Hx & _). discriminate Hx.
  - intros row Hrow. apply O in Hrow. auto.
Qed.

(** ** The counts and the writes of a run that returns True *)

Lemma bytes_eqb_eq (a b : list byte) : bytes_eqb a b = true <-> a = b.
Proof.
  unfold bytes_eqb. destruct (list_eq_dec Byte.byte_eq_dec a b); split; congruence.
Qed.

(** A record is skipped exactly when the table holds a row under its key
    with the digest of the record as fingerprint. *)
Lemma skipped_iff t new_id nitem :
  NoDup (map pk t) ->
  skipped (load_objects t) new_id nitem = true <->
  exists item, tbl_find t new_id = Some item /\ fingerprint item = digest nitem.
Proof.
  intros ND. unfold skipped.
  destruct (@load_objects_spec t ND) as [_ ->]. rewrite dict_get_map_pk.
  destruct (tbl_find t new_id) as [item|]; simpl.
  - rewrite bytes_eqb_eq. split.
    + intros H. exists item. auto.
    + intros (item' & [= <-] & H). auto.
  - split; [discriminate|]. intros (item & H & _). discriminate H.
Qed.

Lemma upsert_loop_continue ld ni : forall st st1,
  upsert_loop save_error ld st ni = Continue st1 ->
  exists rows,
    Forall2 (fun e row => carries (snd e) row)
            (filter (fun e => negb (skipped_entry ld e)) ni) rows
    /\ objects st1 = fold_left tbl_put rows (objects st)
    /\ journal st1 = journal st ++ flat_map (fun row => [Saved row; Saved row]) rows
    /\ MyUpdateStat st1 = MyUpdateStat st + Z.of_nat (List.length rows)
    /\ MySkipStat st1
       = MySkipStat st + Z.of_nat (List.length (filter (skipped_entry ld) ni))
    /\ MyDeleteStat st1 = MyDeleteStat st.
Proof.
  induction ni as [|[k r] ni IH]; intros st st1 H; simpl in H.
  - injection H as <-. exists []. simpl. rewrite app_nil_r.
    repeat split; try lia. constructor.
  - cbn [filter]. change (skipped_entry ld (k, r)) with (skipped ld k r).
    destruct (upsert_item_inv ld st k r)
      as [[Sk E]|[[Sk (e & _ & E)]|[[Sk (args & e & _ & _ & E)]|[Sk (args & A & _ & E)]]]];
      rewrite E in H; try discriminate H; rewrite Sk; simpl.
    + destruct (IH _ _ H) as (rows & F & O & J & U & S & D).
      exists rows. simpl in *. repeat split; auto. lia.
    + destruct (IH _ _ H) as (rows & F & O & J & U & S & D).
      exists (updated_or_created (objects st) args :: rows). simpl in *.
      repeat split; auto.
      * constructor; [now apply upsert_args_carries | exact F].
      * rewrite J, <- app_assoc. reflexivity.
      * lia.
Qed.

(** C3, as the code has it.  In a run that returns True: a record of the
    snapshot is skipped, with nothing written, exactly when the destination
    held its id with the same fingerprint; every other record is upserted
    (one row per record, carrying its id, its parent and NSF ids and the
    [str()] of the three other fields, saved twice) and counted as updated;
    every row of the destination whose id is not in the snapshot and whose
    deletion the destination accepts is deleted and counted as deleted; and
    the destination sees all the saves before the first delete. *)
Theorem successful_run_skips_upserts_then_deletes
        (new_items : snapshot) (st st' : state) (m : string) :
  NoDup (map pk (objects st)) ->
  Store_Destination save_error delete_error new_items st = (Return (true, m), st') ->
  let ld := load_objects (objects st) in
  let gone := filter (deletable delete_error new_items) (objects st) in
  (forall new_id nitem,
      skipped ld new_id nitem = true <->
      exists item, tbl_find (objects st) new_id = Some item
                   /\ fingerprint item = digest nitem)
  /\ (forall item,
         In item gone <->
         In item (objects st) /\ ~ In (pk item) (keys new_items)
         /\ delete_error item = None)
  /\ exists rows,
      Forall2 (fun e row => carries (snd e) row)
              (filter (fun e => negb (skipped_entry ld e)) new_items) rows
      /\ journal st'
         = journal st ++ flat_map (fun row => [Saved row; Saved row]) rows
                   ++ map Deleted gone
      /\ objects st' = del_rows (fold_left tbl_put rows (objects st)) gone
      /\ MySkipStat st'
         = MySkipStat st
           + Z.of_nat (List.length (filter (skipped_entry ld) new_items))
      /\ MyUpdateStat st'
         = MyUpdateStat st
           + Z.of_nat (List.length (filter (fun e => negb (skipped_entry ld e)) new_items))
      /\ MyDeleteStat st' = MyDeleteStat st + Z.of_nat (List.length gone).
Proof.
  intros ND H. cbv zeta.
  destruct (Store_Destination_inv new_items st)
    as [(st1 & Hloop & _)|(pre & k & r & post & st1 & -> & Hpre & Sk
                           & [(e & _ & E)|(args & e & A & S & E)])];
    [|rewrite H in E; discriminate E|rewrite H in E; discriminate E].
  rewrite (@Store_Destination_true new_items st st1 ND Hloop) in H.
  inversion H; subst. clear H. simpl.
  destruct (upsert_loop_continue _ _ _ Hloop) as (rows & F & O & J & U & S & D).
  split; [|split].
  - intros new_id nitem. now apply skipped_iff.
  - intros item. rewrite filter_In, deletable_true.
    rewrite <- (dict_has_in pykey_eqb pykey_eqb_eq).
    destruct (dict_has pykey_eqb new_items (pk item)); intuition congruence.
  - exists rows. rewrite O, J, U, S, D, <- (Forall2_length F), <- app_assoc.
    repeat split; auto.
Qed.

(** ** The table after a run that returns True *)

Lemma key_of_inj a b :
  is_bool a = false -> is_bool b = false -> key_of a = key_of b -> a = b.
Proof.
  destruct a, b; simpl; intros Ha Hb H; try discriminate; congruence.
Qed.

Lemma updated_or_created_put t model args :
  pk args <> pk model ->
  updated_or_created (tbl_put t model) args = updated_or_created t args.
Proof.
  intros N. unfold updated_or_created. rewrite tbl_find_put.
  now rewrite (pykey_eqb_neq N).
Qed.

Lemma filed_under_id_tail k r ni : filed_under_id ((k, r) :: ni) -> filed_under_id ni.
Proof. intros H k' r' Hin. apply H. now right. Qed.

Lemma filed_pk ni k r args :
  filed_under_id ni -> In (k, r) ni -> upsert_args r = Return args -> pk args = k.
Proof.
  intros F Hin A. specialize (F k r Hin). unfold pk.
  rewrite (@upsert_args_id r args A) in F. simpl in F. congruence.
Qed.

(** The row under each key after the first loop. *)
Lemma upsert_loop_lookup ld ni : forall st st1,
  NoDup (keys ni) -> filed_under_id ni ->
  upsert_loop save_error ld st ni = Continue st1 ->
  forall k,
    tbl_find (objects st1) k
    = match dict_get pykey_eqb ni k with
      | None => tbl_find (objects st) k
      | Some r =>
          if skipped ld k r then tbl_find (objects st) k
          else match upsert_args r with
               | Return args => Some (updated_or_created (objects st) args)
               | Raise _ => tbl_find (objects st) k
               end
      end.
Proof.
  induction ni as [|[k0 r0] ni IH]; intros st st1 ND F H k; simpl in H.
  - injection H as <-. reflexivity.
  - simpl in ND. inversion ND as [|? ? Hn ND']; subst.
    pose proof (filed_under_id_tail F) as F'.
    assert (G0 : dict_get pykey_eqb ni k0 = None)
      by now apply (dict_get_none pykey_eqb pykey_eqb_eq).
    simpl. destruct (upsert_item_inv ld st k0 r0)
      as [[Sk E]|[[Sk (e & _ & E)]|[[Sk (args & e & _ & _ & E)]|[Sk (args & A & _ & E)]]]];
      rewrite E in H; try discriminate H;
      pose proof (IH _ _ ND' F' H) as L.
    + destruct (pykey_eqb k k0) eqn:Ek.
      * apply pykey_eqb_eq in Ek. subst k. rewrite Sk, L, G0. reflexivity.
      * rewrite L. reflexivity.
    + assert (Hpk : pk args = k0) by (apply (@filed_pk _ k0 r0 args F); [now left | exact A]).
      destruct (pykey_eqb k k0) eqn:Ek.
      * apply pykey_eqb_eq in Ek. subst k. rewrite Sk, A, L, G0. simpl.
        rewrite tbl_find_put, pk_updated_or_created, Hpk. now rewrite pykey_eqb_refl.
      * assert (Nk : k <> k0).
        { intros ->. rewrite pykey_eqb_refl in Ek. discriminate Ek. }
        rewrite L. simpl. rewrite tbl_find_put, pk_updated_or_created, Hpk, Ek.
        destruct (dict_get pykey_eqb ni k) as [r|] eqn:G; [|reflexivity].
        destruct (skipped ld k r); [reflexivity|].
        destruct (upsert_args r) as [args'|] eqn:A'; [|reflexivity].
        rewrite updated_or_created_put; [reflexivity|].
        rewrite pk_updated_or_created, Hpk.
        rewrite (@filed_pk ni k r args' F'); auto.
        now apply (dict_get_in pykey_eqb pykey_eqb_eq).
Qed.

Lemma in_del_rows_iff items : forall tb x,
  In x (del_rows tb items) <-> In x tb /\ ~ In (pk x) (map pk items).
Proof.
  unfold del_rows. induction items as [|y items IH]; intros tb x; simpl; [tauto|].
  rewrite IH, in_tbl_del. intuition.
Qed.

Lemma existsb_pk_false (items : list XSEDEFos) k :
  ~ In k (map pk items) -> existsb (fun item => pykey_eqb k (pk item)) items = false.
Proof.
  intros H. apply Bool.not_true_iff_false. intros E. apply H.
  apply existsb_exists in E. destruct E as (x & Hx & Hk).
  apply pykey_eqb_eq in Hk. subst k. now apply in_map.
Qed.

(** A stable record has the fingerprint of the row written for it. *)
Lemma stable_fingerprint r args :
  stable r -> upsert_args r = Return args -> fingerprint args = digest r.
Proof.
  intros (ND & args' & A & _ & H) A'. rewrite A in A'. injection A' as ->.
  unfold fingerprint. symmetry. apply digest_ext; auto.
  rewrite normalize_model_to_dict, keys_map_norm. apply model_to_dict_NoDup.
Qed.

(** The row the record is written to is the record's own when the row found
    under its id has that id. *)
Lemma updated_or_created_own t args :
  (forall item, tbl_find t (pk args) = Some item ->
                is_bool (field_of_science_id item) = false) ->
  is_bool (field_of_science_id args) = false ->
  updated_or_created t args = args.
Proof.
  intros Ht Ha. unfold updated_or_created.
  destruct (tbl_find t (pk args)) as [item|] eqn:E; [|reflexivity].
  pose proof (tbl_find_pk _ _ E) as Hpk.
  assert (field_of_science_id item = field_of_science_id args)
    by (apply key_of_inj; auto).
  destruct args; simpl in *. congruence.
Qed.

Lemma in_pk_fold_tbl_put rows : forall t k,
  In k (map pk (fold_left tbl_put rows t)) <-> In k (map pk t) \/ In k (map pk rows).
Proof.
  induction rows as [|row rows IH]; intros t k; simpl; [tauto|].
  rewrite IH, in_pk_tbl_put. intuition.
Qed.

Lemma carries_filed ni k r row :
  filed_under_id ni -> In (k, r) ni -> carries r row -> pk row = k.
Proof.
  intros F Hin (id & parent & desc & nsf_id & abbrev & active & H1 & _ & _ & _ & _ & _
                & Hpk & _).
  specialize (F k r Hin). rewrite H1 in F. simpl in F. congruence.
Qed.

(** The rows written are filed under the keys of the records written. *)
Lemma carried_keys ni (l : list (pykey * record)) rows :
  filed_under_id ni -> (forall e, In e l -> In e ni) ->
  Forall2 (fun e row => carries (snd e) row) l rows ->
  map pk rows = map fst l.
Proof.
  intros F Hl H. induction H as [|[k r] row l rows Hc H IH]; simpl; [reflexivity|].
  rewrite IH by (intros e He; apply Hl; now right). f_equal.
  apply (@carries_filed ni k r row F); [apply Hl; now left | exact Hc].
Qed.

(** The ids of the destination after a run that returns True: they are
    distinct, every key of the snapshot is among them, and one that is not a
    key of the snapshot is the id of a row whose deletion failed. *)
Lemma ids_after_true_run ni st st' m :
  NoDup (map pk (objects st)) -> filed_under_id ni ->
  Store_Destination save_error delete_error ni st = (Return (true, m), st') ->
  NoDup (map pk (objects st'))
  /\ (forall k, In k (keys ni) -> In k (map pk (objects st')))
  /\ (forall k, In k (map pk (objects st')) -> ~ In k (keys ni) ->
                exists item, In item (objects st) /\ pk item = k
                             /\ delete_error item <> None).
Proof.
  intros ND F H.
  destruct (Store_Destination_inv ni st)
    as [(st1 & Hloop & _)|(pre & k & r & post & st1 & -> & Hpre & Sk
                           & [(e & _ & E)|(args & e & A & S & E)])];
    [|rewrite H in E; discriminate E|rewrite H in E; discriminate E].
  rewrite (@Store_Destination_true ni st st1 ND Hloop) in H.
  inversion H; subst. clear H. simpl.
  pose proof (upsert_loop_keeps (load_objects (objects st)) ni st) as K.
  cbv zeta in K. rewrite Hloop in K. simpl in K. destruct K as (_ & _ & _ & K4).
  destruct (upsert_loop_continue _ _ _ Hloop) as (rows & C & O & _).
  assert (Hrows : map pk rows
                  = map fst (filter (fun e => negb (skipped_entry
                                                      (load_objects (objects st)) e)) ni)).
  { apply (@carried_keys ni _ rows F); [|exact C].
    intros e He. apply filter_In in He. tauto. }
  set (gone := filter (deletable delete_error ni) (objects st)).
  assert (Hgone : forall x, In x gone -> ~ In (pk x) (keys ni)).
  { intros x Hx. apply filter_In in Hx. destruct Hx as [_ Hx].
    apply deletable_true in Hx. destruct Hx as [Hx _]. intros Hin.
    apply (dict_has_in pykey_eqb pykey_eqb_eq) in Hin. congruence. }
  assert (Hwritten : forall k, In k (map pk rows) -> In k (keys ni)).
  { intros k Hk. rewrite Hrows in Hk. apply in_map_iff in Hk.
    destruct Hk as (e & <- & He). apply filter_In in He. destruct He as [He _].
    unfold keys. now apply in_map. }
  split; [|split].
  - apply NoDup_del_rows. now apply K4.
  - intros k Hk.
    assert (H1 : In k (map pk (objects st1))).
    { rewrite O, in_pk_fold_tbl_put. unfold keys in Hk. apply in_map_iff in Hk.
      destruct Hk as ([k' r] & <- & Hkr). simpl.
      destruct (skipped (load_objects (objects st)) k' r) eqn:Sk.
      - left. apply (@skipped_iff (objects st) k' r ND) in Sk.
        destruct Sk as (item & Hf & _).
        destruct (in_dec pykey_eq_dec k' (map pk (objects st))) as [Y|N]; [exact Y|].
        apply tbl_find_none in N. congruence.
      - right. rewrite Hrows. apply (in_map fst _ (k', r)). apply filter_In.
        split; [exact Hkr|]. unfold skipped_entry. simpl. now rewrite Sk. }
    apply in_map_iff in H1. destruct H1 as (x & Hx & Hxin).
    apply in_map_iff. exists x. split; [exact Hx|]. apply in_del_rows_iff.
    split; [exact Hxin|]. intros Hg. apply in_map_iff in Hg.
    destruct Hg as (y & Hy & Hyin). apply (Hgone y Hyin). now rewrite Hy, Hx.
  - intros k Hk Hn. apply in_map_iff in Hk. destruct Hk as (x & Hx & Hxin).
    apply in_del_rows_iff in Hxin. destruct Hxin as [Hx1 Hx2].
    assert (H0 : In k (map pk (objects st))).
    { assert (H1 : In k (map pk (objects st1))) by (rewrite <- Hx; now apply in_map).
      rewrite O, in_pk_fold_tbl_put in H1. destruct H1 as [H1|H1]; [exact H1|].
      exfalso. apply Hn. now apply Hwritten. }
    apply in_map_iff in H0. destruct H0 as (item & Hpk & Hin).
    exists item. split; [exact Hin|]. split; [exact Hpk|]. intros De.
    apply Hx2. rewrite Hx, <- Hpk. apply in_map. apply filter_In.
    split; [exact Hin|]. apply deletable_true. split; [|exact De].
    destruct (dict_has pykey_eqb ni (pk item)) eqn:Dh; [|reflexivity].
    apply (dict_has_in pykey_eqb pykey_eqb_eq) in Dh. rewrite Hpk in Dh. contradiction.
Qed.

(** The row under the id of a stable record after a run that returns True. *)
Lemma row_after_true_run ni st st' m :
  NoDup (map pk (objects st)) -> NoDup (keys ni) -> filed_under_id ni ->
  Store_Destination save_error delete_error ni st = (Return (true, m), st') ->
  forall k r,
    In (k, r) ni -> stable r ->
    (forall item, tbl_find (objects st) k = Some item ->
                  is_bool (field_of_science_id item) = false) ->
    exists item, tbl_find (objects st') k = Some item /\ fingerprint item = digest r.
Proof.
  intros ND NK F H k r Hin St NB.
  destruct (Store_Destination_inv ni st)
    as [(st1 & Hloop & _)|(pre & k0 & r0 & post & st1 & -> & Hpre & Sk
                           & [(e & _ & E)|(args & e & A & S & E)])];
    [|rewrite H in E; discriminate E|rewrite H in E; discriminate E].
  rewrite (@Store_Destination_true ni st st1 ND Hloop) in H.
  inversion H; subst. clear H. simpl.
  pose proof (@upsert_loop_lookup _ ni st st1 NK F Hloop) as L.
  rewrite tbl_find_del_rows, existsb_pk_false.
  - rewrite L, (in_dict_get pykey_eqb pykey_eqb_eq _ _ _ NK Hin).
    destruct (skipped (load_objects (objects st)) k r) eqn:Sk.
    + now apply skipped_iff.
    + destruct St as (NDr & args & A & B & Hs). rewrite A.
      exists (updated_or_created (objects st) args). split; [reflexivity|].
      assert (Hpk : pk args = k) by (apply (@filed_pk ni k r args F); assumption).
      rewrite updated_or_created_own; [|rewrite Hpk; exact NB|exact B].
      apply stable_fingerprint; [|exact A]. split; [exact NDr|]. now exists args.
  - intros Hk. apply in_map_iff in Hk. destruct Hk as (x & Hx & Hxin).
    apply filter_In in Hxin. destruct Hxin as [_ Hd].
    apply deletable_true in Hd. destruct Hd as [Hd _].
    assert (Hkin : In k (keys ni)) by (unfold keys; now apply (in_map fst _ (k, r))).
    apply (dict_has_in pykey_eqb pykey_eqb_eq) in Hkin. congruence.
Qed.

(** C1, as the code has it.  After a run that returns True, on a table with
    one row per id and a snapshot whose records are filed under their ids,
    the ids of the destination are distinct and every id of the snapshot is
    one of them; when no deletion failed, the ids of the destination are the
    ids of the snapshot; and the row under the id of a record has the
    fingerprint of the record when the record is stable and the row that
    was under its id, if there was one, did not have a boolean as id. *)
Theorem successful_run_without_failed_delete_converges
        (new_items : snapshot) (st st' : state) (m : string) :
  NoDup (map pk (objects st)) -> filed_under_id new_items ->
  Store_Destination save_error delete_error new_items st = (Return (true, m), st') ->
  NoDup (map pk (objects st'))
  /\ (forall k, In k (keys new_items) -> In k (map pk (objects st')))
  /\ ((forall item, In item (objects st) -> ~ In (pk item) (keys new_items) ->
                    delete_error item = None) ->
      forall k, In k (map pk (objects st')) <-> In k (keys new_items))
  /\ (NoDup (keys new_items) ->
      forall k r,
        In (k, r) new_items -> stable r ->
        (forall item, tbl_find (objects st) k = Some item ->
                      is_bool (field_of_science_id item) = false) ->
        exists item, In item (objects st') /\ pk item = k
                     /\ fingerprint item = digest r).
Proof.
  intros ND F H.
  destruct (@ids_after_true_run _ _ _ _ ND F H) as (ND' & Hin & Hout).
  split; [exact ND'|]. split; [exact Hin|]. split.
  - intros Hdel k. split; [|apply Hin].
    intros Hk. destruct (in_dec pykey_eq_dec k (keys new_items)) as [Y|N]; [exact Y|].
    exfalso. destruct (Hout k Hk N) as (item & Hi & Hpk & Hd).
    apply Hd. apply Hdel; [exact Hi | now rewrite Hpk].
  - intros NK k r Hkr St NB.
    destruct (@row_after_true_run _ _ _ _ ND NK F H k r Hkr St NB) as (item & Hf & Hd).
    exists item. split; [now apply tbl_find_in with (k := k)|].
    split; [now apply tbl_find_pk with (t := objects st')|exact Hd].
Qed.

(** C9.  What an upsert stores is the record's own values under its id,
    with the [str()] of the description, of the abbreviation and of the
    active flag.  When the run reaches a record that is not skipped, has the
    six fields and whose save the destination accepts, the record is
    upserted: the row written has the id, the parent and the NSF id of the
    record and the text [str(value)] in the three other fields, so a null
    abbreviation is stored as the text None and a boolean active flag as the
    text True or False; the row is in the table under its id right after,
    and the destination has seen it saved, twice.  With one row per id and
    the records filed under their ids, the row is still the one under the id
    of the record when the run ends, however it ends.  And every save of the
    run is that of a row that carries a record of the snapshot. *)
Theorem upsert_stores_str_of_values
        (new_items pre post : snapshot) (new_id : pykey) (nitem : record)
        (st st1 : state) (args : XSEDEFos) :
  new_items = pre ++ (new_id, nitem) :: post ->
  upsert_loop save_error (load_objects (objects st)) st pre = Continue st1 ->
  skipped (load_objects (objects st)) new_id nitem = false ->
  upsert_args nitem = Return args ->
  save_error (updated_or_created (objects st1) args) = None ->
  let row := updated_or_created (objects st1) args in
  let st2 := saved_state row (field_of_science_id args) st1 in
  let st' := snd (Store_Destination save_error delete_error new_items st) in
  carries nitem row
  /\ (rget nitem "fos_nsf_abbrev" = Some PyNone -> fos_nsf_abbrev row = PyStr "None")
  /\ (forall b : bool, rget nitem "is_active" = Some (PyBool b) ->
                       is_active row = PyStr (if b then "True" else "False"))
  /\ upsert_item save_error (load_objects (objects st)) st1 new_id nitem = Continue st2
  /\ tbl_find (objects st2) (pk row) = Some row
  /\ (exists ops, journal st' = journal st1 ++ Saved row :: Saved row :: ops)
  /\ (NoDup (map pk (objects st)) -> NoDup (keys new_items) -> filed_under_id new_items ->
      pk row = new_id /\ tbl_find (objects st') new_id = Some row)
  /\ (exists ops,
         journal st' = journal st ++ ops
         /\ forall row', In (Saved row') ops ->
                         exists k r, In (k, r) new_items /\ carries r row').
Proof.
  intros Hni Hpre Sk A S. cbv zeta.
  set (ld := load_objects (objects st)) in *.
  set (row := updated_or_created (objects st1) args).
  set (st2 := saved_state row (field_of_science_id args) st1).
  pose proof (@upsert_args_carries nitem args (objects st1) A) as C. fold row in C.
  pose proof (@upsert_item_save ld st1 new_id nitem args Sk A S) as U.
  fold row in U. fold st2 in U.
  assert (T2 : tbl_find (objects st2) (pk row) = Some row).
  { unfold st2, saved_state. simpl. rewrite tbl_find_put. now rewrite pykey_eqb_refl. }
  assert (L : upsert_loop save_error ld st new_items = upsert_loop save_error ld st2 post).
  { rewrite Hni, upsert_loop_app, Hpre. simpl. now rewrite U. }
  pose proof (upsert_loop_keeps ld post st2) as K. cbv zeta in K.
  destruct K as (_ & (rows & KJ) & _ & _).
  assert (J2 : journal st2 = journal st1 ++ [Saved row; Saved row]) by reflexivity.
  split; [exact C|]. split; [|split; [|split; [exact U|split; [exact T2|]]]].
  - destruct C as (id & parent & desc & nsf_id & abbrev & active
                   & _ & _ & _ & _ & H5 & _ & _ & _ & _ & _ & R5 & _).
    intros E. rewrite E in H5. injection H5 as <-. exact R5.
  - destruct C as (id & parent & desc & nsf_id & abbrev & active
                   & _ & _ & _ & _ & _ & H6 & _ & _ & _ & _ & _ & R6).
    intros b E. rewrite E in H6. injection H6 as <-. rewrite R6. now destruct b.
  - split; [|split].
    + unfold Store_Destination. cbv zeta. fold ld. rewrite L.
      destruct (upsert_loop save_error ld st2 post) as [s|res s];
        cbn [flow_state] in KJ; cbn [snd].
      * destruct (delete_loop_journal new_items (cur ld) s) as (_ & items & DJ).
        rewrite DJ, KJ, J2. exists (map Saved rows ++ map Deleted items).
        now rewrite <- !app_assoc.
      * rewrite KJ, J2. exists (map Saved rows). now rewrite <- !app_assoc.
    + intros ND NK F.
      assert (Hin : In (new_id, nitem) new_items) by (rewrite Hni; apply in_elt).
      assert (Hpk : pk row = new_id).
      { unfold row. rewrite pk_updated_or_created.
        apply (@filed_pk new_items new_id nitem args F Hin A). }
      split; [exact Hpk|].
      assert (T : tbl_find (objects (flow_state (upsert_loop save_error ld st2 post))) new_id
                  = Some row).
      { rewrite upsert_loop_untouched; [rewrite <- Hpk; exact T2|].
        intros k' r' Hk' Heq.
        assert (Hk2 : In (k', r') new_items)
          by (rewrite Hni; apply in_or_app; right; now right).
        rewrite (F _ _ Hk2) in Heq. injection Heq as ->.
        rewrite Hni in NK. unfold keys in NK. rewrite map_app in NK. simpl in NK.
        apply NoDup_remove_2 in NK. apply NK. apply in_or_app. right.
        now apply (in_map fst _ (new_id, r')). }
      unfold Store_Destination. cbv zeta. fold ld. rewrite L.
      destruct (upsert_loop save_error ld st2 post) as [s|res s] eqn:E;
        cbn [flow_state] in T; cbn [snd]; [|exact T].
      unfold ld. destruct (@load_objects_spec (objects st) ND) as [-> _].
      rewrite delete_loop_rows. cbn [objects].
      rewrite tbl_find_del_rows, existsb_pk_false; [exact T|].
      intros Hg. apply in_map_iff in Hg. destruct Hg as (x & Hx & Hxin).
      apply filter_In in Hxin. destruct Hxin as [_ Hd].
      apply deletable_true in Hd. destruct Hd as [Hd _].
      assert (Hk : In new_id (keys new_items))
        by (unfold keys; now apply (in_map fst _ (new_id, nitem))).
      apply (dict_has_in pykey_eqb pykey_eqb_eq) in Hk. congruence.
    + now destruct (saved_rows_carry new_items st) as (G & _).
Qed.

(** ** The second run *)

Lemma upsert_loop_all_skipped ld ni : forall st,
  (forall k r, In (k, r) ni -> skipped ld k r = true) ->
  upsert_loop save_error ld st ni
  = Continue (mkState (objects st) (journal st) (MyUpdateStat st) (MyDeleteStat st)
                      (MySkipStat st + Z.of_nat (List.length ni)) (logger st)).
Proof.
  induction ni as [|[k r] ni IH]; intros st H.
  - simpl. destruct st; simpl. do 2 f_equal. lia.
  - cbn [upsert_loop]. rewrite upsert_item_skip by (apply H; now left).
    rewrite IH by (intros k' r' Hin; apply H; now right).
    unfold skip_state. cbn [objects journal MyUpdateStat MyDeleteStat MySkipStat logger].
    do 2 f_equal. cbn [List.length]. lia.
Qed.

Lemma filter_none (A : Type) (f : A -> bool) (l : list A) :
  (forall x, In x l -> f x = false) -> filter f l = [].
Proof.
  induction l as [|a l IH]; simpl; intros H; [reflexivity|].
  rewrite (H a) by now left. apply IH. intros x Hx. apply H. now right.
Qed.

End StoreFacts.

(** C2, as the code has it.  On a table with one row per id and a snapshot
    of stable records filed under their ids (no row under one of these ids
    with a boolean as id), when a first run returns True, a second run on
    the table it left returns True, whatever the destination accepts then:
    it saves nothing and skips every record of the snapshot (zero updates,
    as many skips as the snapshot has records), and it deletes the rows
    whose id is not in the snapshot and whose deletion it accepts, which
    are all rows whose deletion failed in the first run.  So it deletes
    nothing when no deletion failed in the first run, and the skips are then
    as many as the destination has rows; and it deletes nothing when the
    deletions that failed fail again. *)
Theorem second_run_skips_every_record
        (save_error delete_error save_error' delete_error' : XSEDEFos -> option db_error)
        (new_items : snapshot) (st st1 : state) (m : string) :
  NoDup (map pk (objects st)) -> NoDup (keys new_items) -> filed_under_id new_items ->
  (forall k r, In (k, r) new_items ->
               stable r
               /\ forall item, tbl_find (objects st) k = Some item ->
                               is_bool (field_of_science_id item) = false) ->
  Store_Destination save_error delete_error new_items st = (Return (true, m), st1) ->
  forall st2,
    objects st2 = objects st1 ->
    let gone := filter (deletable delete_error' new_items) (objects st2) in
    exists st3,
      Store_Destination save_error' delete_error' new_items st2 = (Return (true, ""), st3)
      /\ MyUpdateStat st3 = MyUpdateStat st2
      /\ MySkipStat st3 = MySkipStat st2 + Z.of_nat (List.length new_items)
      /\ MyDeleteStat st3 = MyDeleteStat st2 + Z.of_nat (List.length gone)
      /\ objects st3 = del_rows (objects st2) gone
      /\ journal st3 = journal st2 ++ map Deleted gone
      /\ (forall item, In item gone ->
                       In item (objects st) /\ ~ In (pk item) (keys new_items)
                       /\ delete_error item <> None /\ delete_error' item = None)
      /\ ((forall item, In item (objects st) -> ~ In (pk item) (keys new_items) ->
                        delete_error item = None) ->
          gone = [] /\ List.length (objects st2) = List.length new_items)
      /\ ((forall item, In item (objects st) -> delete_error item <> None ->
                        delete_error' item <> None) ->
          gone = []).
Proof.
  intros ND NK F St H st2 E gone.
  destruct (@ids_after_true_run save_error delete_error _ _ _ _ ND F H)
    as (ND1 & Hin & Hout).
  rewrite <- E in ND1, Hin, Hout.
  assert (Sk : forall k r, In (k, r) new_items ->
                           skipped (load_objects (objects st2)) k r = true).
  { intros k r Hkr. apply skipped_iff; [exact ND1|]. rewrite E.
    destruct (St k r Hkr) as [S1 S2].
    exact (@row_after_true_run save_error delete_error _ _ _ _ ND NK F H k r Hkr S1 S2). }
  pose proof (@upsert_loop_all_skipped save_error' (load_objects (objects st2))
                new_items st2 Sk) as L.
  rewrite (@Store_Destination_true save_error' delete_error' new_items st2 _ ND1 L).
  fold gone.
  assert (G : forall item, In item gone ->
                           In item (objects st) /\ ~ In (pk item) (keys new_items)
                           /\ delete_error item <> None /\ delete_error' item = None).
  { intros item Hi. unfold gone in Hi. apply filter_In in Hi. destruct Hi as [Hi Hd].
    apply (deletable_true delete_error') in Hd. destruct Hd as [Hd De'].
    assert (Hn : ~ In (pk item) (keys new_items)).
    { intros Hk. apply (dict_has_in pykey_eqb pykey_eqb_eq) in Hk. congruence. }
    destruct (Hout (pk item) (in_map pk _ _ Hi) Hn) as (item0 & H0 & Hpk & De).
    assert (item0 = item).
    { rewrite E in Hi.
      destruct (@Store_Destination_inv save_error delete_error new_items st)
        as [(s1 & Hloop & _)|(pre & k & r & post & s1 & -> & Hpre & _
                              & [(e & _ & X)|(args & e & _ & _ & X)])];
        [|rewrite H in X; discriminate X|rewrite H in X; discriminate X].
      rewrite (@Store_Destination_true save_error delete_error new_items st s1 ND Hloop)
        in H.
      inversion H; subst st1. clear H. simpl in Hi.
      apply (in_del_rows_iff save_error delete_error) in Hi. destruct Hi as [Hi _].
      pose proof (@upsert_loop_untouched save_error (load_objects (objects st))
                    new_items st (pk item)) as U.
      rewrite Hloop in U. simpl in U.
      assert (T : tbl_find (objects s1) (pk item) = tbl_find (objects st) (pk item)).
      { apply U. intros k' r' Hk' Heq. apply Hn. rewrite (F _ _ Hk') in Heq.
        injection Heq as <-. unfold keys. now apply (in_map fst _ (k', r')). }
      pose proof (@upsert_loop_keeps save_error (load_objects (objects st)) new_items st)
        as K.
      cbv zeta in K. rewrite Hloop in K. simpl in K. destruct K as (_ & _ & _ & K4).
      rewrite (in_tbl_find _ _ (K4 ND) Hi) in T.
      rewrite <- Hpk, (in_tbl_find _ _ ND H0) in T. congruence. }
    subst item0. auto. }
  eexists. split; [reflexivity|]. simpl.
  split; [reflexivity|]. split; [lia|]. split; [reflexivity|]. split; [reflexivity|].
  split; [reflexivity|]. split; [exact G|]. split.
  - intros Hok.
    assert (Hg : gone = []).
    { destruct gone as [|x g] eqn:Eg; [reflexivity|]. exfalso.
      destruct (G x (or_introl eq_refl)) as (Hx & Hn & De & _).
      apply De. now apply Hok. }
    split; [exact Hg|].
    rewrite <- (length_map pk), <- (length_map fst).
    apply NoDup_same_length; [exact ND1 | exact NK |].
    intros k. split; [|apply Hin].
    intros Hk. destruct (in_dec pykey_eq_dec k (keys new_items)) as [Y|N]; [exact Y|].
    exfalso. destruct (Hout k Hk N) as (item & Hi & Hpk & Hd).
    apply Hd. apply Hok; [exact Hi | now rewrite Hpk].
  - intros Hagain. destruct gone as [|x g] eqn:Eg; [reflexivity|]. exfalso.
    destruct (G x (or_introl eq_refl)) as (Hx & _ & De & De').
    exact (Hagain x Hx De De').
Qed.


(** * Where the text "none" is normalised *)

Lemma rget_rset (d : record) f v g :
  rget (rset d f v) g = if String.eqb g f then Some v else rget d g.
Proof.
  unfold rget, rset. destruct (String.eqb g f) eqn:E.
  - apply String.eqb_eq in E. subst g. apply dict_get_set_same. exact string_eqb_eq.
  - apply dict_get_set_other; [exact string_eqb_eq|]. now apply String.eqb_neq.
Qed.

Lemma rget_source_record COLS row f :
  rget (source_record COLS row) f
  = if String.eqb f "fos_nsf_abbrev"
    then option_map norm (rget (row_dict COLS row) f)
    else rget (row_dict COLS row) f.
Proof.
  unfold source_record. cbv zeta.
  destruct (String.eqb f "fos_nsf_abbrev") eqn:E.
  - apply String.eqb_eq in E. subst f.
    destruct (rget (row_dict COLS row) "fos_nsf_abbrev") as [na|] eqn:G.
    + unfold norm. simpl. destruct (is_none_text na).
      * rewrite rget_rset. now rewrite String.eqb_refl.
      * exact G.
    + exact G.
  - destruct (rget (row_dict COLS row) "fos_nsf_abbrev") as [na|]; [|reflexivity].
    destruct (is_none_text na); [|reflexivity].
    rewrite rget_rset. now rewrite E.
Qed.

Lemma source_record_NoDup COLS row : NoDup (keys (source_record COLS row)).
Proof.
  unfold source_record. cbv zeta.
  assert (H : NoDup (keys (row_dict COLS row)))
    by (apply dict_of_keys_NoDup; exact string_eqb_eq).
  destruct (rget (row_dict COLS row) "fos_nsf_abbrev") as [na|]; [|exact H].
  destruct (is_none_text na); [|exact H].
  apply NoDup_keys_dict_set; [exact string_eqb_eq | exact H].
Qed.

(** Every record of the snapshot is the record of one of the rows. *)
Lemma Retrieve_Source_records c lg lg' COLS rows DATA k rec :
  c sql = QueryRows COLS rows ->
  Retrieve_Source c lg = (Return DATA, lg') ->
  dict_get pykey_eqb DATA k = Some rec ->
  exists row, In row rows /\ row_id COLS row = Some k /\ rec = source_record COLS row.
Proof.
  intros Hq H Hrec. unfold Retrieve_Source in H. rewrite Hq in H.
  injection H as H _. pose proof (source_rows_spec _ _ _ H) as (G & _ & _).
  rewrite G in Hrec. destruct (last_row COLS k rows) as [row|] eqn:L; [|discriminate].
  injection Hrec as <-. apply last_row_some in L.
  destruct L as (pre & post & -> & Hk & _). exists row. split; [apply in_elt | auto].
Qed.

(** C4, as the code has it.  [Store_Destination] turns every field of a
    destination row that holds the text "none", in any case, into None before
    it computes the fingerprint, so two rows that differ only in this have the
    same fingerprint; [Retrieve_Source] does so for [fos_nsf_abbrev] only: a
    record of the snapshot has the row's values in every other field, and in
    [fos_nsf_abbrev] None for the text "none", so two rows that differ only in
    a [fos_nsf_abbrev] that is "none" in one and null in the other give records
    with the same digest. *)
Theorem none_text_is_normalized_where_the_code_does_it :
  (forall s, lower s = "none" -> norm (PyStr s) = PyNone)
  /\ (forall v, is_none_text v = false -> norm v = v)
  /\ (forall item f,
         rget (normalize (model_to_dict item)) f
         = option_map norm (rget (model_to_dict item) f))
  /\ (forall item1 item2,
         (forall f, option_map norm (rget (model_to_dict item1) f)
                    = option_map norm (rget (model_to_dict item2) f)) ->
         fingerprint item1 = fingerprint item2)
  /\ (forall c lg lg' COLS rows DATA k rec,
         c sql = QueryRows COLS rows ->
         Retrieve_Source c lg = (Return DATA, lg') ->
         dict_get pykey_eqb DATA k = Some rec ->
         exists row,
           In row rows
           /\ rget rec "fos_nsf_abbrev"
              = option_map norm (rget (row_dict COLS row) "fos_nsf_abbrev")
           /\ forall f, f <> "fos_nsf_abbrev" -> rget rec f = rget (row_dict COLS row) f)
  /\ (forall COLS row1 row2,
         (forall f, f <> "fos_nsf_abbrev" ->
                    rget (row_dict COLS row1) f = rget (row_dict COLS row2) f) ->
         option_map norm (rget (row_dict COLS row1) "fos_nsf_abbrev")
         = option_map norm (rget (row_dict COLS row2) "fos_nsf_abbrev") ->
         digest (source_record COLS row1) = digest (source_record COLS row2)).
Proof.
  split; [|split; [|split; [|split; [|split]]]].
  - intros s H. unfold norm. simpl. rewrite H. reflexivity.
  - intros v H. unfold norm. now rewrite H.
  - intros item f. rewrite normalize_model_to_dict. apply rget_map_norm.
  - intros item1 item2 H. unfold fingerprint.
    apply digest_ext;
      try (rewrite normalize_model_to_dict, keys_map_norm; apply model_to_dict_NoDup).
    intros f. rewrite !normalize_model_to_dict, !rget_map_norm. apply H.
  - intros c lg lg' COLS rows DATA k rec Hq H Hrec.
    destruct (Retrieve_Source_records _ _ _ Hq H Hrec) as (row & Hin & _ & ->).
    exists row. split; [exact Hin|]. split.
    + rewrite rget_source_record. reflexivity.
    + intros f Hf. rewrite rget_source_record.
      now rewrite (proj2 (String.eqb_neq f "fos_nsf_abbrev") Hf).
  - intros COLS row1 row2 Hother Habbrev.
    apply digest_ext; try apply source_record_NoDup.
    intros f. rewrite !rget_source_record.
    destruct (String.eqb f "fos_nsf_abbrev") eqn:E.
    + apply String.eqb_eq in E. subst f. exact Habbrev.
    + apply Hother. now apply String.eqb_neq.
Qed.

(** * The snapshots and records the convergence is stated for *)

(** What [Retrieve_Source] returns has one record per id, filed under it. *)
Lemma Retrieve_Source_snapshot_filed c lg lg' DATA :
  Retrieve_Source c lg = (Return DATA, lg') ->
  NoDup (keys DATA) /\ filed_under_id DATA.
Proof.
  intros H. destruct (c sql) as [pgcode pgerror|COLS rows] eqn:Hq.
  - unfold Retrieve_Source in H. rewrite Hq in H. discriminate H.
  - split.
    + unfold Retrieve_Source in H. rewrite Hq in H. injection H as H _.
      pose proof (source_rows_spec _ _ _ H) as (_ & _ & N). apply N. constructor.
    + intros k r Hin.
      assert (ND : NoDup (keys DATA)).
      { unfold Retrieve_Source in H. rewrite Hq in H. injection H as H _.
        pose proof (source_rows_spec _ _ _ H) as (_ & _ & N). apply N. constructor. }
      pose proof (in_dict_get pykey_eqb pykey_eqb_eq _ _ _ ND Hin) as G.
      destruct (Retrieve_Source_records _ _ _ Hq H G) as (row & _ & Hid & ->).
      rewrite rget_source_record. simpl. exact Hid.
Qed.

Lemma norm_text_or_null (v : pyval) : text_or_null v -> norm (PyStr (py_str v)) = v.
Proof.
  destruct v as [|b|z|s]; unfold text_or_null; intros H; try contradiction.
  - reflexivity.
  - unfold norm. cbn [py_str]. now rewrite H.
Qed.

(** A record of the six columns is stable when its id is no boolean, its
    three ids are not the text "none", and its description, abbreviation and
    active flag are null or a text other than "none". *)
Lemma stable_six_fields (id parent desc nsf_id abbrev active : pyval) :
  is_bool id = false ->
  is_none_text id = false -> is_none_text parent = false -> is_none_text nsf_id = false ->
  text_or_null desc -> text_or_null abbrev -> text_or_null active ->
  stable [ ("field_of_science_id", id);
           ("parent_field_of_science_id", parent);
           ("field_of_science_desc", desc);
           ("fos_nsf_id", nsf_id);
           ("fos_nsf_abbrev", abbrev);
           ("is_active", active) ].
Proof.
  intros Hb Hi Hp Hn Hd Ha Hc. split.
  - repeat (constructor; [simpl; intuition discriminate|]). constructor.
  - exists (mkFos id parent (PyStr (py_str desc)) nsf_id
                  (PyStr (py_str abbrev)) (PyStr (py_str active))).
    split; [reflexivity|]. split; [exact Hb|]. intros f.
    rewrite normalize_model_to_dict. unfold model_to_dict, norm_item. simpl map.
    rewrite (norm_text_or_null _ Hd), (norm_text_or_null _ Ha), (norm_text_or_null _ Hc).
    unfold norm. now rewrite Hi, Hp, Hn.
Qed.

(** * The statements at sample inputs *)

Import Sample.

(** C10 at the cursor of three rows: two rows carry the id 1, the snapshot has
    two records. *)
Lemma Retrieve_Source_last_row_wins_witness :
  three_rows sql = QueryRows COLS rows
  /\ Retrieve_Source three_rows [] = (Return three_rows_snapshot, [])
  /\ List.length three_rows_snapshot
     = List.length (nodup option_key_dec (map (row_id COLS) rows))
  /\ NoDup (keys three_rows_snapshot).
Proof.
  split; [reflexivity|]. split; [reflexivity|].
  destruct (@Retrieve_Source_last_row_wins three_rows [] [] COLS rows three_rows_snapshot
              eq_refl eq_refl) as (_ & _ & N & _ & L).
  split; assumption.
Defined.

(** C5 at a record and the same record with its fields the other way round. *)
Lemma digest_independent_of_field_order_witness :
  digest [("b", PyInt 1); ("a", PyStr "x")] = digest [("a", PyStr "x"); ("b", PyInt 1)].
Proof.
  apply (@digest_independent_of_field_order
           [("b", PyInt 1); ("a", PyStr "x")] [("a", PyStr "x"); ("b", PyInt 1)]).
  - repeat constructor; simpl; intuition discriminate.
  - repeat constructor; simpl; intuition discriminate.
  - intros f. unfold rget. simpl.
    destruct (String.eqb f "b") eqn:Eb; destruct (String.eqb f "a") eqn:Ea; try reflexivity.
    apply String.eqb_eq in Eb, Ea. subst f. discriminate Ea.
Defined.

(** C6 at three records, the save of the second rejected. *)
Lemma upsert_failure_is_caught_and_reported_witness :
  exists st',
    Store_Destination reject_save_2 accept three_items (start [])
    = (Return (false, "DataError saving ID=2: value too long"), st')
    /\ logger st' = logger after_physics
                      ++ [(ERROR, "DataError saving ID=2: value too long")].
Proof.
  destruct (@upsert_failure_is_caught_and_reported
              reject_save_2 accept three_items one_item [(KInt 3, biology)]
              (KInt 2) chemistry (start []) after_physics chemistry_row too_long)
    as (id & st' & Hid & Hrun & Hlog & _).
  - reflexivity.
  - vm_compute. reflexivity.
  - vm_compute. reflexivity.
  - reflexivity.
  - reflexivity.
  - injection Hid as <-. exists st'. split; [exact Hrun | exact Hlog].
Defined.

(** C8 at three records, the save of the second rejected, on a table with a
    row that no source record carries: the row is still there. *)
Lemma failed_run_stops_at_first_failure_witness :
  failed_run = (Return (false, "DataError saving ID=2: value too long"), snd failed_run)
  /\ MyDeleteStat (snd failed_run) = 0
  /\ In obsolete_row (objects (snd failed_run)).
Proof.
  assert (H : failed_run
              = (Return (false, "DataError saving ID=2: value too long"), snd failed_run))
    by (vm_compute; reflexivity).
  split; [exact H|].
  destruct (@failed_run_stops_at_first_failure reject_save_2 accept three_items
              (start [obsolete_row]) _ _ H)
    as (pre & new_id & nitem & post & st1 & _ & _ & _ & _ & _ & D & _ & _ & K).
  split; [exact D|]. apply K.
  - repeat constructor. simpl. tauto.
  - now left.
  - intros k r [E|[E|[E|[]]]]; injection E as <- <-; discriminate.
Defined.

(** C7 at a run in which the deletion of row 2 is rejected and that of row 3
    accepted. *)
Lemma delete_failure_is_logged_and_not_fatal_witness :
  run_with_failed_delete = (Return (true, ""), snd run_with_failed_delete)
  /\ In (ERROR, "IntegrityError deleting ID=2: row is referenced")
        (logger (snd run_with_failed_delete))
  /\ tbl_find (objects (snd run_with_failed_delete)) (KInt 2) <> None
  /\ tbl_find (objects (snd run_with_failed_delete)) (KInt 3) = None.
Proof.
  assert (H : run_with_failed_delete = (Return (true, ""), snd run_with_failed_delete))
    by (vm_compute; reflexivity).
  assert (ND : NoDup (map pk (objects (start three_rows_table))))
    by (repeat constructor; simpl; intuition discriminate).
  split; [exact H|].
  destruct (@delete_failure_is_logged_and_not_fatal accept reject_delete_2 one_item
              (start three_rows_table) _ _ ND H) as (_ & G & _).
  pose proof (G chemistry_row (or_intror (or_introl eq_refl)) eq_refl) as G2.
  pose proof (G biology_row (or_intror (or_intror (or_introl eq_refl))) eq_refl) as G3.
  destruct G2 as [L2 F2]. destruct G3 as (_ & F3 & _).
  split; [exact L2|]. split; [exact F2 | exact F3].
Defined.

(** C9 at the snapshot read from a row whose abbreviation is the text NONE:
    the record has a null abbreviation, and the row stored under its id has
    the text None. *)
Lemma upsert_stores_str_of_values_witness :
  Retrieve_Source unnamed_row [] = (Return [(KInt 1, unnamed)], [])
  /\ rget unnamed "fos_nsf_abbrev" = Some PyNone
  /\ tbl_find (objects (snd first_unnamed)) (KInt 1) = Some (row 1 "None" "None" "1")
  /\ fos_nsf_abbrev (row 1 "None" "None" "1") = PyStr "None"
  /\ exists ops,
      journal (snd first_unnamed)
      = Saved (row 1 "None" "None" "1") :: Saved (row 1 "None" "None" "1") :: ops.
Proof.
  split; [reflexivity|]. split; [reflexivity|].
  assert (Sk : skipped (load_objects (objects (start []))) (KInt 1) unnamed = false)
    by (vm_compute; reflexivity).
  pose proof (@upsert_stores_str_of_values
                accept accept [(KInt 1, unnamed)] [] [] (KInt 1) unnamed
                (start []) (start []) (row 1 "None" "None" "1")
                eq_refl eq_refl Sk eq_refl eq_refl) as T.
  cbv zeta in T. destruct T as (_ & N & _ & _ & _ & J & P & _).
  destruct P as [_ P].
  - constructor.
  - repeat constructor; simpl; tauto.
  - intros k r [E|[]]. injection E as <- <-. reflexivity.
  - split; [exact P|]. split; [exact (N eq_refl)|]. exact J.
Defined.

(** C3, as the code has it, at the run in which the deletion of row 2 is
    rejected: one record skipped, none saved, one row deleted. *)
Lemma successful_run_skips_upserts_then_deletes_witness :
  run_with_failed_delete = (Return (true, ""), snd run_with_failed_delete)
  /\ MySkipStat (snd run_with_failed_delete) = 1
  /\ MyUpdateStat (snd run_with_failed_delete) = 0
  /\ MyDeleteStat (snd run_with_failed_delete) = 1.
Proof.
  assert (H : run_with_failed_delete = (Return (true, ""), snd run_with_failed_delete))
    by (vm_compute; reflexivity).
  assert (ND : NoDup (map pk (objects (start three_rows_table))))
    by (repeat constructor; simpl; intuition discriminate).
  split; [exact H|].
  destruct (@successful_run_skips_upserts_then_deletes accept reject_delete_2 one_item
              (start three_rows_table) _ _ ND H)
    as (_ & _ & rows & _ & _ & _ & S & U & D).
  rewrite S, U, D. vm_compute. repeat split; reflexivity.
Defined.

Lemma physics_stable : stable physics.
Proof.
  split; [repeat constructor; simpl; intuition discriminate|].
  exists physics_row. split; [reflexivity|]. split; [reflexivity|].
  intros f. reflexivity.
Qed.

(** C1, as the code has it, at a table with the row 2 and a snapshot with the
    record 1: after the run the destination has the id 1 alone, and the row
    under it has the fingerprint of the record. *)
Lemma successful_run_without_failed_delete_converges_witness :
  first_physics = (Return (true, ""), snd first_physics)
  /\ (forall k, In k (map pk (objects (snd first_physics))) <-> In k (keys one_item))
  /\ NoDup (map pk (objects (snd first_physics)))
  /\ exists item, In item (objects (snd first_physics)) /\ pk item = KInt 1
                  /\ fingerprint item = digest physics.
Proof.
  assert (H : first_physics = (Return (true, ""), snd first_physics))
    by (vm_compute; reflexivity).
  split; [exact H|].
  assert (ND : NoDup (map pk (objects (start [chemistry_row]))))
    by (repeat constructor; simpl; tauto).
  assert (F : filed_under_id one_item).
  { intros k r [E|[]]. injection E as <- <-. reflexivity. }
  destruct (@successful_run_without_failed_delete_converges accept accept one_item
              (start [chemistry_row]) (snd first_physics) "" ND F H) as (N & _ & I & G).
  split; [exact (I (fun _ _ _ => eq_refl))|]. split; [exact N|].
  apply (G ltac:(repeat constructor; simpl; tauto) (KInt 1) physics
           (or_introl eq_refl) physics_stable).
  intros item Hf. simpl in Hf. discriminate Hf.
Defined.

(** C2, as the code has it, at a first run in which the deletion of row 2 is
    rejected and a second run in which it is accepted: the second run skips
    the one record, saves nothing and deletes row 2. *)
Lemma second_run_skips_every_record_witness :
  run_with_failed_delete = (Return (true, ""), snd run_with_failed_delete)
  /\ exists st3,
      Store_Destination accept accept one_item
                        (start (objects (snd run_with_failed_delete)))
      = (Return (true, ""), st3)
      /\ MyUpdateStat st3 = 0 /\ MySkipStat st3 = 1 /\ MyDeleteStat st3 = 1
      /\ journal st3 = [Deleted chemistry_row].
Proof.
  assert (H : run_with_failed_delete = (Return (true, ""), snd run_with_failed_delete))
    by (vm_compute; reflexivity).
  split; [exact H|].
  assert (ND : NoDup (map pk (objects (start three_rows_table))))
    by (repeat constructor; simpl; intuition discriminate).
  assert (NK : NoDup (keys one_item)) by (repeat constructor; simpl; tauto).
  assert (F : filed_under_id one_item).
  { intros k r [E|[]]. injection E as <- <-. reflexivity. }
  assert (St : forall k r, In (k, r) one_item ->
                           stable r
                           /\ forall item,
                               tbl_find (objects (start three_rows_table)) k = Some item ->
                               is_bool (field_of_science_id item) = false).
  { intros k r [E|[]]. injection E as <- <-. split; [exact physics_stable|].
    intros item Hf. simpl in Hf. injection Hf as <-. reflexivity. }
  pose proof (@second_run_skips_every_record accept reject_delete_2 accept accept one_item
                (start three_rows_table) (snd run_with_failed_delete) "" ND NK F St H
                (start (objects (snd run_with_failed_delete))) eq_refl) as T.
  cbv zeta in T. destruct T as (st3 & R & U & S & D & _ & J & _).
  exists st3. split; [exact R|]. split; [exact U|]. split; [exact S|].
  split; [rewrite D; vm_compute; reflexivity|]. rewrite J. vm_compute. reflexivity.
Defined.

(** C4, as the code has it, at two rows that differ in the abbreviation, the
    text NoNe in one and null in the other. *)
Lemma none_text_is_normalized_where_the_code_does_it_witness :
  digest (source_record COLS [PyInt 1; PyStr "NoNe"])
  = digest (source_record COLS [PyInt 1; PyNone]).
Proof.
  destruct none_text_is_normalized_where_the_code_does_it as (_ & _ & _ & _ & _ & G).
  apply G.
  - intros f Hf. unfold rget. simpl.
    destruct (String.eqb f "field_of_science_id"); [reflexivity|].
    apply String.eqb_neq in Hf. now rewrite Hf.
  - reflexivity.
Defined.

(** * Where the code departs from the claims *)

(** C1 fails as stated.  The deletion of row 2 is rejected, the run returns
    True and the destination keeps the id 2, which the snapshot does not have;
    and the record whose description is the text None is stored, by a run that
    returns True, as a row whose fingerprint is not the digest of the record. *)
Lemma a_run_that_returns_True_need_not_converge :
  fst run_with_failed_delete = Return (true, "")
  /\ keys one_item = [KInt 1]
  /\ map pk (objects (snd run_with_failed_delete)) = [KInt 1; KInt 2]
  /\ ~ (forall k, In k (map pk (objects (snd run_with_failed_delete)))
                  <-> In k (keys one_item))
  /\ fst first_unnamed = Return (true, "")
  /\ objects (snd first_unnamed) = [row 1 "None" "None" "1"]
  /\ fingerprint (row 1 "None" "None" "1") <> digest unnamed.
Proof.
  assert (E : map pk (objects (snd run_with_failed_delete)) = [KInt 1; KInt 2])
    by (vm_compute; reflexivity).
  split; [vm_compute; reflexivity|]. split; [reflexivity|]. split; [exact E|].
  split; [|split; [vm_compute; reflexivity|split; [vm_compute; reflexivity|]]].
  - intros H. specialize (H (KInt 2)). rewrite E in H.
    destruct H as [H _]. destruct H as [H|[]]; [right; now left | discriminate H].
  - intros H. vm_compute in H. discriminate H.
Qed.

(** C2 fails as stated: the record read from a row whose description is the
    text None is saved by the first run and saved again by the second, which
    skips nothing. *)
Lemma record_with_text_None_is_updated_on_every_run :
  Retrieve_Source unnamed_row [] = (Return [(KInt 1, unnamed)], [])
  /\ fst first_unnamed = Return (true, "")
  /\ fst second_unnamed = Return (true, "")
  /\ MyUpdateStat (snd second_unnamed) = 1
  /\ MySkipStat (snd second_unnamed) = 0
  /\ List.length (objects (snd first_unnamed)) = 1%nat.
Proof.
  split; [reflexivity|]. repeat split; vm_compute; reflexivity.
Qed.

(** C3 fails as stated: row 2 is in the destination and not in the snapshot,
    its deletion is rejected, and after the run, which returns True, it is
    still there and the count of deletes is that of row 3 alone. *)
Lemma failed_delete_is_neither_deleted_nor_counted :
  fst run_with_failed_delete = Return (true, "")
  /\ In chemistry_row three_rows_table
  /\ ~ In (pk chemistry_row) (keys one_item)
  /\ In chemistry_row (objects (snd run_with_failed_delete))
  /\ MyDeleteStat (snd run_with_failed_delete) = 1
  /\ journal (snd run_with_failed_delete) = [Deleted biology_row].
Proof.
  split; [vm_compute; reflexivity|]. split; [right; now left|].
  split; [intros [H|[]]; discriminate H|].
  assert (E : objects (snd run_with_failed_delete) = [physics_row; chemistry_row])
    by (vm_compute; reflexivity).
  rewrite E. split; [right; now left|]. split; vm_compute; reflexivity.
Qed.

(** C4 fails as stated: [Retrieve_Source] leaves the description that is the
    text None as it is, and the record does not have the digest of the record
    with a null description; [Store_Destination] gives the two rows the same
    fingerprint. *)
Lemma Retrieve_Source_keeps_text_None_in_other_fields :
  Retrieve_Source unnamed_row [] = (Return [(KInt 1, unnamed)], [])
  /\ rget unnamed "field_of_science_desc" = Some (PyStr "None")
  /\ is_none_text (PyStr "None") = true
  /\ digest unnamed <> digest (fos 1 PyNone PyNone (PyStr "1"))
  /\ fingerprint (row 1 "None" "None" "1")
     = fingerprint (mkFos (PyInt 1) PyNone PyNone PyNone PyNone (PyStr "1")).
Proof.
  split; [reflexivity|]. split; [reflexivity|]. split; [reflexivity|]. split.
  - intros H. vm_compute in H. discriminate H.
  - vm_compute. reflexivity.
Qed.

(** * More on Store_Destination *)

Section StoreMore.

Variable save_error : XSEDEFos -> option db_error.
Variable delete_error : XSEDEFos -> option db_error.

Lemma first_missing_spec nitem f :
  first_missing nitem = Some f -> In f upsert_fields /\ rget nitem f = None.
Proof.
  unfold first_missing. intros H. apply find_some in H. destruct H as [H1 H2].
  split; [exact H1|]. now destruct (rget nitem f).
Qed.

(** [upsert_args] raises for the first field the record lacks, and only then. *)
Lemma upsert_args_raise nitem e :
  upsert_args nitem = Raise e <-> exists f, first_missing nitem = Some f /\ e = KeyError f.
Proof.
  unfold upsert_args, bind, item_of, first_missing, upsert_fields. cbn [find].
  destruct (rget nitem "field_of_science_id");
    [|split; [intros [= <-]; eauto | intros (f & [= <-] & ->); reflexivity]].
  destruct (rget nitem "parent_field_of_science_id");
    [|split; [intros [= <-]; eauto | intros (f & [= <-] & ->); reflexivity]].
  destruct (rget nitem "field_of_science_desc");
    [|split; [intros [= <-]; eauto | intros (f & [= <-] & ->); reflexivity]].
  destruct (rget nitem "fos_nsf_id");
    [|split; [intros [= <-]; eauto | intros (f & [= <-] & ->); reflexivity]].
  destruct (rget nitem "fos_nsf_abbrev");
    [|split; [intros [= <-]; eauto | intros (f & [= <-] & ->); reflexivity]].
  destruct (rget nitem "is_active");
    [|split; [intros [= <-]; eauto | intros (f & [= <-] & ->); reflexivity]].
  split; [discriminate | intros (f & H & _); discriminate H].
Qed.

Lemma filter_partition_length (A : Type) (f : A -> bool) (l : list A) :
  (List.length (filter f l) + List.length (filter (fun x => negb (f x)) l))%nat
  = List.length l.
Proof.
  induction l as [|a l IH]; simpl; [reflexivity|].
  destruct (f a); simpl; lia.
Qed.

(** The counters tell how many records the first loop went through. *)
Lemma upsert_loop_counts ld ni st st1 :
  upsert_loop save_error ld st ni = Continue st1 ->
  (MySkipStat st1 - MySkipStat st) + (MyUpdateStat st1 - MyUpdateStat st)
  = Z.of_nat (List.length ni).
Proof.
  intros H. destruct (@upsert_loop_continue save_error ld ni st st1 H)
    as (rows & F & _ & _ & U & S & _).
  rewrite U, S, <- (Forall2_length F), <- (filter_partition_length (skipped_entry ld) ni).
  lia.
Qed.

(** A record that is not skipped and lacks one of the six fields makes
    [Store_Destination] raise [KeyError] with the name of the first field it
    lacks, in the order of the call.  Nothing catches it: the state is the one
    the records before it left (they are counted, skipped or updated), nothing
    is logged for the record, no record after it is looked at and no row is
    deleted. *)
Theorem missing_field_raises_KeyError
        (new_items pre post : snapshot) (new_id : pykey) (nitem : record)
        (st st1 : state) (f : string) :
  new_items = pre ++ (new_id, nitem) :: post ->
  upsert_loop save_error (load_objects (objects st)) st pre = Continue st1 ->
  skipped (load_objects (objects st)) new_id nitem = false ->
  first_missing nitem = Some f ->
  Store_Destination save_error delete_error new_items st = (Raise (KeyError f), st1)
  /\ In f upsert_fields /\ rget nitem f = None
  /\ (forall post',
         Store_Destination save_error delete_error (pre ++ (new_id, nitem) :: post') st
         = (Raise (KeyError f), st1))
  /\ (MySkipStat st1 - MySkipStat st) + (MyUpdateStat st1 - MyUpdateStat st)
     = Z.of_nat (List.length pre)
  /\ MyDeleteStat st1 = MyDeleteStat st
  /\ exists rows, journal st1 = journal st ++ map Saved rows.
Proof.
  intros -> Hpre Sk Hf.
  assert (A : upsert_args nitem = Raise (KeyError f)).
  { apply upsert_args_raise. exists f. auto. }
  assert (R : forall post',
             Store_Destination save_error delete_error (pre ++ (new_id, nitem) :: post') st
             = (Raise (KeyError f), st1)).
  { intros post'. unfold Store_Destination. cbv zeta.
    rewrite upsert_loop_app, Hpre. simpl.
    now rewrite (@upsert_item_raise save_error _ st1 new_id nitem (KeyError f) Sk A). }
  destruct (first_missing_spec _ Hf) as [F1 F2].
  pose proof (@upsert_loop_keeps save_error (load_objects (objects st)) pre st) as K.
  cbv zeta in K. rewrite Hpre in K. simpl in K. destruct K as (K1 & K2 & _).
  split; [apply R|]. split; [exact F1|]. split; [exact F2|]. split; [exact R|].
  split; [now apply (upsert_loop_counts _ _ _ Hpre)|]. split; assumption.
Qed.

Lemma del_rows_all t : del_rows t t = [].
Proof.
  destruct (del_rows t t) as [|x l] eqn:E; [reflexivity|exfalso].
  assert (H : In x (del_rows t t)) by (rewrite E; now left).
  apply (in_del_rows_iff save_error delete_error) in H.
  destruct H as [H1 H2]. apply H2. now apply in_map.
Qed.

Lemma filter_all (A : Type) (f : A -> bool) (l : list A) :
  (forall x, In x l -> f x = true) -> filter f l = l.
Proof.
  induction l as [|a l IH]; simpl; intros H; [reflexivity|].
  rewrite (H a) by now left. f_equal. apply IH. intros x Hx. apply H. now right.
Qed.

(** An empty snapshot empties the destination: on a table with one row per id
    and a destination that accepts the deletions, [Store_Destination] of the
    empty snapshot returns True and leaves no row; every row is counted as
    deleted, nothing is skipped or updated, and the log has one INFO record
    for each row, all the same: the id they name is None, read after the
    deletion. *)
Theorem empty_snapshot_deletes_every_row (st : state) :
  NoDup (map pk (objects st)) ->
  (forall item, In item (objects st) -> delete_error item = None) ->
  Store_Destination save_error delete_error [] st
  = (Return (true, ""),
     mkState [] (journal st ++ map Deleted (objects st))
             (MyUpdateStat st)
             (MyDeleteStat st + Z.of_nat (List.length (objects st)))
             (MySkipStat st)
             (logger st ++ map (fun _ => (INFO, delete_msg PyNone)) (objects st))).
Proof.
  intros ND Hd.
  rewrite (@Store_Destination_true save_error delete_error [] st st ND eq_refl).
  assert (F : filter (deletable delete_error []) (objects st) = objects st).
  { apply filter_all. intros x Hx. unfold deletable. simpl. now rewrite (Hd x Hx). }
  rewrite F, del_rows_all. do 2 f_equal. f_equal.
  clear F ND. induction (objects st) as [|x l IH]; simpl; [reflexivity|].
  unfold delete_log at 1. simpl. rewrite (Hd x) by now left. simpl. f_equal.
  apply IH. intros y Hy. apply Hd. now right.
Qed.

Lemma load_objects_keys t k :
  dict_get pykey_eqb (curdigest (load_objects t)) k = None <-> ~ In k (map pk t).
Proof.
  unfold load_objects.
  assert (G : forall t ld,
             dict_get pykey_eqb (curdigest (fold_left load_item t ld)) k = None
             <-> dict_get pykey_eqb (curdigest ld) k = None /\ ~ In k (map pk t)).
  { clear t. induction t as [|x t IH]; intros ld; simpl; [tauto|].
    rewrite IH. unfold load_item at 1. simpl.
    destruct (pykey_eq_dec k (pk x)) as [->|N].
    - rewrite (dict_get_set_same pykey_eqb pykey_eqb_eq). split.
      + intros [H _]. discriminate H.
      + intros [_ H]. exfalso. apply H. now left.
    - rewrite (dict_get_set_other pykey_eqb pykey_eqb_eq) by exact N.
      split; intros [H1 H2]; split; auto.
      intros [H|H]; [congruence | contradiction]. }
  rewrite G. simpl. tauto.
Qed.

Lemma delete_loop_counts ni c : forall st,
  MyUpdateStat (delete_loop delete_error ni c st) = MyUpdateStat st
  /\ MySkipStat (delete_loop delete_error ni c st) = MySkipStat st.
Proof.
  unfold delete_loop. induction c as [|[k x] c IH]; intros st; simpl; [auto|].
  destruct (IH (delete_item delete_error ni st k x)) as [-> ->].
  unfold delete_item, delete, log. simpl.
  destruct (dict_has pykey_eqb ni k); simpl; [auto|].
  destruct (delete_error x); simpl; auto.
Qed.

(** A record whose key is not an id of the destination is never skipped,
    whatever it holds: the digest kept for an absent id is a str, which no
    digest equals.  So when no key of the snapshot is an id of the
    destination, a run that returns True has saved every record of the
    snapshot and skipped none. *)
Theorem records_with_new_ids_are_never_skipped
        (new_items : snapshot) (st st' : state) (m : string) :
  (forall k, In k (keys new_items) -> ~ In k (map pk (objects st))) ->
  Store_Destination save_error delete_error new_items st = (Return (true, m), st') ->
  (forall e, In e new_items ->
             skipped (load_objects (objects st)) (fst e) (snd e) = false)
  /\ MyUpdateStat st' = MyUpdateStat st + Z.of_nat (List.length new_items)
  /\ MySkipStat st' = MySkipStat st.
Proof.
  intros New H.
  assert (N : forall e, In e new_items ->
                        skipped (load_objects (objects st)) (fst e) (snd e) = false).
  { intros e He. unfold skipped.
    rewrite (proj2 (load_objects_keys (objects st) (fst e))); [reflexivity|].
    apply New. unfold keys. now apply in_map. }
  split; [exact N|].
  unfold Store_Destination in H. cbv zeta in H.
  destruct (upsert_loop save_error (load_objects (objects st)) st new_items)
    as [st1|res st2] eqn:Hloop.
  - injection H as _ <-.
    destruct (delete_loop_counts new_items (cur (load_objects (objects st))) st1) as [-> ->].
    destruct (@upsert_loop_continue save_error _ new_items st st1 Hloop)
      as (rows & F & _ & _ & U & S & _).
    assert (Fs : filter (skipped_entry (load_objects (objects st))) new_items = []).
    { apply filter_none. intros [k r] He. apply (N _ He). }
    assert (Fn : filter (fun e => negb (skipped_entry (load_objects (objects st)) e))
                        new_items = new_items).
    { apply filter_all. intros [k r] He. unfold skipped_entry.
      now rewrite (N _ He). }
    rewrite Fs in S. rewrite Fn in F.
    rewrite U, S, <- (Forall2_length F). simpl. split; lia.
  - destruct (@upsert_loop_stop save_error _ _ _ _ _ Hloop)
      as (pre & k & r & post & st1 & -> & H1 & H2).
    destruct (@upsert_item_inv save_error (load_objects (objects st)) st1 k r)
      as [[_ E]|[[_ (e & _ & E)]|[[_ (args & e & _ & _ & E)]|[_ (args & _ & _ & E)]]]];
      rewrite E in H2; try discriminate H2; injection H2 as <- <-; discriminate H.
Qed.

(** Whatever the outcome, [Store_Destination] keeps the ids of the destination
    distinct, deletes only rows that were in the table, whose id is not a key
    of the snapshot and whose deletion the destination accepts, and does so
    after every save; a row whose id is a key of the snapshot still has a row
    under its id when the run ends. *)
Theorem Store_Destination_deletes_only_ids_the_snapshot_lacks
        (new_items : snapshot) (st : state) :
  NoDup (map pk (objects st)) ->
  NoDup (map pk (objects (snd (Store_Destination save_error delete_error new_items st))))
  /\ (forall item,
         In item (objects st) -> In (pk item) (keys new_items) ->
         tbl_find (objects (snd (Store_Destination save_error delete_error new_items st)))
                  (pk item) <> None)
  /\ exists saved gone,
      journal (snd (Store_Destination save_error delete_error new_items st))
      = journal st ++ map Saved saved ++ map Deleted gone
      /\ forall item, In item gone ->
                      In item (objects st) /\ ~ In (pk item) (keys new_items)
                      /\ delete_error item = None.
Proof.
  intros ND.
  assert (P : forall item, In item (objects st) -> tbl_find (objects st) (pk item) <> None).
  { intros item Hin Hn. apply tbl_find_none in Hn. apply Hn. now apply in_map. }
  destruct (@Store_Destination_inv save_error delete_error new_items st)
    as [(st1 & Hloop & _)|(pre & k & r & post & st1 & -> & Hpre & Sk
                           & [(e & _ & E)|(args & e & A & S & E)])].
  - pose proof (@upsert_loop_keeps save_error (load_objects (objects st)) new_items st) as K.
    cbv zeta in K. rewrite Hloop in K. simpl in K. destruct K as (_ & (rows & K2) & K3 & K4).
    rewrite (@Store_Destination_true save_error delete_error new_items st st1 ND Hloop).
    simpl. split; [|split].
    + apply NoDup_del_rows. now apply K4.
    + intros item Hin Hk. rewrite tbl_find_del_rows, existsb_pk_false.
      * apply K3. now apply P.
      * intros Hg. apply in_map_iff in Hg. destruct Hg as (x & Hx & Hxin).
        apply filter_In in Hxin. destruct Hxin as [_ Hd].
        apply (deletable_true delete_error) in Hd. destruct Hd as [Hd _].
        rewrite Hx in Hd. apply (dict_has_in pykey_eqb pykey_eqb_eq) in Hk. congruence.
    + exists rows, (filter (deletable delete_error new_items) (objects st)).
      split; [rewrite K2; now rewrite <- app_assoc|].
      intros item Hi. apply filter_In in Hi. destruct Hi as [Hi Hd].
      apply (deletable_true delete_error) in Hd. destruct Hd as [Hd He].
      repeat split; auto. intros Hk.
      apply (dict_has_in pykey_eqb pykey_eqb_eq) in Hk. congruence.
  - pose proof (@upsert_loop_keeps save_error (load_objects (objects st)) pre st) as K.
    cbv zeta in K. rewrite Hpre in K. simpl in K. destruct K as (_ & (rows & K2) & K3 & K4).
    rewrite E. simpl. split; [now apply K4|]. split.
    + intros item Hin _. apply K3. now apply P.
    + exists rows, []. simpl. rewrite app_nil_r. split; [exact K2 | intros ? []].
  - pose proof (@upsert_loop_keeps save_error (load_objects (objects st)) pre st) as K.
    cbv zeta in K. rewrite Hpre in K. simpl in K. destruct K as (_ & (rows & K2) & K3 & K4).
    rewrite E. simpl. split; [now apply K4|]. split.
    + intros item Hin _. apply K3. now apply P.
    + exists rows, []. simpl. rewrite app_nil_r. split; [exact K2 | intros ? []].
Qed.

End StoreMore.

(** * More on Retrieve_Source *)

Lemma source_row_outcome COLS DATA row :
  source_row COLS DATA row
  = match row_fault COLS row, row_id COLS row with
    | Some f, _ => Raise (KeyError f)
    | None, Some k => Return (dict_set pykey_eqb DATA k (source_record COLS row))
    | None, None => Return DATA
    end.
Proof.
  unfold source_row, row_fault, row_id, source_record. fold (row_dict COLS row). cbv zeta.
  destruct (rget (row_dict COLS row) "field_of_science_id") as [idv|]; [|reflexivity].
  destruct (rget (row_dict COLS row) "fos_nsf_abbrev") as [na|]; [|reflexivity].
  simpl. destruct (is_none_text na); [|reflexivity].
  f_equal. apply dict_set_twice. exact pykey_eqb_eq.
Qed.

Lemma row_fault_none_id COLS row :
  row_fault COLS row = None -> exists k, row_id COLS row = Some k.
Proof.
  unfold row_fault, row_id.
  destruct (rget (row_dict COLS row) "field_of_science_id") as [idv|]; [|discriminate].
  intros _. now exists (key_of idv).
Qed.

Lemma source_rows_outcome COLS rows : forall DATA,
  match find (fun row => match row_fault COLS row with Some _ => true | None => false end)
             rows with
  | Some row => exists f, row_fault COLS row = Some f
                          /\ source_rows COLS DATA rows = Raise (KeyError f)
  | None => exists DATA', source_rows COLS DATA rows = Return DATA'
  end.
Proof.
  induction rows as [|row rows IH]; intros DATA; simpl.
  - now exists DATA.
  - rewrite source_row_outcome. destruct (row_fault COLS row) as [f|] eqn:F.
    + exists f. auto.
    + destruct (row_fault_none_id _ _ F) as (k & ->). apply IH.
Qed.

Lemma in_keys_fold_dict_set (pairs : list (string * pyval)) : forall acc f,
  In f (keys (fold_left (fun d kv => dict_set String.eqb d (fst kv) (snd kv)) pairs acc))
  <-> In f (keys acc) \/ In f (map fst pairs).
Proof.
  induction pairs as [|[k v] pairs IH]; intros acc f; simpl; [tauto|].
  rewrite IH, (in_keys_dict_set String.eqb string_eqb_eq). intuition.
Qed.

Lemma map_fst_combine_firstn (A B : Type) (l : list A) : forall (l' : list B),
  map fst (combine l l') = firstn (List.length l') l.
Proof.
  induction l as [|a l IH]; intros [|b l']; simpl; try reflexivity.
  now rewrite IH.
Qed.

(** The columns a row has: the first of [COLS], as many as the row has values. *)
Lemma row_dict_has COLS row f :
  rget (row_dict COLS row) f = None <-> ~ In f (firstn (List.length row) COLS).
Proof.
  unfold rget, row_dict, dict_of. rewrite (dict_get_none String.eqb string_eqb_eq).
  rewrite in_keys_fold_dict_set, map_fst_combine_firstn. simpl. tauto.
Qed.

(** [Retrieve_Source] ends in one of three ways.  When the query fails it logs
    one ERROR record with the statement, the code and the text of the error,
    and exits with status 1.  Otherwise it leaves the log alone, and returns a
    snapshot exactly when every row has a value for the columns
    [field_of_science_id] and [fos_nsf_abbrev] (a row has the first columns
    only, as many as it has values); if not it raises [KeyError] for the first
    row that lacks one, for the id if it lacks both. *)
Theorem Retrieve_Source_ends_in_three_ways (c : cursor) (lg : list logrecord) :
  match c sql with
  | QueryError pgcode pgerror =>
      Retrieve_Source c lg
      = (Raise (SystemExit 1), lg ++ [(ERROR, query_failed sql pgcode pgerror)])
  | QueryRows COLS rows =>
      snd (Retrieve_Source c lg) = lg
      /\ (forall row f, rget (row_dict COLS row) f = None
                        <-> ~ In f (firstn (List.length row) COLS))
      /\ match find (fun row => match row_fault COLS row with
                                | Some _ => true
                                | None => false
                                end) rows with
         | Some row =>
             exists f, row_fault COLS row = Some f
                       /\ fst (Retrieve_Source c lg) = Raise (KeyError f)
         | None => exists DATA, fst (Retrieve_Source c lg) = Return DATA
         end
  end.
Proof.
  unfold Retrieve_Source. destruct (c sql) as [pgcode pgerror|COLS rows]; [reflexivity|].
  split; [reflexivity|]. split; [intros row f; apply row_dict_has|].
  simpl. apply (source_rows_outcome COLS rows []).
Qed.

Lemma dict_has_set (V : Type) (d : dict pykey V) k v x :
  dict_has pykey_eqb (dict_set pykey_eqb d k v) x
  = if pykey_eqb x k then true else dict_has pykey_eqb d x.
Proof.
  unfold dict_has. destruct (pykey_eqb x k) eqn:E.
  - apply pykey_eqb_eq in E. subst x.
    now rewrite (dict_get_set_same pykey_eqb pykey_eqb_eq).
  - rewrite (dict_get_set_other pykey_eqb pykey_eqb_eq); [reflexivity|].
    intros ->. rewrite pykey_eqb_refl in E. discriminate E.
Qed.

Lemma filter_filter (A : Type) (f g : A -> bool) (l : list A) :
  filter f (filter g l) = filter (fun x => g x && f x) l.
Proof.
  induction l as [|a l IH]; simpl; [reflexivity|].
  destruct (g a); simpl; [destruct (f a)|]; now rewrite IH.
Qed.

(** The keys of the snapshot after the rows: those it had, then the new ids in
    the order in which they first appear. *)
Lemma source_rows_keys COLS rows : forall DATA DATA',
  source_rows COLS DATA rows = Return DATA' ->
  exists ids,
    map (row_id COLS) rows = map Some ids
    /\ keys DATA'
       = keys DATA ++ filter (fun k => negb (dict_has pykey_eqb DATA k)) (first_seen ids).
Proof.
  induction rows as [|row rows IH]; intros DATA DATA' H; simpl in H.
  - injection H as <-. exists []. simpl. now rewrite app_nil_r.
  - destruct (source_row COLS DATA row) as [D1|] eqn:E; [|discriminate].
    apply source_row_spec in E. destruct E as (k & Hid & ->).
    destruct (IH _ _ H) as (ids & Hids & Hk). exists (k :: ids).
    split; [simpl; now rewrite Hid, Hids|].
    rewrite Hk, keys_dict_set. simpl.
    rewrite filter_filter.
    destruct (dict_has pykey_eqb DATA k) eqn:Dh; simpl.
    + f_equal. apply filter_ext. intros x. rewrite dict_has_set.
      now destruct (pykey_eqb x k).
    + rewrite <- app_assoc. simpl. do 2 f_equal. apply filter_ext. intros x.
      rewrite dict_has_set. now destruct (pykey_eqb x k).
Qed.

(** The snapshot lists the ids in the order in which they first appear among
    the rows; a later row with the same id changes the record, not the place.
    This is the order in which [Store_Destination] goes through the records. *)
Theorem snapshot_keeps_order_of_first_appearance
        (c : cursor) (lg lg' : list logrecord) (COLS : list string)
        (rows : list (list pyval)) (DATA : snapshot) :
  c sql = QueryRows COLS rows ->
  Retrieve_Source c lg = (Return DATA, lg') ->
  exists ids, map (row_id COLS) rows = map Some ids /\ keys DATA = first_seen ids.
Proof.
  intros Hq H. unfold Retrieve_Source in H. rewrite Hq in H. injection H as H _.
  destruct (source_rows_keys _ _ _ H) as (ids & Hids & Hk). exists ids.
  split; [exact Hids|]. rewrite Hk. simpl. apply filter_all. intros x _. reflexivity.
Qed.

Lemma Retrieve_Source_rows_sound c lg lg' COLS rows DATA :
  c sql = QueryRows COLS rows ->
  Retrieve_Source c lg = (Return DATA, lg') ->
  forall row, In row rows -> row_fault COLS row = None.
Proof.
  intros Hq H row Hin. unfold Retrieve_Source in H. rewrite Hq in H. injection H as H _.
  pose proof (source_rows_outcome COLS rows []) as O.
  destruct (find _ rows) as [bad|] eqn:F.
  - destruct O as (f & _ & O). rewrite H in O. discriminate O.
  - pose proof (find_none _ _ F row Hin) as N. simpl in N.
    now destruct (row_fault COLS row).
Qed.

(** On a snapshot that [Retrieve_Source] returned, [Store_Destination] never
    raises [KeyError] for [field_of_science_id] or [fos_nsf_abbrev]: every
    record has both, since [Retrieve_Source] has read them; the fields a
    record can still lack are the four others. *)
Theorem Store_Destination_after_Retrieve_Source_has_id_and_abbrev
        (save_error delete_error : XSEDEFos -> option db_error)
        (c : cursor) (lg lg' : list logrecord) (DATA : snapshot)
        (st st' : state) (f : string) :
  Retrieve_Source c lg = (Return DATA, lg') ->
  Store_Destination save_error delete_error DATA st = (Raise (KeyError f), st') ->
  In f [ "parent_field_of_science_id"; "field_of_science_desc"; "fos_nsf_id"; "is_active" ].
Proof.
  intros HR HS.
  destruct (c sql) as [pgcode pgerror|COLS rows] eqn:Hq.
  { unfold Retrieve_Source in HR. rewrite Hq in HR. discriminate HR. }
  destruct (@Store_Destination_inv save_error delete_error DATA st)
    as [(st1 & _ & E)|(pre & k & r & post & st1 & HD & _ & _
                       & [(e & A & E)|(args & e & _ & _ & E)])];
    [rewrite HS in E; discriminate E| |rewrite HS in E; discriminate E].
  rewrite HS in E. injection E as <- <-.
  apply upsert_args_raise in A. destruct A as (f' & Hf & [= <-]).
  destruct (first_missing_spec _ Hf) as [F1 F2].
  destruct (Retrieve_Source_snapshot_filed _ _ HR) as [ND _].
  assert (Hin : In (k, r) DATA) by (rewrite HD; apply in_elt).
  pose proof (in_dict_get pykey_eqb pykey_eqb_eq _ _ _ ND Hin) as G.
  destruct (Retrieve_Source_records _ _ _ Hq HR G) as (row & Hrow & _ & ->).
  pose proof (Retrieve_Source_rows_sound _ _ Hq HR row Hrow) as Sound.
  rewrite rget_source_record in F2. unfold row_fault in Sound.
  destruct (rget (row_dict COLS row) "field_of_science_id") eqn:R1; [|discriminate Sound].
  destruct (rget (row_dict COLS row) "fos_nsf_abbrev") eqn:R2; [|discriminate Sound].
  unfold upsert_fields in F1. simpl in F1.
  destruct F1 as [<-|[<-|[<-|[<-|[<-|[<-|[]]]]]]]; simpl in F2;
    try (rewrite R1 in F2; discriminate F2);
    try (rewrite R2 in F2; discriminate F2); simpl; auto.
Qed.

(** * Facts about [find] and slices *)

Local Open Scope string_scope.
Local Open Scope Z_scope.

Lemma find_char_ge c s : -1 <= find_char c s.
Proof.
  induction s as [|d s IH]; simpl; [lia|].
  destruct (Ascii.eqb d c); [lia|]. destruct (find_char c s <? 0) eqn:E; [lia|].
  apply Z.ltb_ge in E. lia.
Qed.

Lemma find_char_none c s : find_char c s < 0 <-> contains c s = false.
Proof.
  induction s as [|d s IH]; simpl; [split; [reflexivity | lia]|].
  rewrite (Ascii.eqb_sym c d). destruct (Ascii.eqb d c); simpl; [split; [lia | discriminate]|].
  destruct (find_char c s <? 0) eqn:E.
  - apply Z.ltb_lt in E. split; [intros _; now apply IH | lia].
  - apply Z.ltb_ge in E. split; [lia|]. intros H. apply IH in H. lia.
Qed.

Lemma find_char_app c a b :
  contains c a = false -> find_char c (a ++ String c b) = Z.of_nat (String.length a).
Proof.
  induction a as [|d a IH]; simpl; intros H.
  - now rewrite Ascii.eqb_refl.
  - apply orb_false_iff in H. destruct H as [H1 H2]. rewrite Ascii.eqb_sym in H1.
    rewrite H1, (IH H2). destruct (Z.of_nat (String.length a) <? 0) eqn:E; [|lia].
    apply Z.ltb_lt in E. lia.
Qed.

Lemma find_char_split c s :
  0 <= find_char c s ->
  exists a b, s = a ++ String c b /\ contains c a = false
              /\ find_char c s = Z.of_nat (String.length a).
Proof.
  induction s as [|d s IH]; simpl; [lia|].
  destruct (Ascii.eqb d c) eqn:D.
  - intros _. apply Ascii.eqb_eq in D. subst d. exists "", s. auto.
  - destruct (find_char c s <? 0) eqn:E; [lia|]. apply Z.ltb_ge in E. intros _.
    destruct (IH E) as (a & b & -> & Ha & Hf). exists (String d a), b. simpl.
    rewrite Ascii.eqb_sym, D, Ha, Hf. repeat split. lia.
Qed.

Lemma substring_prefix a b : substring 0 (String.length a) (a ++ b) = a.
Proof. induction a as [|d a IH]; simpl; [now destruct b | now rewrite IH]. Qed.

Lemma substring_all s : substring 0 (String.length s) s = s.
Proof. induction s as [|d s IH]; simpl; [reflexivity | now rewrite IH]. Qed.

Lemma substring_suffix a b :
  substring (String.length a) (String.length b) (a ++ b) = b.
Proof. induction a as [|d a IH]; simpl; [apply substring_all | exact IH]. Qed.

Lemma length_append a b : String.length (a ++ b) = (String.length a + String.length b)%nat.
Proof. induction a as [|d a IH]; simpl; [reflexivity | now rewrite IH]. Qed.

Lemma slice_prefix a b : slice 0 (Some (Z.of_nat (String.length a))) (a ++ b) = a.
Proof.
  unfold slice, clamp. rewrite length_append. simpl (0 <? 0).
  destruct (Z.of_nat (String.length a) <? 0) eqn:E; [apply Z.ltb_lt in E; lia|].
  rewrite !Z.min_l by lia. simpl (Z.to_nat 0).
  rewrite Z.sub_0_r, Nat2Z.id. apply substring_prefix.
Qed.

Lemma slice_suffix a b : slice (Z.of_nat (String.length a)) None (a ++ b) = b.
Proof.
  unfold slice, clamp. rewrite length_append.
  destruct (Z.of_nat (String.length a) <? 0) eqn:E; [apply Z.ltb_lt in E; lia|].
  rewrite Z.min_l by lia. rewrite Nat2Z.id.
  replace (Z.to_nat (Z.of_nat (String.length a + String.length b) - Z.of_nat (String.length a)))
    with (String.length b) by lia.
  apply substring_suffix.
Qed.

(** A text cut at an occurrence of a character. *)
Lemma slice_before a c b :
  slice 0 (Some (Z.of_nat (String.length a))) (a ++ String c b) = a.
Proof. apply slice_prefix. Qed.

Lemma slice_after a c b :
  slice (Z.of_nat (String.length a) + 1) None (a ++ String c b) = b.
Proof.
  replace (a ++ String c b) with ((a ++ String c "") ++ b).
  - replace (Z.of_nat (String.length a) + 1) with (Z.of_nat (String.length (a ++ String c ""))).
    + apply slice_suffix.
    + rewrite length_append. simpl. lia.
  - induction a as [|d a IH]; simpl; [reflexivity | now rewrite IH].
Qed.

(** [p[0:2] == '//'] holds of the texts that begin with two slashes, and
    [p[2:]] is then the rest. *)
Lemma slice_two_slashes p :
  String.eqb (slice 0 (Some 2) p) "//" = true <-> p = "//" ++ slice 2 None p.
Proof.
  split.
  - intros H. apply String.eqb_eq in H.
    destruct p as [|c1 [|c2 p]]; try discriminate H.
    change (String c1 (String c2 p)) with (String c1 (String c2 "") ++ p) in *.
    change 2 with (Z.of_nat (String.length (String c1 (String c2 "")))) in *.
    rewrite slice_prefix in H. rewrite slice_suffix. now rewrite H.
  - intros H. rewrite H. apply String.eqb_eq.
    change 2 with (Z.of_nat (String.length "//")). apply slice_prefix.
Qed.

Lemma slice_two_rest r : slice 2 None ("//" ++ r) = r.
Proof. change 2 with (Z.of_nat (String.length "//")). apply slice_suffix. Qed.

(** What [split_scheme] gives: the text itself when it has no colon beyond
    its first character, else the parts on both sides of the first colon. *)
Lemma split_scheme_spec s :
  (split_scheme s = (s, None) /\ find_char ":" s <= 0)
  \/ exists a b, s = a ++ ":" ++ b /\ a <> "" /\ contains ":" a = false
                 /\ split_scheme s = (a, Some b).
Proof.
  unfold split_scheme. destruct (0 <? find_char ":" s) eqn:E.
  - right. apply Z.ltb_lt in E.
    destruct (@find_char_split ":" s) as (a & b & -> & Ha & Hf); [lia|].
    exists a, b. rewrite Hf in *. rewrite slice_before, slice_after.
    repeat split; auto. intros ->. simpl in E. lia.
  - left. apply Z.ltb_ge in E. auto.
Qed.

Lemma split_scheme_colon a b :
  a <> "" -> contains ":" a = false -> split_scheme (a ++ ":" ++ b) = (a, Some b).
Proof.
  intros Ha Hc. unfold split_scheme. simpl (":" ++ b). rewrite (@find_char_app ":" a b Hc).
  destruct (0 <? Z.of_nat (String.length a)) eqn:E.
  - now rewrite slice_before, slice_after.
  - apply Z.ltb_ge in E. destruct a; [contradiction | simpl in E; lia].
Qed.

Local Open Scope list_scope.

(** * The source and destination arguments *)

Lemma mem_In x l : mem x l = true <-> In x l.
Proof.
  unfold mem. rewrite existsb_exists. split.
  - intros (y & Hy & E). apply String.eqb_eq in E. now subst y.
  - intros H. exists x. split; [exact H | apply String.eqb_refl].
Qed.

Lemma length_lt_1 p : (Z.of_nat (String.length p) <? 1) = true <-> p = ""%string.
Proof.
  destruct p as [|c p]; simpl String.length.
  - split; reflexivity.
  - split; [|discriminate]. intros H. apply Z.ltb_lt in H. lia.
Qed.

Ltac monad :=
  cbv beta iota zeta delta [bindM ret raise sys_exit logger_error logger_info not_None
                            as_str config_item not_valid].

(** What is left of the argument when it is no str: a value of the
    configuration that counts as true. *)
Lemma defaulted_not_str arg config key default v :
  defaulted arg config key default = v ->
  (forall s, v <> PyStr s) ->
  dict_get String.eqb config key = Some v /\ py_truth v = true.
Proof.
  unfold defaulted. intros H N.
  destruct arg as [a|]; simpl in H.
  - destruct (negb (String.eqb a "")) eqn:Ea; simpl in H.
    + rewrite Ea in H. exfalso. now apply (N a).
    + destruct (dict_get String.eqb config key) as [c|] eqn:C.
      * destruct (py_truth c) eqn:T; [now subst c|]. exfalso. now apply (N default).
      * simpl in H. rewrite Ea in H. exfalso. now apply (N default).
  - destruct (dict_get String.eqb config key) as [c|] eqn:C.
    + destruct (py_truth c) eqn:T; [now subst c|]. exfalso. now apply (N default).
    + simpl in H. exfalso. now apply (N default).
Qed.

Lemma init_src_str arg config s lg :
  defaulted arg config "SOURCE_URL" "postgresql://localhost:5432/" = PyStr s ->
  init_src arg config lg
  = (let sp := split_scheme s in
     (if mem (fst sp) ["file"; "http"; "https"; "postgresql"] then ret tt
      else logger_error "Source not {file, http, https}" ;;; sys_exit 1) ;;;
     p <-- (if mem (fst sp) ["http"; "https"; "postgresql"]
            then p <-- not_None (snd sp) ;;
                 (if String.eqb (slice 0 (Some 2) p) "//" then ret tt
                  else logger_error not_followed ;;; sys_exit 1) ;;;
                 ret (Some (slice 2 None p))
            else ret (snd sp)) ;;
     p <-- not_None p ;;
     (if Z.of_nat (String.length p) <? 1
      then logger_error "Source is missing a database name" ;;; sys_exit 1
      else ret tt) ;;;
     ret (mkEndpoint (Some s) (Some (fst sp)) (Some p))) lg.
Proof. intros H. unfold init_src. rewrite H. reflexivity. Qed.

Lemma init_src_form
        (arg : option string) (config : config_t) (lg lg' : list logrecord)
        (ep : endpoint) :
  init_src arg config lg = (Ok ep, lg') ->
  lg' = lg
  /\ exists s sch p,
      defaulted arg config "SOURCE_URL" "postgresql://localhost:5432/" = PyStr s
      /\ ep = mkEndpoint (Some s) (Some sch) (Some p)
      /\ p <> ""%string
      /\ ((sch = "file"%string /\ s = ("file:" ++ p)%string)
          \/ (In sch ["http"; "https"; "postgresql"]%string
              /\ s = (sch ++ "://" ++ p)%string)).
Proof.
  destruct (defaulted arg config "SOURCE_URL" "postgresql://localhost:5432/")
    as [| | |s] eqn:D; try (unfold init_src; rewrite D; monad; discriminate).
  rewrite (init_src_str _ _ lg D). cbv zeta.
  destruct (split_scheme_spec s) as [[E _]|(a & b & -> & Ha & Hc & E)]; rewrite E;
    cbn [fst snd].
  + monad. destruct (mem s ["file"; "http"; "https"; "postgresql"]);
      monad; [|discriminate].
    destruct (mem s ["http"; "https"; "postgresql"]);
      monad; discriminate.
  + monad. destruct (mem a ["file"; "http"; "https"; "postgresql"]) eqn:M4;
      monad;
      [|discriminate].
    destruct (mem a ["http"; "https"; "postgresql"]) eqn:M3; monad.
    * destruct (String.eqb (slice 0 (Some 2) b) "//") eqn:S2;
      monad; [|discriminate].
      destruct (Z.of_nat (String.length (slice 2 None b)) <? 1) eqn:L;
      monad; [discriminate|].
      intros [= <- <-]. split; [reflexivity|].
      exists (a ++ ":" ++ b)%string, a, (slice 2 None b). split; [reflexivity|].
      split; [reflexivity|]. split.
      -- intros P. apply length_lt_1 in P. congruence.
      -- right. split; [now apply mem_In|].
         apply slice_two_slashes in S2. rewrite S2 at 1. reflexivity.
    * destruct (Z.of_nat (String.length b) <? 1) eqn:L;
      monad; [discriminate|].
      intros [= <- <-]. split; [reflexivity|].
      exists (a ++ ":" ++ b)%string, a, b. split; [reflexivity|].
      split; [reflexivity|]. split.
      -- intros P. apply length_lt_1 in P. congruence.
      -- left. apply mem_In in M4. simpl in M4.
         destruct M4 as [<-|[<-|[<-|[<-|[]]]]]; try discriminate M3. auto.
Qed.

(** The sources [__init__] accepts are the texts [file:<path>] and
    [<scheme>://<rest>] for the schemes http, https and postgresql, with a
    path or rest that is not empty; nothing is logged, and [self.src] holds
    the text, the scheme and the path or rest. *)
Theorem init_src_accepts_scheme_and_path
        (arg : option string) (config : config_t) (lg lg' : list logrecord)
        (ep : endpoint) :
  init_src arg config lg = (Ok ep, lg')
  <-> lg' = lg
      /\ exists s sch p,
          defaulted arg config "SOURCE_URL" "postgresql://localhost:5432/" = PyStr s
          /\ ep = mkEndpoint (Some s) (Some sch) (Some p)
          /\ p <> ""%string
          /\ ((sch = "file"%string /\ s = ("file:" ++ p)%string)
              \/ (In sch ["http"; "https"; "postgresql"]%string
                  /\ s = (sch ++ "://" ++ p)%string)).
Proof.
  split; [apply init_src_form|].
  intros (-> & s & sch & p & D & -> & Hp & H).
  rewrite (init_src_str _ _ lg D). cbv zeta.
  assert (L : (Z.of_nat (String.length p) <? 1) = false).
  { destruct (Z.of_nat (String.length p) <? 1) eqn:L; [|reflexivity].
    apply length_lt_1 in L. contradiction. }
  destruct H as [[-> ->]|[Hs ->]].
  + change ("file:" ++ p)%string with ("file" ++ ":" ++ p)%string.
    rewrite split_scheme_colon by (reflexivity || discriminate).
    cbn [fst snd]. monad. simpl. now rewrite L.
  + assert (E : split_scheme (sch ++ "://" ++ p) = (sch, Some ("//" ++ p)%string)).
    { change (sch ++ "://" ++ p)%string with (sch ++ ":" ++ ("//" ++ p))%string.
      simpl in Hs. destruct Hs as [<-|[<-|[<-|[]]]];
        apply split_scheme_colon; (reflexivity || discriminate). }
    assert (M4 : mem sch ["file"; "http"; "https"; "postgresql"] = true).
    { apply mem_In. simpl in *. tauto. }
    assert (M3 : mem sch ["http"; "https"; "postgresql"] = true) by now apply mem_In.
    assert (S2 : String.eqb (slice 0 (Some 2) ("//" ++ p)) "//" = true).
    { apply slice_two_slashes. now rewrite slice_two_rest. }
    rewrite E. cbn [fst snd]. rewrite M4, M3. monad.
    rewrite S2. monad. rewrite slice_two_rest, L. reflexivity.
Qed.

Lemma init_dest_str arg config s lg :
  defaulted arg config "DESTINATION" "analyze" = PyStr s ->
  init_dest arg config lg
  = (let sp := split_scheme s in
     (if mem (fst sp) ["file"; "analyze"; "warehouse"] then ret tt
      else logger_error "Destination not {file, analyze, warehouse}" ;;; sys_exit 1) ;;;
     ret (mkEndpoint (Some s) (Some (fst sp)) (snd sp))) lg.
Proof. intros H. unfold init_dest. rewrite H. reflexivity. Qed.

(** The destinations [__init__] accepts are the three names file, analyze
    and warehouse, alone or followed by a colon and any text; nothing is
    logged.  Unlike a source, a destination may have an empty path or none. *)
Theorem init_dest_accepts_three_names
        (arg : option string) (config : config_t) (lg lg' : list logrecord)
        (ep : endpoint) :
  init_dest arg config lg = (Ok ep, lg')
  <-> lg' = lg
      /\ exists s,
          defaulted arg config "DESTINATION" "analyze" = PyStr s
          /\ ((In s ["file"; "analyze"; "warehouse"]%string
               /\ ep = mkEndpoint (Some s) (Some s) None)
              \/ exists sch p,
                  In sch ["file"; "analyze"; "warehouse"]%string
                  /\ s = (sch ++ ":" ++ p)%string
                  /\ ep = mkEndpoint (Some s) (Some sch) (Some p)).
Proof.
  split.
  - destruct (defaulted arg config "DESTINATION" "analyze")
      as [| | |s] eqn:D; try (unfold init_dest; rewrite D; monad; discriminate).
    rewrite (init_dest_str _ _ lg D). cbv zeta.
    destruct (split_scheme_spec s) as [[E _]|(a & b & -> & Ha & Hc & E)]; rewrite E;
      cbn [fst snd].
    + destruct (mem s ["file"; "analyze"; "warehouse"]) eqn:M; monad; [|discriminate].
      intros [= <- <-]. split; [reflexivity|]. exists s. split; [reflexivity|].
      left. split; [now apply mem_In | reflexivity].
    + destruct (mem a ["file"; "analyze"; "warehouse"]) eqn:M; monad; [|discriminate].
      intros [= <- <-]. split; [reflexivity|]. eexists. split; [reflexivity|].
      right. exists a, b. split; [now apply mem_In|]. split; reflexivity.
  - intros (-> & s & D & H). rewrite (init_dest_str _ _ lg D). cbv zeta.
    destruct H as [[Hs ->]|(sch & p & Hs & -> & ->)].
    + assert (E : split_scheme s = (s, None)).
      { simpl in Hs. destruct Hs as [<-|[<-|[<-|[]]]]; reflexivity. }
      rewrite E. cbn [fst snd]. rewrite (proj2 (mem_In _ _) Hs). reflexivity.
    + assert (E : split_scheme (sch ++ ":" ++ p) = (sch, Some p)).
      { simpl in Hs. destruct Hs as [<-|[<-|[<-|[]]]];
          apply split_scheme_colon; (reflexivity || discriminate). }
      rewrite E. cbn [fst snd]. rewrite (proj2 (mem_In _ _) Hs). reflexivity.
Qed.

Lemma not_str_value arg config key default v :
  defaulted arg config key default = v ->
  (forall s, v <> PyStr s) ->
  dict_get String.eqb config key = Some v /\ py_truth v = true
  /\ forall s, v <> PyStr s.
Proof.
  intros D N. destruct (defaulted_not_str _ _ _ _ D N) as [G T]. auto.
Qed.

(** How the check of the source fails. *)
Lemma init_src_failure arg config lg lg' e :
  init_src arg config lg = (Err e, lg') ->
  (e = Base (SystemExit 1)
   /\ exists msg, In msg init_messages /\ lg' = lg ++ [(ERROR, msg)])
  \/ (e = TypeError /\ lg' = lg
      /\ exists s, defaulted arg config "SOURCE_URL" "postgresql://localhost:5432/" = PyStr s
                   /\ In s ["file"; "http"; "https"; "postgresql"]%string)
  \/ (e = AttributeError /\ lg' = lg
      /\ exists v, dict_get String.eqb config "SOURCE_URL" = Some v
                   /\ py_truth v = true /\ forall s, v <> PyStr s).
Proof.
  assert (X : forall msg, In msg init_messages ->
                          exists m, In m init_messages /\ lg ++ [(ERROR, msg)] = lg ++ [(ERROR, m)]).
  { intros msg H. now exists msg. }
  destruct (defaulted arg config "SOURCE_URL" "postgresql://localhost:5432/")
    as [|b|z|s] eqn:D.
  1-3: unfold init_src; rewrite D; monad; intros [= <- <-]; right; right;
    exact (conj eq_refl (conj eq_refl (ex_intro _ _
             (not_str_value _ _ _ _ D ltac:(intros ?; discriminate))))).
  rewrite (init_src_str _ _ lg D). cbv zeta.
  destruct (split_scheme_spec s) as [[E _]|(a & b & -> & Ha & Hc & E)]; rewrite E;
    cbn [fst snd].
  - destruct (mem s ["file"; "http"; "https"; "postgresql"]) eqn:M4; monad.
    + assert (Hs : In s ["file"; "http"; "https"; "postgresql"]%string) by now apply mem_In.
      destruct (mem s ["http"; "https"; "postgresql"]) eqn:M3; monad;
        intros [= <- <-]; right; left;
          exact (conj eq_refl (conj eq_refl (ex_intro _ s (conj eq_refl Hs)))).
    + intros [= <- <-]. left. split; [reflexivity|]. apply X. simpl. tauto.
  - destruct (mem a ["file"; "http"; "https"; "postgresql"]) eqn:M4; monad.
    + destruct (mem a ["http"; "https"; "postgresql"]) eqn:M3; monad.
      * destruct (String.eqb (slice 0 (Some 2) b) "//") eqn:S2; monad.
        -- destruct (Z.of_nat (String.length (slice 2 None b)) <? 1) eqn:L; monad;
             [|discriminate].
           intros [= <- <-]. left. split; [reflexivity|]. apply X. simpl. tauto.
        -- intros [= <- <-]. left. split; [reflexivity|]. apply X. simpl. tauto.
      * destruct (Z.of_nat (String.length b) <? 1) eqn:L; monad; [|discriminate].
        intros [= <- <-]. left. split; [reflexivity|]. apply X. simpl. tauto.
    + intros [= <- <-]. left. split; [reflexivity|]. apply X. simpl. tauto.
Qed.

(** How the check of the destination fails. *)
Lemma init_dest_failure arg config lg lg' e :
  init_dest arg config lg = (Err e, lg') ->
  (e = Base (SystemExit 1)
   /\ lg' = lg ++ [(ERROR, "Destination not {file, analyze, warehouse}"%string)])
  \/ (e = AttributeError /\ lg' = lg
      /\ exists v, dict_get String.eqb config "DESTINATION" = Some v
                   /\ py_truth v = true /\ forall s, v <> PyStr s).
Proof.
  destruct (defaulted arg config "DESTINATION" "analyze") as [|b|z|s] eqn:D.
  1-3: unfold init_dest; rewrite D; monad; intros [= <- <-]; right;
    exact (conj eq_refl (conj eq_refl (ex_intro _ _
             (not_str_value _ _ _ _ D ltac:(intros ?; discriminate))))).
  rewrite (init_dest_str _ _ lg D). cbv zeta.
  destruct (mem (fst (split_scheme s)) ["file"; "analyze"; "warehouse"]); monad;
    [discriminate|].
  intros [= <- <-]. left. split; reflexivity.
Qed.

Lemma init_src_log arg config lg lg' ep :
  init_src arg config lg = (Ok ep, lg') -> lg' = lg.
Proof. intros H. now apply init_src_form in H. Qed.

Lemma init_dest_log arg config lg lg' ep :
  init_dest arg config lg = (Ok ep, lg') -> lg' = lg.
Proof.
  destruct (defaulted arg config "DESTINATION" "analyze") as [|b|z|s] eqn:D;
    try (unfold init_dest; rewrite D; monad; discriminate).
  rewrite (init_dest_str _ _ lg D). cbv zeta.
  destruct (mem (fst (split_scheme s)) ["file"; "analyze"; "warehouse"]); monad;
    [|discriminate].
  now intros [= _ <-].
Qed.

(** The check of the two arguments logs nothing when it accepts them, and
    raises nothing but the exit with status 1, [TypeError] and
    [AttributeError]. *)
Lemma init_endpoints_kind src dest config lg lg' (r : outcome (endpoint * endpoint)) :
  init_endpoints src dest config lg = (r, lg') ->
  match r with
  | Ok _ => lg' = lg
  | Err e => e = Base (SystemExit 1) \/ e = TypeError \/ e = AttributeError
  end.
Proof.
  unfold init_endpoints, bindM.
  destruct (init_src src config lg) as [[s|e] lg1] eqn:S.
  - apply init_src_log in S. subst lg1.
    destruct (init_dest dest config lg) as [[d|e] lg2] eqn:D.
    + apply init_dest_log in D. subst lg2.
      destruct (is_file s && is_file d); monad; intros [= <- <-]; auto.
    + intros [= <- <-].
      destruct (init_dest_failure _ _ _ D) as [[-> _]|(-> & _)]; auto.
  - intros [= <- <-].
    destruct (init_src_failure _ _ _ S) as [(-> & _)|[(-> & _)|(-> & _)]]; auto.
Qed.

(** The check of the two arguments in [__init__] ends in one of four ways.
    It accepts them and logs nothing, and then they are not both files.  It
    logs one ERROR record, one of five messages, and exits with status 1.
    It raises [TypeError] and logs nothing: the source is one of the four
    scheme names alone, without a colon.  Or it raises [AttributeError] and
    logs nothing: the configuration gives a source or a destination that is
    no str and counts as true. *)
Theorem init_endpoints_ends_in_four_ways
        (src dest : option string) (config : config_t) (lg lg' : list logrecord)
        (r : outcome (endpoint * endpoint)) :
  init_endpoints src dest config lg = (r, lg') ->
  match r with
  | Ok (s, d) => lg' = lg /\ is_file s && is_file d = false
  | Err e =>
      (e = Base (SystemExit 1)
       /\ exists msg, In msg init_messages /\ lg' = lg ++ [(ERROR, msg)])
      \/ (e = TypeError /\ lg' = lg
          /\ exists s,
              defaulted src config "SOURCE_URL" "postgresql://localhost:5432/" = PyStr s
              /\ In s ["file"; "http"; "https"; "postgresql"]%string)
      \/ (e = AttributeError /\ lg' = lg
          /\ exists key v,
              In key ["SOURCE_URL"; "DESTINATION"]%string
              /\ dict_get String.eqb config key = Some v
              /\ py_truth v = true /\ forall s, v <> PyStr s)
  end.
Proof.
  unfold init_endpoints, bindM.
  destruct (init_src src config lg) as [[s|e] lg1] eqn:S.
  - apply init_src_log in S. subst lg1.
    destruct (init_dest dest config lg) as [[d|e] lg2] eqn:D.
    + apply init_dest_log in D. subst lg2.
      destruct (is_file s && is_file d) eqn:F; monad; intros [= <- <-].
      * left. split; [reflexivity|]. eexists. split; [|reflexivity].
        unfold init_messages. simpl. tauto.
      * auto.
    + intros [= <- <-].
      destruct (init_dest_failure _ _ _ D) as [[-> ->]|(-> & -> & v & G & T & N)].
      * left. split; [reflexivity|]. eexists. split; [|reflexivity].
        unfold init_messages. simpl. tauto.
      * right. right. split; [reflexivity|]. split; [reflexivity|].
        exists "DESTINATION"%string, v. simpl. auto.
  - intros [= <- <-].
    destruct (init_src_failure _ _ _ S)
      as [H|[H|(-> & -> & v & G & T & N)]]; [now left | now right; left |].
    right. right. split; [reflexivity|]. split; [reflexivity|].
    exists "SOURCE_URL"%string, v. simpl. auto.
Qed.

(** * Connect_Source *)

Lemma contains_app c a b : contains c (a ++ b) = contains c a || contains c b.
Proof. induction a as [|d a IH]; simpl; [reflexivity|]. now rewrite IH, orb_assoc. Qed.

Lemma length_pos_Z a : a <> ""%string -> (Z.of_nat (String.length a) <=? 0) = false.
Proof. intros H. destruct a; [contradiction|]. apply Z.leb_gt. simpl String.length. lia. Qed.

(** On a valid URL [Connect_Source] goes on to the configuration with the
    two parts of the URL. *)
Lemma Connect_Source_valid config connect hp db lg :
  hp <> ""%string -> contains "/" hp = false ->
  Connect_Source config connect ("postgresql://" ++ hp ++ "/" ++ db) lg
  = (let idx := find_char ":" hp in
     let port := if 0 <? idx then slice (idx + 1) None hp else "5432"%string in
     let host := if 0 <? idx then slice 0 (Some idx) hp else hp in
     user <-- config_item config "SOURCE_DBUSER" ;;
     password <-- config_item config "SOURCE_DBPASS" ;;
     cur <-- match connect (conn_string host port db user password) with
             | inl cur => ret cur
             | inr text => raise (OperationalError text)
             end ;;
     user <-- config_item config "SOURCE_DBUSER" ;;
     logger_info (connected_msg db user) ;;;
     ret cur) lg.
Proof.
  intros Hn Hs.
  change ("postgresql://" ++ hp ++ "/" ++ db)%string
    with ("postgresql" ++ String ":" ("//" ++ (hp ++ String "/" db)))%string.
  unfold Connect_Source. cbv zeta.
  rewrite (@find_char_app ":" "postgresql" ("//" ++ (hp ++ String "/" db)) eq_refl).
  rewrite slice_before, slice_after.
  change (Z.of_nat (String.length "postgresql") <=? 0) with false.
  change (mem "postgresql" ["postgresql"]) with true.
  rewrite (proj2 (slice_two_slashes ("//" ++ (hp ++ String "/" db)))), slice_two_rest
    by now rewrite slice_two_rest.
  rewrite (@find_char_app "/" hp db Hs), slice_before, slice_after.
  rewrite (length_pos_Z Hn). reflexivity.
Qed.

(** Whatever the URL, [Connect_Source] rejects it or it is valid. *)
Lemma Connect_Source_parts config connect url lg :
  Connect_Source config connect url lg = url_rejected lg \/ valid_url url.
Proof.
  unfold Connect_Source, url_rejected. cbv zeta.
  destruct (find_char ":" url <=? 0) eqn:I1; monad; [now left|].
  apply Z.leb_gt in I1.
  destruct (@find_char_split ":" url) as (a & b & -> & Ha & Hf); [lia|].
  rewrite Hf. rewrite slice_before, slice_after.
  destruct (mem a ["postgresql"]) eqn:M; monad; [|now left].
  apply mem_In in M. simpl in M. destruct M as [<-|[]].
  destruct (String.eqb (slice 0 (Some 2) b) "//") eqn:S2; monad; [|now left].
  apply slice_two_slashes in S2.
  destruct (find_char "/" (slice 2 None b) <=? 0) eqn:I2; monad; [now left|].
  apply Z.leb_gt in I2.
  destruct (@find_char_split "/" (slice 2 None b)) as (hp & db & Hb & Hh & Hl); [lia|].
  right. exists hp, db. split; [|split].
  - rewrite S2, Hb. reflexivity.
  - intros ->. rewrite Hl in I2. simpl in I2. lia.
  - exact Hh.
Qed.

(** On a valid URL it ends in one of four ways, none of them an exit. *)
Lemma Connect_Source_valid_outcome config connect hp db lg :
  hp <> ""%string -> contains "/" hp = false ->
  let r := Connect_Source config connect ("postgresql://" ++ hp ++ "/" ++ db) lg in
  (dict_get String.eqb config "SOURCE_DBUSER" = None
   /\ r = (Err (Base (KeyError "SOURCE_DBUSER")), lg))
  \/ (dict_get String.eqb config "SOURCE_DBUSER" <> None
      /\ dict_get String.eqb config "SOURCE_DBPASS" = None
      /\ r = (Err (Base (KeyError "SOURCE_DBPASS")), lg))
  \/ (exists text, r = (Err (OperationalError text), lg))
  \/ (exists cur user,
         dict_get String.eqb config "SOURCE_DBUSER" = Some user
         /\ r = (Ok cur, lg ++ [(INFO, connected_msg db user)])).
Proof.
  intros Hn Hs r. unfold r. rewrite (Connect_Source_valid _ _ _ _ Hn Hs). cbv zeta. monad.
  destruct (dict_get String.eqb config "SOURCE_DBUSER") as [user|]; monad; [|now left].
  destruct (dict_get String.eqb config "SOURCE_DBPASS") as [password|]; monad;
    [|right; left; split; [discriminate | auto]].
  match goal with |- context [connect ?cs] => destruct (connect cs) as [cur|text] end; monad.
  - right. right. right. exists cur, user. auto.
  - right. right. left. now exists text.
Qed.

Lemma Connect_Source_exit_not_valid config connect url lg status lg' :
  Connect_Source config connect url lg = (Err (Base (SystemExit status)), lg') ->
  ~ valid_url url.
Proof.
  intros H (hp & db & -> & Hn & Hs).
  destruct (Connect_Source_valid_outcome config connect db lg Hn Hs)
    as [[_ E]|[(_ & _ & E)|[(text & E)|(cur & user & _ & E)]]];
    rewrite E in H; discriminate H.
Qed.

Lemma Connect_Source_rejected_iff config connect url lg :
  Connect_Source config connect url lg = url_rejected lg <-> ~ valid_url url.
Proof.
  split.
  - intros H. exact (@Connect_Source_exit_not_valid config connect url lg 1 _ H).
  - intros N. destruct (Connect_Source_parts config connect url lg) as [H|H];
      [exact H | contradiction].
Qed.

(** [Connect_Source] rejects exactly the URLs that are not of the form
    [postgresql://<host and port>/<dbname>] with a host and port that is not
    empty and has no slash: it logs that the URL is not valid, once, and
    exits with status 1, whatever the configuration and the database.  It
    exits in no other case. *)
Theorem Connect_Source_rejects_what_is_no_valid_url
        (config : config_t) (connect : connect_t) (url : string) (lg : list logrecord) :
  (Connect_Source config connect url lg = url_rejected lg <-> ~ valid_url url)
  /\ (forall status lg',
         Connect_Source config connect url lg = (Err (Base (SystemExit status)), lg') ->
         ~ valid_url url).
Proof.
  split; [apply Connect_Source_rejected_iff|].
  intros status lg' H. exact (@Connect_Source_exit_not_valid config connect url lg _ _ H).
Qed.

(** A valid URL and no user or no password in the configuration: [KeyError]
    for [SOURCE_DBUSER], or for [SOURCE_DBPASS] when only that is missing.
    Nothing is logged, and the database is not asked. *)
Theorem Connect_Source_needs_user_and_password
        (config : config_t) (connect : connect_t) (url : string) (lg : list logrecord) :
  valid_url url ->
  (dict_get String.eqb config "SOURCE_DBUSER" = None ->
   Connect_Source config connect url lg = (Err (Base (KeyError "SOURCE_DBUSER")), lg))
  /\ (dict_get String.eqb config "SOURCE_DBUSER" <> None ->
      dict_get String.eqb config "SOURCE_DBPASS" = None ->
      Connect_Source config connect url lg = (Err (Base (KeyError "SOURCE_DBPASS")), lg)).
Proof.
  intros (hp & db & -> & Hn & Hs).
  rewrite (Connect_Source_valid _ _ _ _ Hn Hs). cbv zeta. monad. split.
  - intros ->. reflexivity.
  - intros U P. destruct (dict_get String.eqb config "SOURCE_DBUSER"); [|contradiction].
    monad. rewrite P. reflexivity.
Qed.

(** The URL is taken apart as it was put together.  For a host without
    colon or slash that is not empty, a port without slash and any name of a
    database, [Connect_Source] on [postgresql://host:port/dbname] asks for a
    connection to that host, port and database with the user and password of
    the configuration, and on [postgresql://host/dbname] to the port 5432.
    When the connection is there it logs one INFO record and returns the
    cursor; when not, the error goes up and nothing is logged. *)
Theorem Connect_Source_connects_to_host_port_dbname
        (config : config_t) (connect : connect_t) (host port dbname : string)
        (user password : pyval) (lg : list logrecord) :
  host <> ""%string ->
  contains ":" host = false -> contains "/" host = false -> contains "/" port = false ->
  dict_get String.eqb config "SOURCE_DBUSER" = Some user ->
  dict_get String.eqb config "SOURCE_DBPASS" = Some password ->
  Connect_Source config connect ("postgresql://" ++ host ++ ":" ++ port ++ "/" ++ dbname) lg
  = match connect (conn_string host port dbname user password) with
    | inl cur => (Ok cur, lg ++ [(INFO, connected_msg dbname user)])
    | inr text => (Err (OperationalError text), lg)
    end
  /\ Connect_Source config connect ("postgresql://" ++ host ++ "/" ++ dbname) lg
     = match connect (conn_string host "5432" dbname user password) with
       | inl cur => (Ok cur, lg ++ [(INFO, connected_msg dbname user)])
       | inr text => (Err (OperationalError text), lg)
       end.
Proof.
  intros Hn Hc Hs Hp U P. split.
  - replace (host ++ ":" ++ port ++ "/" ++ dbname)%string
      with ((host ++ String ":" port) ++ "/" ++ dbname)%string.
    + rewrite Connect_Source_valid.
      * cbv zeta. rewrite (@find_char_app ":" host port Hc), slice_before, slice_after.
        destruct (0 <? Z.of_nat (String.length host)) eqn:L.
        -- monad. rewrite U. monad. rewrite P. monad.
           destruct (connect (conn_string host port dbname user password)); reflexivity.
        -- apply Z.ltb_ge in L. destruct host; [contradiction | simpl in L; lia].
      * destruct host; [contradiction | discriminate].
      * rewrite contains_app. simpl. now rewrite Hs, Hp.
    + clear. induction host as [|c h IH]; [reflexivity|].
      cbn [append]. f_equal. exact IH.
  - rewrite (Connect_Source_valid _ _ _ _ Hn Hs). cbv zeta.
    assert (F : (0 <? find_char ":" host) = false).
    { apply Z.ltb_ge. apply find_char_none in Hc. lia. }
    rewrite F. monad. rewrite U. monad. rewrite P. monad.
    destruct (connect (conn_string host "5432" dbname user password)); reflexivity.
Qed.

(** The rest of a URL after [postgresql://] that makes it valid. *)
Lemma valid_url_rest p :
  valid_url ("postgresql://" ++ p)
  <-> ~ (contains "/" p = false \/ exists r, p = ("/" ++ r)%string).
Proof.
  split.
  - intros (hp & db & E & Hn & Hs) [C|(r & ->)].
    + simpl in E. injection E as ->. rewrite contains_app in C.
      apply orb_false_iff in C. destruct C as [_ C]. simpl in C. discriminate C.
    + simpl in E. injection E as E. destruct hp as [|c hp]; [contradiction|].
      simpl in E. injection E as <- _. simpl in Hs. discriminate Hs.
  - intros N. destruct (Z_lt_le_dec (find_char "/" p) 0) as [L|L].
    + exfalso. apply N. left. now apply find_char_none.
    + destruct (find_char_split "/" p L) as (hp & db & -> & Hs & _).
      exists hp, db. split; [reflexivity|]. split; [|exact Hs].
      intros ->. apply N. right. now exists db.
Qed.

(** A source that [__init__] accepted with the scheme postgresql is
    [postgresql://] followed by a rest that is not empty, and [Connect_Source]
    still rejects it when the rest has no slash or begins with one: the host
    and the name of the database are looked at there only. *)
Theorem Connect_Source_checks_what_init_src_did_not
        (arg : option string) (config : config_t) (lg lg' : list logrecord)
        (ep : endpoint) :
  init_src arg config lg = (Ok ep, lg') ->
  scheme ep = Some "postgresql"%string ->
  exists p,
    p <> ""%string
    /\ path ep = Some p
    /\ uri ep = Some ("postgresql://" ++ p)%string
    /\ forall (config' : config_t) (connect : connect_t) (lg2 : list logrecord),
        Connect_Source config' connect ("postgresql://" ++ p) lg2 = url_rejected lg2
        <-> (contains "/" p = false \/ exists r, p = ("/" ++ r)%string).
Proof.
  intros H Hsch. apply init_src_form in H.
  destruct H as (_ & s & sch & p & _ & -> & Hp & H). simpl in Hsch.
  injection Hsch as ->. exists p. split; [exact Hp|]. split; [reflexivity|].
  destruct H as [[H _]|[_ ->]]; [discriminate H|]. split; [reflexivity|].
  intros config' connect lg2. rewrite Connect_Source_rejected_iff, valid_url_rest.
  split; [|tauto]. intros NN.
  destruct (contains "/" p) eqn:C; [|now left]. right.
  destruct (Z_lt_le_dec (find_char "/" p) 0) as [L|L].
  - apply find_char_none in L. congruence.
  - destruct (find_char_split "/" p L) as (hp & db & -> & Hs & _).
    destruct hp as [|c hp]; [now exists db|].
    exfalso. apply NN. intros [C'|(r & E)]; [congruence|].
    simpl in E. injection E as -> _. simpl in Hs. discriminate Hs.
Qed.

(** * run and the main program *)




(** The counters after [Store_Destination] has returned: every record of
    the snapshot is counted as updated or skipped when it returns True; when
    it returns False the record that failed and those after it are not, and
    nothing was deleted. *)
Lemma Store_Destination_counts save_error delete_error ni st rc m st' :
  Store_Destination save_error delete_error ni st = (Return (rc, m), st') ->
  if rc
  then (MyUpdateStat st' - MyUpdateStat st) + (MySkipStat st' - MySkipStat st)
       = Z.of_nat (List.length ni)
  else (MyUpdateStat st' - MyUpdateStat st) + (MySkipStat st' - MySkipStat st)
       < Z.of_nat (List.length ni)
       /\ MyDeleteStat st' = MyDeleteStat st.
Proof.
  intros H. unfold Store_Destination in H. cbv zeta in H.
  destruct (upsert_loop save_error (load_objects (objects st)) st ni) as [st1|res st2] eqn:L.
  - injection H as <- _ <-.
    destruct (delete_loop_counts delete_error ni (cur (load_objects (objects st))) st1)
      as [-> ->].
    pose proof (@upsert_loop_counts save_error _ _ _ _ L). lia.
  - injection H as -> ->.
    destruct (@upsert_loop_stop save_error _ _ _ _ _ L)
      as (pre & k & r & post & st1 & -> & H1 & H2).
    destruct (@upsert_item_inv save_error (load_objects (objects st)) st1 k r)
      as [[_ E]|[[_ (e & _ & E)]|[[_ (args & e & _ & _ & E)]|[_ (args & _ & _ & E)]]]];
      rewrite E in H2; try discriminate H2.
    injection H2 as <- <- <-. simpl.
    pose proof (@upsert_loop_counts save_error _ _ _ _ H1) as C.
    pose proof (@upsert_loop_keeps save_error (load_objects (objects st)) pre st) as K.
    cbv zeta in K. rewrite H1 in K. simpl in K. destruct K as (K1 & _).
    rewrite length_app. simpl. split; [lia | exact K1].
Qed.




Lemma set_logger_same st : set_logger (logger st) st = st.
Proof. now destruct st. Qed.

Lemma set_self_same w : set_self (self w) w = w.
Proof. now destruct w. Qed.

Section RunFacts.

Variable pr : process.
Variable connect : connect_t.
Variable save_error : XSEDEFos -> option db_error.
Variable delete_error : XSEDEFos -> option db_error.
Variable seconds : string.

(** The body of [run], stage by stage. *)
Lemma run_stages (config : config_t) (src : endpoint) (w : world) :
  run_through pr connect save_error delete_error seconds config src w
  = if match scheme src with
       | Some s => String.eqb s "postgresql"
       | None => false
       end
    then
      let st0 := self_at_start pr (self w) in
      match uri src with
      | None => (Err AttributeError, at_self st0 w [tracked pr])
      | Some url =>
          match Connect_Source config connect url (logger st0) with
          | (Err e, lg1) => (Err e, at_self (set_logger lg1 st0) w [tracked pr])
          | (Ok CURSOR, lg1) =>
              match Retrieve_Source CURSOR lg1 with
              | (Raise e, lg2) =>
                  (Err (Base e), at_self (set_logger lg2 st0) w [tracked pr])
              | (Return INPUT, lg2) =>
                  match Store_Destination save_error delete_error INPUT
                                          (set_logger lg2 st0) with
                  | (Raise e, st') => (Err (Base e), at_self st' w [tracked pr])
                  | (Return r, st') =>
                      (Ok tt,
                       mkWorld (log INFO (summary_msg seconds st') st') (stderr w)
                               (activity w
                                ++ [tracked pr;
                                    FinishActivity (fst r) (summary_msg seconds st')])
                               (closed w ++ [CURSOR]))
                  end
              end
          end
      end
    else (Err (Base (SystemExit 1)),
          mkWorld (log INFO (starting_msg pr) (self w))
                  (stderr w ++ [must_be_postgresql]) (activity w) (closed w)).
Proof.
  unfold run_through, on_logger, on_self, zoom, eprint, pa, Disconnect_Source. monad.
  cbn [self stderr activity closed logger set_self set_logger objects journal
       MyUpdateStat MyDeleteStat MySkipStat reset_stats].
  destruct (match scheme src with
            | Some s => String.eqb s "postgresql"
            | None => false
            end); monad; cbn [self stderr activity closed]; [|reflexivity].
  unfold self_at_start, at_self.
  destruct (uri src) as [url|]; monad;
    cbn [self stderr activity closed logger set_self set_logger objects journal
         MyUpdateStat MyDeleteStat MySkipStat reset_stats]; [|reflexivity].
  destruct (Connect_Source config connect url
              (logger (self w) ++ [(INFO, starting_msg pr)])) as [[CURSOR|e] lg1];
    monad; cbn [self stderr activity closed logger set_self set_logger objects journal
                MyUpdateStat MyDeleteStat MySkipStat reset_stats]; [|reflexivity].
  destruct (Retrieve_Source CURSOR lg1) as [[INPUT|e] lg2];
    monad; cbn [of_result self stderr activity closed logger set_self set_logger objects
                journal MyUpdateStat MyDeleteStat MySkipStat reset_stats]; [|reflexivity].
  unfold set_logger at 1. cbn [objects journal MyUpdateStat MyDeleteStat MySkipStat logger].
  destruct (Store_Destination save_error delete_error INPUT _) as [[r|e] st'];
    monad; cbn [of_result self stderr activity closed logger set_self set_logger objects
                journal MyUpdateStat MyDeleteStat MySkipStat reset_stats]; [|reflexivity].
  unfold log. rewrite <- app_assoc. reflexivity.
Qed.




(** When [run] goes through (no signal was caught, then), the counters of
    the summary are those of this run: they start from zero whatever they were, and the run tracker gets
    the flag that [Store_Destination] returned, with the summary and not
    with the message of the failure.  With the flag True the updates and the
    skips add up to the number of records of the snapshot; with the flag
    False they are fewer, and nothing was deleted. *)
Theorem run_summary_counts_this_run
        (config : config_t) (sig : option interrupt) (src : endpoint) (w w' : world) :
  run pr connect save_error delete_error seconds config sig src w = (Ok tt, w') ->
  exists url CURSOR lg1 INPUT lg2 rc msg st',
    uri src = Some url
    /\ Connect_Source config connect url (logger (self w) ++ [(INFO, starting_msg pr)])
       = (Ok CURSOR, lg1)
    /\ Retrieve_Source CURSOR lg1 = (Return INPUT, lg2)
    /\ Store_Destination save_error delete_error INPUT
                         (mkState (objects (self w)) (journal (self w)) 0 0 0 lg2)
       = (Return (rc, msg), st')
    /\ self w' = log INFO (summary_msg seconds st') st'
    /\ activity w' = activity w ++ [tracked pr; FinishActivity rc (summary_msg seconds st')]
    /\ if rc
       then MyUpdateStat (self w') + MySkipStat (self w') = Z.of_nat (List.length INPUT)
       else MyUpdateStat (self w') + MySkipStat (self w') < Z.of_nat (List.length INPUT)
            /\ MyDeleteStat (self w') = 0.
Proof.
  destruct sig as [i|]; [discriminate|]. unfold run. rewrite run_stages.
  destruct (match scheme src with
            | Some s0 => String.eqb s0 "postgresql"
            | None => false
            end); [|discriminate].
  cbv zeta. destruct (uri src) as [url|]; [|discriminate].
  change (logger (self_at_start pr (self w)))
    with (logger (self w) ++ [(INFO, starting_msg pr)]).
  destruct (Connect_Source config connect url (logger (self w) ++ [(INFO, starting_msg pr)]))
    as [[CURSOR|e] lg1] eqn:C; [|discriminate].
  destruct (Retrieve_Source CURSOR lg1) as [[INPUT|e] lg2] eqn:R; [|discriminate].
  change (set_logger lg2 (self_at_start pr (self w)))
    with (mkState (objects (self w)) (journal (self w)) 0 0 0 lg2).
  destruct (Store_Destination save_error delete_error INPUT
              (mkState (objects (self w)) (journal (self w)) 0 0 0 lg2))
    as [[[rc msg]|e] st'] eqn:S; [|discriminate].
  intros [= <-]. exists url, CURSOR, lg1, INPUT, lg2, rc, msg, st'.
  cbn [self activity fst]. split; [reflexivity|]. split; [exact C|].
  split; [exact R|]. split; [exact S|]. split; [reflexivity|]. split; [reflexivity|].
  pose proof (Store_Destination_counts _ _ _ _ S) as K. simpl in K.
  destruct rc; simpl; lia.
Qed.

(** [__init__] accepts sources with the schemes file, http and https, and
    [run] takes none of them: with such a source, and no signal caught, the
    program logs its start,
    prints that the source must be postgresql and exits with status 1; it
    has not connected, the destination and the counters are as they were,
    and the run tracker was not called. *)
Theorem source_that_is_not_postgresql_stops_run
        (config : config_t) (src dest : option string) (w : world) (s d : endpoint)
        (lg' : list logrecord) :
  init_endpoints src dest config (logger (self w)) = (Ok (s, d), lg') ->
  scheme s <> Some "postgresql"%string ->
  main pr connect save_error delete_error seconds (Started src dest config) None w
  = (1, mkWorld (log INFO (starting_msg pr) (self w))
                (stderr w ++ [must_be_postgresql]) (activity w) (closed w))
  /\ exists sch, scheme s = Some sch /\ In sch ["file"; "http"; "https"]%string.
Proof.
  intros I N. split.
  - unfold main, bindM, on_logger, zoom. rewrite I.
    pose proof (init_endpoints_kind _ _ _ _ I) as ->. cbn [fst].
    unfold run. rewrite set_logger_same, set_self_same, run_stages.
    destruct (scheme s) as [sch|]; [|reflexivity].
    destruct (String.eqb sch "postgresql") eqn:E; [|reflexivity].
    apply String.eqb_eq in E. subst sch. contradiction.
  - unfold init_endpoints, bindM in I.
    destruct (init_src src config (logger (self w))) as [[s1|e] lg1] eqn:S; [|discriminate I].
    destruct (init_dest dest config lg1) as [[d1|e] lg2]; [|discriminate I].
    assert (s1 = s).
    { destruct (is_file s1 && is_file d1); monad; [discriminate I|]. now injection I. }
    subst s1. apply init_src_form in S.
    destruct S as (_ & u & sch & p & _ & -> & _ & H). exists sch. split; [reflexivity|].
    simpl in N. destruct H as [[-> _]|[H _]]; [simpl; auto|].
    simpl in H. destruct H as [<-|[<-|[<-|[]]]]; simpl; auto; contradiction.
Qed.


End RunFacts.

(** * The further statements at sample inputs *)

Import MoreSamples.

(** The second of three records has no description; the table holds an
    obsolete row, which stays. *)
Lemma missing_field_raises_KeyError_witness :
  Store_Destination accept accept items_with_no_desc (start [obsolete_row])
  = (Raise (KeyError "field_of_science_desc"), physics_saved)
  /\ objects physics_saved = [obsolete_row; physics_row]
  /\ MyUpdateStat physics_saved = 1.
Proof.
  destruct (@missing_field_raises_KeyError
              accept accept items_with_no_desc one_item [(KInt 3, biology)]
              (KInt 2) no_desc (start [obsolete_row]) physics_saved
              "field_of_science_desc" eq_refl) as (H & _).
  - vm_compute. reflexivity.
  - vm_compute. reflexivity.
  - reflexivity.
  - split; [exact H|]. split; reflexivity.
Defined.

(** The empty snapshot on the table of three rows. *)
Lemma empty_snapshot_deletes_every_row_witness :
  Store_Destination accept accept [] (start three_rows_table)
  = (Return (true, ""),
     mkState [] (map Deleted three_rows_table) 0 3 0
             [ (INFO, "FOS delete field_of_science_id=None");
               (INFO, "FOS delete field_of_science_id=None");
               (INFO, "FOS delete field_of_science_id=None") ]).
Proof.
  rewrite (@empty_snapshot_deletes_every_row accept accept (start three_rows_table)).
  - reflexivity.
  - repeat constructor; simpl; intuition discriminate.
  - reflexivity.
Defined.

(** Three records on a table whose one row has another id. *)
Lemma records_with_new_ids_are_never_skipped_witness :
  MyUpdateStat (snd (Store_Destination accept accept three_items (start [obsolete_row]))) = 3
  /\ MySkipStat (snd (Store_Destination accept accept three_items (start [obsolete_row]))) = 0.
Proof.
  destruct (@records_with_new_ids_are_never_skipped
              accept accept three_items (start [obsolete_row])
              (snd (Store_Destination accept accept three_items (start [obsolete_row])))
              "") as (_ & U & S).
  - simpl. intros k [<-|[<-|[<-|[]]]] [H|[]]; discriminate H.
  - vm_compute. reflexivity.
  - split; [exact U | exact S].
Defined.

(** One record on the table of three rows, the deletion of row 2 rejected. *)
Lemma Store_Destination_deletes_only_ids_the_snapshot_lacks_witness :
  NoDup (map pk (objects (snd run_with_failed_delete)))
  /\ tbl_find (objects (snd run_with_failed_delete)) (KInt 1) <> None.
Proof.
  destruct (@Store_Destination_deletes_only_ids_the_snapshot_lacks
              accept reject_delete_2 one_item (start three_rows_table)) as (N & K & _).
  - repeat constructor; simpl; intuition discriminate.
  - split; [exact N|]. apply (K physics_row); simpl; auto.
Defined.

(** The cursor of three rows, two of them with the id 1. *)
Lemma snapshot_keeps_order_of_first_appearance_witness :
  exists ids, map (row_id COLS) rows = map Some ids
              /\ keys three_rows_snapshot = first_seen ids.
Proof.
  apply (@snapshot_keeps_order_of_first_appearance
           three_rows [] [] COLS rows three_rows_snapshot eq_refl eq_refl).
Defined.

(** The snapshot of the cursor of three rows has the two columns only: the
    first field the records lack is the parent id. *)
Lemma Store_Destination_after_Retrieve_Source_has_id_and_abbrev_witness :
  Store_Destination accept accept three_rows_snapshot (start [])
  = (Raise (KeyError "parent_field_of_science_id"), start [])
  /\ In "parent_field_of_science_id"
        [ "parent_field_of_science_id"; "field_of_science_desc"; "fos_nsf_id"; "is_active" ].
Proof.
  split; [vm_compute; reflexivity|].
  apply (@Store_Destination_after_Retrieve_Source_has_id_and_abbrev
           accept accept three_rows [] [] three_rows_snapshot (start []) (start [])
           "parent_field_of_science_id").
  - reflexivity.
  - vm_compute. reflexivity.
Defined.

(** * The statements on the script at sample inputs *)

(** A URL given on the command line. *)
Lemma init_src_accepts_scheme_and_path_witness :
  init_src (Some xdcdb_url) [] []
  = (Ok (mkEndpoint (Some xdcdb_url) (Some "postgresql"%string)
                    (Some "db.example.org/xdcdb"%string)), []).
Proof.
  apply (proj2 (@init_src_accepts_scheme_and_path
                  (Some xdcdb_url) [] [] []
                  (mkEndpoint (Some xdcdb_url) (Some "postgresql"%string)
                              (Some "db.example.org/xdcdb"%string)))).
  split; [reflexivity|].
  exists xdcdb_url, "postgresql"%string, "db.example.org/xdcdb"%string.
  split; [reflexivity|]. split; [reflexivity|]. split; [discriminate|].
  right. split; [simpl; auto | reflexivity].
Defined.

(** The destination of the configuration, a file. *)
Lemma init_dest_accepts_three_names_witness :
  init_dest None [("DESTINATION", PyStr "file:/tmp/fos.json")] []
  = (Ok (mkEndpoint (Some "file:/tmp/fos.json"%string) (Some "file"%string)
                    (Some "/tmp/fos.json"%string)), []).
Proof.
  apply (proj2 (@init_dest_accepts_three_names
                  None [("DESTINATION", PyStr "file:/tmp/fos.json")] [] []
                  (mkEndpoint (Some "file:/tmp/fos.json"%string) (Some "file"%string)
                              (Some "/tmp/fos.json"%string)))).
  split; [reflexivity|]. exists "file:/tmp/fos.json"%string. split; [reflexivity|].
  right. exists "file"%string, "/tmp/fos.json"%string.
  split; [simpl; auto|]. split; reflexivity.
Defined.

(** The source given as the name of the scheme alone. *)
Lemma init_endpoints_ends_in_four_ways_witness :
  init_endpoints (Some "postgresql"%string) None [] [] = (Err TypeError, [])
  /\ exists s,
      defaulted (Some "postgresql"%string) [] "SOURCE_URL" "postgresql://localhost:5432/"
      = PyStr s
      /\ In s ["file"; "http"; "https"; "postgresql"]%string.
Proof.
  split; [reflexivity|].
  destruct (@init_endpoints_ends_in_four_ways
              (Some "postgresql"%string) None [] [] [] (Err TypeError) eq_refl)
    as [(H & _)|[(_ & _ & H)|(H & _)]]; [discriminate H | exact H | discriminate H].
Defined.

(** A URL of another scheme. *)
Lemma Connect_Source_rejects_what_is_no_valid_url_witness :
  ~ valid_url "mysql://db.example.org/xdcdb".
Proof.
  apply (proj1 (proj1 (@Connect_Source_rejects_what_is_no_valid_url
                         settings (one_database broken) "mysql://db.example.org/xdcdb" []))).
  reflexivity.
Defined.

(** An empty configuration. *)
Lemma Connect_Source_needs_user_and_password_witness :
  Connect_Source [] (one_database broken) xdcdb_url []
  = (Err (Base (KeyError "SOURCE_DBUSER")), []).
Proof.
  refine (proj1 (@Connect_Source_needs_user_and_password
                   [] (one_database broken) xdcdb_url [] _) _).
  - exists "db.example.org"%string, "xdcdb"%string.
    split; [reflexivity|]. split; [discriminate | reflexivity].
  - reflexivity.
Defined.

(** The one URL the sample server knows, without a port. *)
Lemma Connect_Source_connects_to_host_port_dbname_witness :
  Connect_Source settings (one_database broken) xdcdb_url []
  = (Ok broken, [(INFO, "Connected to PostgreSQL database xdcdb as info"%string)])
  /\ Connect_Source settings (one_database broken)
                    "postgresql://db.example.org:5433/xdcdb" []
     = (Err (OperationalError "could not connect"), []).
Proof.
  destruct (@Connect_Source_connects_to_host_port_dbname
              settings (one_database broken) "db.example.org" "5433" "xdcdb"
              (PyStr "info") (PyStr "secret") []) as [H1 H2];
    try reflexivity; [discriminate|].
  split; [exact H2 | exact H1].
Defined.

(** The default source: accepted by [__init__], and by [Connect_Source]
    with an empty name of the database. *)
Lemma Connect_Source_checks_what_init_src_did_not_witness :
  exists p,
    p <> ""%string
    /\ path (mkEndpoint (Some "postgresql://localhost:5432/"%string)
                        (Some "postgresql"%string) (Some "localhost:5432/"%string))
       = Some p
    /\ uri (mkEndpoint (Some "postgresql://localhost:5432/"%string)
                       (Some "postgresql"%string) (Some "localhost:5432/"%string))
       = Some ("postgresql://" ++ p)%string
    /\ forall (config' : config_t) (connect : connect_t) (lg2 : list logrecord),
        Connect_Source config' connect ("postgresql://" ++ p) lg2 = url_rejected lg2
        <-> (contains "/" p = false \/ exists r, p = ("/" ++ r)%string).
Proof.
  apply (@Connect_Source_checks_what_init_src_did_not None [] [] []
           (mkEndpoint (Some "postgresql://localhost:5432/"%string)
                       (Some "postgresql"%string) (Some "localhost:5432/"%string))).
  - reflexivity.
  - reflexivity.
Defined.


(** The run on a source of one row, the table empty. *)
Lemma run_summary_counts_this_run_witness :
  exists url CURSOR lg1 INPUT lg2 msg st',
    Some xdcdb_url = Some url
    /\ Connect_Source settings (one_database unnamed_row) url
                      ([] ++ [(INFO, starting_msg this_process)])
       = (Ok CURSOR, lg1)
    /\ Retrieve_Source CURSOR lg1 = (Return INPUT, lg2)
    /\ Store_Destination accept accept INPUT (mkState [] [] 0 0 0 lg2)
       = (Return (true, msg), st')
    /\ MyUpdateStat st' + MySkipStat st' = Z.of_nat (List.length INPUT).
Proof.
  destruct (@run_summary_counts_this_run
              this_process (one_database unnamed_row) accept accept "0.123" settings None
              (mkEndpoint (Some xdcdb_url) (Some "postgresql"%string)
                          (Some "db.example.org/xdcdb"%string))
              (world_of [])
              (snd (run this_process (one_database unnamed_row) accept accept
                        "0.123" settings None
                        (mkEndpoint (Some xdcdb_url) (Some "postgresql"%string)
                                    (Some "db.example.org/xdcdb"%string))
                        (world_of []))))
    as (url & CURSOR & lg1 & INPUT & lg2 & rc & msg & st' & U & C & R & S & W & A & K).
  - vm_compute. reflexivity.
  - assert (E : rc = true).
    { vm_compute in A. now injection A as <-. }
    subst rc. exists url, CURSOR, lg1, INPUT, lg2, msg, st'.
    rewrite W in K. simpl in K. repeat split; assumption.
Defined.

(** A file as the source. *)
Lemma source_that_is_not_postgresql_stops_run_witness :
  main this_process (one_database unnamed_row) accept accept "0.123"
       (Started (Some "file:/tmp/fos.csv"%string) None settings) None
       (world_of three_rows_table)
  = (1, mkWorld (log INFO (starting_msg this_process) (start three_rows_table))
                [must_be_postgresql] [] []).
Proof.
  apply (@source_that_is_not_postgresql_stops_run
           this_process (one_database unnamed_row) accept accept "0.123" settings
           (Some "file:/tmp/fos.csv"%string) None (world_of three_rows_table)
           (mkEndpoint (Some "file:/tmp/fos.csv"%string) (Some "file"%string)
                       (Some "/tmp/fos.csv"%string))
           (mkEndpoint (Some "analyze"%string) (Some "analyze"%string) None) []).
  - reflexivity.
  - discriminate.
Defined.

